(** * BMS secure storage engine: a shallow embedding and its properties

    The development follows the Python sources
    - [src/utils/compression.py]   (CompressionManager)
    - [src/utils/encryption.py]    (EncryptionManager, DataIntegrityManager)
    - [src/services/secure_database.py] (SecureDatabaseManager)
    - [src/services/secure_storage.py]  (SecureStorageManager)
    - [src/config.py]              (SecurityConfig)

    Python library calls (json, base64, gzip/bz2/lzma/zlib, Fernet, sha256,
    utf-8 codecs) are the fields of the record [Lib]; the repository's own
    code is written over an arbitrary [Lib].  Module [Ref] gives one
    executable instance on which the definitions can be run. *)

From Stdlib Require Import String Ascii List ZArith Bool Lia QArith.
From stdpp Require Import base option gmap strings.
Import ListNotations.

Set Warnings "-register-all".

Local Open Scope string_scope.
Local Open Scope Z_scope.

(** ** Data *)

(** Python [str] and [bytes] are both byte strings here: a [str] is
    identified with its UTF-8 encoding, so [s.encode('utf-8')] is [s] itself
    and [b.decode('utf-8')] is [b] when [b] is well-formed UTF-8 (and raises
    otherwise).  Decoding the ASCII output of base64 never raises.  A lone
    surrogate, which a [str] can hold (json.loads makes one from the escape
    [\ud800]) but no UTF-8 text can, is held as the three bytes that the
    error handler [surrogatepass] writes for it; [has_lone_surrogate] below
    finds it, and [save_app_data] fails on it as the encoders do. *)
Abbreviation str := string (only parsing).
Abbreviation bytes := string (only parsing).

(** [if not data] on a [str] or [bytes] object. *)
Definition is_empty (s : string) : bool :=
  match s with EmptyString => true | String _ _ => false end.

(** The values that the callers hand to [_secure_data] and that
    [json.loads] returns: [None], booleans, integers, strings, lists and
    dicts with string keys (insertion-ordered, as a Python dict is).  Floats
    are left out.  [VEnum name value] is a member of an [Enum] class, the one
    kind of object with an attribute [value] that the application stores
    (flet's [ThemeMode.LIGHT] under the key ["theme_mode"]): [name] is what
    [str] makes of it, [value] its attribute [value].  [json.loads] returns
    no such member. *)
Inductive Value : Type :=
| VNone : Value
| VBool : bool -> Value
| VInt : Z -> Value
| VStr : string -> Value
| VList : list Value -> Value
| VDict : list (string * Value) -> Value
| VEnum : string -> Value -> Value.

(** [isinstance(data, (dict, list))]. *)
Definition is_dict_or_list (v : Value) : bool :=
  match v with VList _ | VDict _ => true | _ => false end.

(** [CompressionType] of compression.py. *)
Inductive CompressionType : Type := GZIP | BZIP2 | LZMA | ZLIB | NONE.

Definition CompressionType_value (t : CompressionType) : string :=
  match t with
  | GZIP => "gzip" | BZIP2 => "bzip2" | LZMA => "lzma" | ZLIB => "zlib"
  | NONE => "none"
  end.

(** What is not a function of the arguments in the library calls: the
    modification time that [gzip.compress] writes into its header and the
    timestamp and IV that [Fernet.encrypt] draws. *)
Record Rnd : Type := mkRnd { mtime : N; nonce : N }.

(** ** The Python libraries the code calls *)
Record Lib : Type := mkLib {
  (* json: json.dumps(v, ensure_ascii=False), the text it returns when it
     does not raise *)
  json_dumps : Value -> str;
  json_loads : str -> option Value;        (* None: json.loads raises *)
  (* what json.loads raises is a json.JSONDecodeError; false: it is another
     exception (RecursionError on deep nesting, ValueError on an integer
     literal over the digit limit) *)
  json_decode_error : str -> bool;
  py_str : Value -> str;                   (* str(v), when it does not raise *)
  (* str(n), repr(n) and json.dumps(n) raise ValueError: the integer has more
     digits than sys.get_int_max_str_digits() *)
  int_str_raises : Z -> bool;
  (* codecs *)
  utf8_valid : bytes -> bool;              (* false: UnicodeDecodeError *)
  (* base64 *)
  b64encode : bytes -> bytes;
  b64decode : bytes -> option bytes;       (* None: binascii.Error *)
  urlsafe_b64encode : bytes -> bytes;
  urlsafe_b64decode : bytes -> option bytes;
  (* cryptography.fernet, for the manager's derived key *)
  fernet_encrypt : N -> bytes -> bytes;
  fernet_decrypt : bytes -> option bytes;  (* None: InvalidToken *)
  (* compressors; the level is the one handed over by the caller *)
  gzip_compress : N -> bytes -> Z -> bytes;
  gzip_decompress : bytes -> option bytes;
  bz2_compress : bytes -> Z -> bytes;
  bz2_decompress : bytes -> option bytes;
  lzma_compress : bytes -> Z -> bytes;
  lzma_decompress : bytes -> option bytes;
  zlib_compress : bytes -> Z -> bytes;
  zlib_decompress : bytes -> option bytes;
  (* hashlib *)
  sha256_hexdigest : bytes -> str;
  (* sqlite3: the message of the OperationalError that fetchall raises on a
     TEXT cell that is not UTF-8, from the column name and the cell *)
  could_not_decode : string -> bytes -> str
}.

(** [s.encode('utf-8')] and [b.decode('utf-8')]. *)
Definition encode_utf8 (s : str) : bytes := s.

Definition decode_utf8 (L : Lib) (b : bytes) : option str :=
  if utf8_valid L b then Some b else None.

(** ** compression.py *)
Module CompressionManager.
Section WithLib.
Context (L : Lib).
(** [self.compression_type] *)
Context (compression_type : CompressionType).

(** Clamp compression level to valid range: [max(1, min(9, level))]. *)
Definition clamp_level (compression_level : Z) : Z :=
Z.max 1 (Z.min 9 compression_level).

Definition compress_bytes (r : Rnd) (data : bytes) (compression_level : Z)
: bytes :=
if is_empty data then ""
else match compression_type with
     | NONE => data
     | _ =>
       let compression_level := clamp_level compression_level in
       match compression_type with
       | GZIP => gzip_compress L (mtime r) data compression_level
       | BZIP2 => bz2_compress L data compression_level
       | LZMA => lzma_compress L data compression_level
       | ZLIB => zlib_compress L data compression_level
       | NONE => data
       end
     end.

Definition compress_string (r : Rnd) (data : str) (compression_level : Z)
: bytes :=
if is_empty data then ""
else compress_bytes r (encode_utf8 data) compression_level.

(** [None] stands for the [ValueError("Decompression failed: ...")]. *)
Definition decompress_bytes (compressed_data : bytes) : option bytes :=
if is_empty compressed_data then Some ""
else match compression_type with
     | NONE => Some compressed_data
     | GZIP => gzip_decompress L compressed_data
     | BZIP2 => bz2_decompress L compressed_data
     | LZMA => lzma_decompress L compressed_data
     | ZLIB => zlib_decompress L compressed_data
     end.

(** [None]: decompression failed or the result is not UTF-8. *)
Definition decompress_string (compressed_data : bytes) : option str :=
if is_empty compressed_data then Some ""
else match decompress_bytes compressed_data with
     | Some decompressed_bytes => decode_utf8 L decompressed_bytes
     | None => None
     end.

(** [compress_dict]: [if not data] is the empty dict. *)
Definition compress_dict (r : Rnd) (data : list (string * Value))
         (compression_level : Z) : bytes :=
match data with
| [] => ""
| _ => compress_string r (json_dumps L (VDict data)) compression_level
end.
End WithLib.
End CompressionManager.

(** ** encryption.py *)
Module EncryptionManager.
Section WithLib.
Context (L : Lib).

(** [encrypt_string]: Fernet token of the UTF-8 bytes, wrapped once more in
  URL-safe base64. *)
Definition encrypt_string (r : Rnd) (plaintext : str) : str :=
if is_empty plaintext then ""
else urlsafe_b64encode L (fernet_encrypt L (nonce r) (encode_utf8 plaintext)).

(** [None] stands for [ValueError("Failed to decrypt string: ...")]. *)
Definition decrypt_string (encrypted_text : str) : option str :=
if is_empty encrypted_text then Some ""
else
  encrypted_bytes ← urlsafe_b64decode L (encode_utf8 encrypted_text);
  decrypted_bytes ← fernet_decrypt L encrypted_bytes;
  decode_utf8 L decrypted_bytes.
End WithLib.
End EncryptionManager.

Module DataIntegrityManager.
Section WithLib.
Context (L : Lib).

Definition calculate_hash (data : bytes) : str :=
sha256_hexdigest L (encode_utf8 data).

Definition verify_hash (data : bytes) (expected_hash : str) : bool :=
let calculated_hash := calculate_hash data in
String.eqb calculated_hash expected_hash.
End WithLib.
End DataIntegrityManager.

(** ** config.py: SecurityConfig *)
Module SecurityConfig.
Definition DEFAULT_COMPRESSION_TYPE : CompressionType := GZIP.
Definition COMPRESSION_LEVEL : Z := 6.
Definition ENABLE_COMPRESSION : bool := true.
Definition ENABLE_ENCRYPTION : bool := true.
Definition BACKUP_COMPRESSION : bool := true.
Definition BACKUP_ENCRYPTION : bool := true.
Definition ENABLE_CHECKSUMS : bool := true.
End SecurityConfig.

(** ** secure_database.py: the manager's mutable attributes *)
Record Manager : Type := mkManager {
  enable_encryption : bool;
  enable_compression : bool;
  compression_level : Z;
  enable_checksums : bool;
  (** [self.compression_manager.compression_type] *)
  compression_type : CompressionType
}.

(** [SecureDatabaseManager.__init__]. *)
Definition Manager_init : Manager :=
  {| enable_encryption := SecurityConfig.ENABLE_ENCRYPTION;
     enable_compression := SecurityConfig.ENABLE_COMPRESSION;
     compression_level := SecurityConfig.COMPRESSION_LEVEL;
     enable_checksums := SecurityConfig.ENABLE_CHECKSUMS;
     compression_type := SecurityConfig.DEFAULT_COMPRESSION_TYPE |}.

Section Codec.
Context (L : Lib).

(** [_secure_data]: the payload it returns when no call in it raises;
    [secure_data_raises] below tells when one does. *)
Definition _secure_data (self : Manager) (r : Rnd) (data : Value) : str :=
  match data with
  | VNone => ""
  | _ =>
    let json_data :=
      if is_dict_or_list data then json_dumps L data else py_str L data in
    let processed_data :=
      if enable_compression self then
        let compressed_data :=
          CompressionManager.compress_string L (compression_type self) r
            json_data (compression_level self) in
        b64encode L compressed_data
      else json_data in
    if enable_encryption self then
      EncryptionManager.encrypt_string L r processed_data
    else processed_data
  end.

(** The list [attempts] of [_unsecure_data]. *)
Definition attempts (self : Manager) : list (bool * bool) :=
  [ (enable_encryption self, enable_compression self);
    (false, enable_compression self);
    (enable_encryption self, false);
    (false, false) ].

(** The two guarded steps of one loop iteration: [None] is a [continue]. *)
Definition decode_steps (self : Manager) (try_encryption try_compression : bool)
           (secured_data : str) : option str :=
  processed_data ←
    (if try_encryption then EncryptionManager.decrypt_string L secured_data
     else Some secured_data);
  if try_compression then
    compressed_bytes ← b64decode L (encode_utf8 processed_data);
    CompressionManager.decompress_string L (compression_type self)
      compressed_bytes
  else Some processed_data.

(** One iteration of the [for] loop: [Some v] is [return v], [None] is a
    [continue].  The inner handler of the parse catches
    [json.JSONDecodeError] only; any other exception of [json.loads] reaches
    the outer [except Exception: continue]. *)
Definition try_attempt (self : Manager) (secured_data : str)
           (a : bool * bool) : option Value :=
  json_data ← decode_steps self (fst a) (snd a) secured_data;
  match json_loads L json_data with
  | Some v => Some v                       (* return json.loads(json_data) *)
  | None =>
    if json_decode_error L json_data
    then Some (VStr json_data)             (* Return as string if it's not JSON *)
    else None                              (* Try next combination *)
  end.

(** The [for] loop: the first iteration that returns. *)
Fixpoint attempts_loop (self : Manager) (secured_data : str)
         (l : list (bool * bool)) : option Value :=
  match l with
  | [] => None
  | a :: l' =>
    match try_attempt self secured_data a with
    | Some v => Some v
    | None => attempts_loop self secured_data l'
    end
  end.

(** [_unsecure_data] *)
Definition _unsecure_data (self : Manager) (secured_data : str) : Value :=
  if is_empty secured_data then VNone
  else
    match attempts_loop self secured_data (attempts self) with
    | Some v => v
    | None =>
      (* If all attempts failed, try to return as plain text; the handler
         here is a bare [except], which catches every exception *)
      match json_loads L secured_data with
      | Some v => v
      | None => VStr secured_data
      end
    end.

(** *** What makes the encoding of a value raise *)

(** A lone surrogate in a [str]: the lead byte 0xED followed by a byte in
    0xA0..0xBF.  On such a [str], [encode('utf-8')] raises
    [UnicodeEncodeError], in [compress_string], in [encrypt_string] and in
    the parameter binding of an [INSERT]. *)
Fixpoint has_lone_surrogate (s : string) : bool :=
  match s with
  | EmptyString => false
  | String a rest =>
    match rest with
    | String b _ =>
      ((N_of_ascii a =? 237) && (160 <=? N_of_ascii b) && (N_of_ascii b <=? 191))%N
    | EmptyString => false
    end
    || has_lone_surrogate rest
  end.

(** [repr(v)] raises: [ValueError] on an integer over the digit limit, also
    inside a list or a dict, and in the value of an enum member, whose
    [repr] is [<name: repr(value)>] (RecursionError on a nesting deeper
    than the interpreter's limit is left out). *)
Fixpoint repr_raises (v : Value) : bool :=
  match v with
  | VInt n => int_str_raises L n
  | VList l => existsb repr_raises l
  | VDict items => existsb (fun kv => repr_raises (snd kv)) items
  | VEnum _ x => repr_raises x
  | _ => false
  end.

(** [str(v)] raises: the [str] of an enum member is its name, the [str] of
    any other value raises when its [repr] does. *)
Definition str_raises (v : Value) : bool :=
  match v with
  | VEnum _ _ => false
  | _ => repr_raises v
  end.

(** [json.dumps(v, ensure_ascii=False)] raises: [ValueError] on an integer
    over the digit limit, [TypeError] on a member of an [Enum] class
    (RecursionError is left out here too). *)
Fixpoint dumps_raises (v : Value) : bool :=
  match v with
  | VInt n => int_str_raises L n
  | VList l => existsb dumps_raises l
  | VDict items => existsb (fun kv => dumps_raises (snd kv)) items
  | VEnum _ _ => true
  | _ => false
  end.

(** A string of [v], a key included, holds a lone surrogate; with
    [ensure_ascii=False] the text of [json.dumps] then holds it too. *)
Fixpoint holds_surrogate (v : Value) : bool :=
  match v with
  | VStr s => has_lone_surrogate s
  | VList l => existsb holds_surrogate l
  | VDict items =>
    existsb (fun kv => has_lone_surrogate (fst kv) || holds_surrogate (snd kv))
            items
  | _ => false
  end.

(** Making [json_data] in [_secure_data] raises. *)
Definition text_raises (data : Value) : bool :=
  if is_dict_or_list data then dumps_raises data else str_raises data.

(** [json_data] holds a lone surrogate: for a dict or a list when one of its
    strings does, for a string when it does itself; the [str] of any other
    value is ASCII. *)
Definition text_holds_surrogate (data : Value) : bool :=
  if is_dict_or_list data then holds_surrogate data
  else match data with
       | VStr s => has_lone_surrogate s
       | _ => false
       end.

(** [_secure_data(data)] raises: making the text raises, or the text holds a
    lone surrogate and is encoded by [compress_string] or, without
    compression, by [encrypt_string]. *)
Definition secure_data_raises (self : Manager) (data : Value) : bool :=
  match data with
  | VNone => false
  | _ =>
    text_raises data
    || ((enable_compression self || enable_encryption self)
        && text_holds_surrogate data)
  end.
End Codec.

(** ** The world outside the manager *)

(** Exceptions that cross a function boundary in secure_database.py. *)
Inductive exn : Type :=
| OperationalError (msg : string)   (* sqlite3.OperationalError *)
| OtherException (msg : string)     (* any other [Exception] *)
| RuntimeError (msg : string).      (* raised by contextlib *)

(** How the block of a [with] statement ends. *)
Inductive Result (A : Type) : Type :=
| Ok (a : A)
| Raise (e : exn).
Arguments Ok {A} a.
Arguments Raise {A} e.

(** How a [with] statement ends: its block completed with [a] and the
    context manager let it be; an exception leaves the statement; or the
    block raised and the context manager swallowed the exception, so that
    the program goes on after the statement. *)
Inductive Outcome (A : Type) : Type :=
| Completed (a : A)
| Raised (e : exn)
| Swallowed.
Arguments Completed {A} a.
Arguments Raised {A} e.
Arguments Swallowed {A}.

(** What one pass over [sqlite3.connect] and the two PRAGMAs does:
    it goes through, or it raises [e]; [conn_assigned] tells whether
    [connect] had already returned (so that [conn] is bound) when it raised. *)
Inductive ConnOutcome : Type :=
| ConnOk
| ConnRaises (e : exn) (conn_assigned : bool).

Inductive Event : Type :=
| EConnect (attempt : nat)
| ESleep (seconds : Q)
| EClose
| ECommit
| ERollback.

Record World : Type := mkWorld {
  (** table [app_data]: [None] until it is created *)
  app_table : option (gmap string string);
  (** text files by path *)
  files : gmap string string;
  (** number of connection attempts made so far *)
  connects : nat;
  (** what the connection manager did, oldest first *)
  trace : list Event
}.

Definition emit (es : list Event) (w : World) : World :=
  {| app_table := app_table w; files := files w;
     connects := connects w; trace := trace w ++ es |}.

Definition count_connect (w : World) : World :=
  {| app_table := app_table w; files := files w;
     connects := S (connects w); trace := trace w |}.

Definition set_table (t : gmap string string) (w : World) : World :=
  {| app_table := Some t; files := files w;
     connects := connects w; trace := trace w |}.

Definition write_file (path content : string) (w : World) : World :=
  {| app_table := app_table w; files := <[path := content]> (files w);
     connects := connects w; trace := trace w |}.

(** [sub in s] on Python strings. *)
Fixpoint is_prefix (p s : string) : bool :=
  match p, s with
  | EmptyString, _ => true
  | String a p', String b s' => Ascii.eqb a b && is_prefix p' s'
  | String _ _, EmptyString => false
  end.

Fixpoint is_substring (p s : string) : bool :=
  is_prefix p s ||
  match s with
  | EmptyString => false
  | String _ s' => is_substring p s'
  end.

Section Connection.
(** The backing store as seen by the [n]-th connection attempt. *)
Context (connect_outcome : nat -> ConnOutcome).

(** [if conn: try: conn.close() except: pass] *)
Definition close_if (conn : bool) (w : World) : World :=
  if conn then emit [EClose] w else w.

Definition rollback_if (conn : bool) (w : World) : World :=
  if conn then emit [ERollback] w else w.

(** The [for attempt in range(max_retries)] loop of
    [_get_connection_with_retry], run together with the block of the [with]
    statement.  [fuel] counts the iterations left, [conn] tells whether the
    variable [conn] is bound.  The block is [body]: it returns the world it
    leaves and its result; when it raises, that world holds what outlasts
    the rollback (or the close without commit) that follows.

    [thrown] tells that the block has already raised and that the handler
    of the generator answered with [continue]: the generator then goes on
    with the next attempt, and when that attempt reaches [yield] again,
    contextlib raises [RuntimeError("generator didn't stop after throw()")]
    (the connection is closed when the generator is finalised); when the
    loop ends instead, the exception of the block is swallowed. *)
Fixpoint retry_loop {A : Type} (body : World -> World * Result A)
         (max_retries : nat) (retry_delay : Q)
         (fuel attempt : nat) (conn thrown : bool) (w : World)
  : World * Outcome A :=
  match fuel with
  | O =>
    if thrown then (w, Swallowed)
    else (w, Raised (RuntimeError "generator didn't yield"))
  | S fuel' =>
    let n := connects w in
    let w := emit [EConnect attempt] (count_connect w) in
    let retry := (Z.of_nat attempt <? Z.of_nat max_retries - 1)%Z in
    let sleep := ESleep (retry_delay * inject_Z (2 ^ Z.of_nat attempt)) in
    match connect_outcome n with
    | ConnOk =>
      if thrown then
        (emit [EClose] w,
         Raised (RuntimeError "generator didn't stop after throw()"))
      else
        match body w with
        | (w', Ok a) => (emit [ECommit; EClose] w', Completed a)
        | (w', Raise (OperationalError msg)) =>
          if is_substring "database is locked" msg && retry then
            retry_loop body max_retries retry_delay fuel' (S attempt) true true
                       (emit [EClose; sleep; EClose] w')
          else (emit [EClose] w', Raised (OperationalError msg))
        | (w', Raise e) => (emit [ERollback; EClose] w', Raised e)
        end
    | ConnRaises (OperationalError msg) assigned =>
      let conn := conn || assigned in
      if is_substring "database is locked" msg && retry then
        let w := close_if conn w in
        let w := emit [sleep] w in
        let w := close_if conn w in          (* finally *)
        retry_loop body max_retries retry_delay fuel' (S attempt) conn thrown w
      else
        (close_if conn w, Raised (OperationalError msg))
    | ConnRaises e assigned =>
      let conn := conn || assigned in
      (close_if conn (rollback_if conn w), Raised e)
    end
  end.

(** [with self._get_connection_with_retry(max_retries, retry_delay) as conn: body] *)
Definition _get_connection_with_retry {A : Type}
           (max_retries : nat) (retry_delay : Q)
           (body : World -> World * Result A) (w : World)
  : World * Outcome A :=
  retry_loop body max_retries retry_delay max_retries 0%nat false false w.

(** The defaults [max_retries=5, retry_delay=0.1]. *)
Definition default_max_retries : nat := 5.
Definition default_retry_delay : Q := 1 # 10.
End Connection.

(** ** secure_database.py: operations on the store *)
Section Manager.
Context (L : Lib).
Context (connect_outcome : nat -> ConnOutcome).

Abbreviation with_connection :=
  (_get_connection_with_retry connect_outcome
     default_max_retries default_retry_delay).

(** [cursor.execute('CREATE TABLE IF NOT EXISTS app_data ...')] *)
Definition create_table_if_not_exists (w : World) : gmap string string :=
  match app_table w with
  | Some t => t
  | None => ∅
  end.

(** The value handed to [_secure_data] for one item of [app_data]: for
    ["theme_mode"] it is [value.value if hasattr(value, 'value') else
    str(value)]; a member of an [Enum] class has the attribute, no other
    value has. *)
Definition value_to_secure (key : string) (value : Value) : Value :=
  if String.eqb key "theme_mode" then
    match value with
    | VEnum _ x => x
    | _ => VStr (py_str L value)
    end
  else value.

(** [_secure_data(data)] raises, or the [INSERT] of its result does: making
    the text raises, or the text holds a lone surrogate, on which an encoder
    of [_secure_data] or, with compression and encryption both off, the
    parameter binding of the [INSERT] raises [UnicodeEncodeError]. *)
Definition cannot_store (data : Value) : bool :=
  match data with
  | VNone => false
  | _ => text_raises L data || text_holds_surrogate data
  end.

(** One pass of the loop of [save_app_data] raises: the key cannot be bound,
    [str(value)] raises for ["theme_mode"], or the value handed to
    [_secure_data] cannot be stored.  For ["theme_mode"] the [str] of a
    string is the string, and the [str] of any other value holds no lone
    surrogate. *)
Definition item_raises (key : string) (value : Value) : bool :=
  has_lone_surrogate key
  || if String.eqb key "theme_mode" then
       match value with
       | VEnum _ x => cannot_store x
       | VStr s => has_lone_surrogate s
       | _ => str_raises L value
       end
     else cannot_store value.

(** The loop [for key, value in app_data.items()] with its
    [INSERT OR REPLACE]: the table after the last item, or [None] when a
    pass raises. *)
Fixpoint save_items (self : Manager) (rs : string -> Rnd)
         (items : list (string * Value)) (t : gmap string string)
  : option (gmap string string) :=
  match items with
  | [] => Some t
  | (key, value) :: items' =>
    if item_raises key value then None
    else
      let secured_value :=
        _secure_data L self (rs key) (value_to_secure key value) in
      save_items self rs items' (<[key := secured_value]> t)
  end.

(** [save_app_data], its block first.  [app_data] is whatever the caller
    passes; on anything but a dict [app_data.items()] raises inside the
    block.  The
    [CREATE TABLE IF NOT EXISTS] is committed as it runs (sqlite3 opens a
    transaction only before the first [INSERT]), so that the table outlasts
    the rollback of a block that raises later; the rows inserted by that
    block do not.  After the [with] statement the function returns [True],
    also when the context manager swallowed an exception.  The update of
    the table [security_metadata] that follows a successful save (errors
    there are caught and printed) is modelled apart, as [save_metadata].
    A lock or an I/O error that the store reports while the block runs is
    not modelled. *)
Definition save_block (self : Manager) (rs : string -> Rnd)
           (app_data : Value) (w : World) : World * Result unit :=
  let t := create_table_if_not_exists w in
  let w := set_table t w in
  match app_data with
  | VDict items =>
    match save_items self rs items t with
    | Some t' => (set_table t' w, Ok tt)
    | None => (w, Raise (OtherException "item cannot be stored"))
    end
  | _ => (w, Raise (OtherException "object has no attribute 'items'"))
  end.

Definition save_app_data (self : Manager) (rs : string -> Rnd)
           (app_data : Value) (w : World) : World * bool :=
  match with_connection (save_block self rs app_data) w with
  | (w', Completed _) => (w', true)
  | (w', Swallowed) => (w', true)
  | (w', Raised _) => (w', false)
  end.

(** The loop over [rows] of [load_app_data]; [_unsecure_data] raises
    nothing, so the handler that skips a row is never entered. *)
Definition load_rows (self : Manager) (rows : list (string * string))
  : list (string * Value) :=
  map (fun '(key, secured_value) =>
         (key, _unsecure_data L self secured_value)) rows.

(** The first cell, in the order of [fetchall], that is not UTF-8 text:
    its column and what it holds. *)
Fixpoint undecodable_cell (rows : list (string * string))
  : option (string * bytes) :=
  match rows with
  | [] => None
  | (key, value) :: rows' =>
    if negb (utf8_valid L key) then Some ("key", key)
    else if negb (utf8_valid L value) then Some ("value", value)
    else undecodable_cell rows'
  end.

(** [load_app_data], its block first: the dict it returns, as its list of
    items.  [cursor.fetchall()] raises [sqlite3.OperationalError] on a cell that is
    not UTF-8 text.  When the context manager swallows an exception, [rows]
    is unbound after the [with] statement and the [UnboundLocalError] ends
    in the outer handler. *)
Definition load_block (w : World)
  : World * Result (option (list (string * string))) :=
  match app_table w with
  | None => (w, Ok None)                (* return {} from inside the block *)
  | Some t =>
    let rows := map_to_list t in
    match undecodable_cell rows with
    | Some (column, text) =>
      (w, Raise (OperationalError (could_not_decode L column text)))
    | None => (w, Ok (Some rows))
    end
  end.

Definition load_app_data (self : Manager) (w : World)
  : World * list (string * Value) :=
  match with_connection load_block w with
  | (w', Completed None) => (w', [])
  | (w', Completed (Some rows)) => (w', load_rows self rows)
  | (w', Raised _) => (w', [])
  | (w', Swallowed) => (w', [])
  end.

(** [key in d] and [d[key]] on a dict given by its items. *)
Fixpoint dict_get (key : string) (items : list (string * Value))
  : option Value :=
  match items with
  | [] => None
  | (k, v) :: items' =>
    if String.eqb k key then Some v else dict_get key items'
  end.

(** The manifest built by [backup_database]. *)
Definition backup_data (now_iso : string) (app_data : list (string * Value))
           (stats : Value) : list (string * Value) :=
  [ ("timestamp", VStr now_iso);
    ("version", VStr "1.0");
    ("app_data", VDict app_data);
    ("security_metadata", stats) ].

(** The text written to the backup file. *)
Definition backup_content (self : Manager) (r : Rnd)
           (manifest : list (string * Value)) : str :=
  let backup_content :=
    if SecurityConfig.BACKUP_COMPRESSION then
      let compressed_data :=
        CompressionManager.compress_dict L (compression_type self) r
          manifest (compression_level self) in
      b64encode L compressed_data
    else json_dumps L (VDict manifest) in
  if SecurityConfig.BACKUP_ENCRYPTION then
    EncryptionManager.encrypt_string L r backup_content
  else backup_content.

(** [backup_database].  [stamp] is [datetime.now().strftime("%Y%m%d_%H%M%S")],
    [now_iso] is [datetime.now().isoformat()], [stats] is the dict returned
    by [get_storage_stats()], which is not modelled; [backup_path] is [""]
    or [None] when no destination is given. *)
Definition backup_database (self : Manager) (r : Rnd)
           (stamp now_iso : string) (stats : Value)
           (backup_path : option string) (w : World) : World * string :=
  let backup_path :=
    match backup_path with
    | Some p => if is_empty p then "backups/backup_" +:+ stamp +:+ ".bms" else p
    | None => "backups/backup_" +:+ stamp +:+ ".bms"
    end in
  let '(w, app_data) := load_app_data self w in
  let manifest := backup_data now_iso app_data stats in
  (write_file backup_path (backup_content self r manifest) w, backup_path).
End Manager.

Section Restore.
Context (L : Lib).
Context (connect_outcome : nat -> ConnOutcome).

(** The outcome of the steps of [restore_database] that come before the
    call of [save_app_data]; each [R_*] failure is an exception caught by
    the handler that prints and returns [False]. *)
Inductive RestoreStep : Type :=
| R_file_not_found
| R_decrypt_failed
| R_decompress_failed
| R_parse_failed
| R_no_app_data
| R_validated (app_data : Value).

(** [backup_content] after [if SecurityConfig.BACKUP_ENCRYPTION: ...]. *)
Definition restore_decrypt (backup_content : str) : option str :=
  if SecurityConfig.BACKUP_ENCRYPTION then
    EncryptionManager.decrypt_string L backup_content
  else Some backup_content.

(** The text handed to [json.loads]. *)
Definition restore_decompress (self : Manager) (backup_content : str)
  : option str :=
  if SecurityConfig.BACKUP_COMPRESSION then
    compressed_bytes ← b64decode L (encode_utf8 backup_content);
    CompressionManager.decompress_string L (compression_type self)
      compressed_bytes
  else Some backup_content.

(** ['app_data' not in backup_data] followed by [backup_data['app_data']]:
    on a dict the key is looked up; on every other value one of the two
    raises [TypeError] (or the test is true), and restore fails. *)
Definition restore_validate (backup_data : Value) : RestoreStep :=
  match backup_data with
  | VDict items =>
    match dict_get "app_data" items with
    | Some app_data => R_validated app_data
    | None => R_no_app_data
    end
  | _ => R_no_app_data
  end.

Definition restore_steps (self : Manager) (backup_path : string) (w : World)
  : RestoreStep :=
  match files w !! backup_path with
  | None => R_file_not_found
  | Some backup_content =>
    match restore_decrypt backup_content with
    | None => R_decrypt_failed
    | Some backup_content =>
      match restore_decompress self backup_content with
      | None => R_decompress_failed
      | Some json_content =>
        match json_loads L json_content with
        | None => R_parse_failed
        | Some backup_data => restore_validate backup_data
        end
      end
    end
  end.

(** [restore_database] *)
Definition restore_database (self : Manager) (rs : string -> Rnd)
           (backup_path : string) (w : World) : World * bool :=
  match restore_steps self backup_path w with
  | R_validated app_data =>
    save_app_data L connect_outcome self rs app_data w
  | _ => (w, false)
  end.

(** The three assignments of [update_security_settings]. *)
Definition apply_settings (self : Manager)
           (encryption compression checksums : option bool) : Manager :=
  {| enable_encryption :=
       match encryption with Some b => b | None => enable_encryption self end;
     enable_compression :=
       match compression with Some b => b | None => enable_compression self end;
     compression_level := compression_level self;
     enable_checksums :=
       match checksums with Some b => b | None => enable_checksums self end;
     compression_type := compression_type self |}.

(** [update_security_settings]: the manager afterwards, the world, and the
    returned status. *)
Definition update_security_settings (self : Manager) (rs : string -> Rnd)
           (encryption compression checksums : option bool) (w : World)
  : Manager * World * bool :=
  (* Load current data with old settings *)
  let '(w, current_data) := load_app_data L connect_outcome self w in
  (* Update settings *)
  let self := apply_settings self encryption compression checksums in
  (* If we have data, re-save it with new security settings *)
  match current_data with
  | [] => (self, w, true)
  | _ =>
    let '(w, success) :=
      save_app_data L connect_outcome self rs (VDict current_data) w in
    (self, w, success)
  end.

(** The dict returned by [get_current_security_config]. *)
Record SecurityConfigView : Type := mkView {
  encryption_enabled : bool;
  compression_enabled : bool;
  checksums_enabled : bool;
  view_compression_type : string
}.

Definition get_current_security_config (self : Manager) : SecurityConfigView :=
  {| encryption_enabled := enable_encryption self;
     compression_enabled := enable_compression self;
     checksums_enabled := enable_checksums self;
     view_compression_type := CompressionType_value (compression_type self) |}.
End Restore.

(** ** A reference instance of the libraries

    base64 and UTF-8 validation follow the real codecs; JSON covers the
    fragment of [Value] (no floats, string escapes only for the quote and the
    backslash); SHA-256 is the real function; the cipher and the compressors
    are stand-ins that keep the interface (a token or a stream with a
    recognisable header that the inverse checks). *)
Module Ref.

Definition byte_of (n : N) : ascii := ascii_of_N (n mod 256).

(** *** base64 *)
Definition b64_char (urlsafe : bool) (n : N) : ascii :=
  if (n <? 26)%N then byte_of (65 + n)
  else if (n <? 52)%N then byte_of (97 + (n - 26))
  else if (n <? 62)%N then byte_of (48 + (n - 52))
  else if (n =? 62)%N then (if urlsafe then "-" else "+")%char
  else (if urlsafe then "_" else "/")%char.

Definition b64_index (c : ascii) : option N :=
  let n := N_of_ascii c in
  if ((65 <=? n) && (n <=? 90))%N then Some (n - 65)%N
  else if ((97 <=? n) && (n <=? 122))%N then Some (n - 97 + 26)%N
  else if ((48 <=? n) && (n <=? 57))%N then Some (n - 48 + 52)%N
  else if (n =? 43)%N then Some 62%N
  else if (n =? 47)%N then Some 63%N
  else None.

Fixpoint b64_enc (urlsafe : bool) (s : string) : string :=
  match s with
  | EmptyString => ""
  | String a EmptyString =>
    let x := N_of_ascii a in
    String (b64_char urlsafe (N.shiftr x 2))
      (String (b64_char urlsafe (N.shiftl (N.land x 3) 4)) "==")
  | String a (String b EmptyString) =>
    let x := N_of_ascii a in
    let y := N_of_ascii b in
    String (b64_char urlsafe (N.shiftr x 2))
      (String (b64_char urlsafe (N.lor (N.shiftl (N.land x 3) 4) (N.shiftr y 4)))
         (String (b64_char urlsafe (N.shiftl (N.land y 15) 2)) "="))
  | String a (String b (String c rest)) =>
    let x := N_of_ascii a in
    let y := N_of_ascii b in
    let z := N_of_ascii c in
    String (b64_char urlsafe (N.shiftr x 2))
      (String (b64_char urlsafe (N.lor (N.shiftl (N.land x 3) 4) (N.shiftr y 4)))
         (String (b64_char urlsafe (N.lor (N.shiftl (N.land y 15) 2) (N.shiftr z 6)))
            (String (b64_char urlsafe (N.land z 63)) (b64_enc urlsafe rest))))
  end.

(** The bytes determined by the sextets of one (possibly partial) quad. *)
Definition quad_bytes (quad : list N) : string :=
  match quad with
  | [a; b] => String (byte_of (N.lor (N.shiftl a 2) (N.shiftr b 4))) ""
  | [a; b; c] =>
    String (byte_of (N.lor (N.shiftl a 2) (N.shiftr b 4)))
      (String (byte_of (N.lor (N.shiftl (N.land b 15) 4) (N.shiftr c 2))) "")
  | [a; b; c; d] =>
    String (byte_of (N.lor (N.shiftl a 2) (N.shiftr b 4)))
      (String (byte_of (N.lor (N.shiftl (N.land b 15) 4) (N.shiftr c 2)))
         (String (byte_of (N.lor (N.shiftl (N.land c 3) 6) d)) ""))
  | _ => ""
  end.

(** [binascii.a2b_base64] in its default, lenient mode: characters outside
    the alphabet are skipped, padding ends the data once the open quad is
    complete, and data that stops inside a quad is an error. *)
Fixpoint a2b_base64 (s : string) (quad : list N) (pads : nat) : option string :=
  match s with
  | EmptyString => match quad with [] => Some "" | _ => None end
  | String c rest =>
    if Ascii.eqb c "=" then
      if (2 <=? length quad)%nat && (4 - length quad <=? S pads)%nat
      then Some (quad_bytes quad)
      else a2b_base64 rest quad (S pads)
    else
      match b64_index c with
      | None => a2b_base64 rest quad pads
      | Some v =>
        let quad := (quad ++ [v])%list in
        if (length quad =? 4)%nat
        then option_map (fun t => quad_bytes quad +:+ t) (a2b_base64 rest [] 0%nat)
        else a2b_base64 rest quad 0%nat
      end
  end.

Definition b64encode (s : string) : string := b64_enc false s.
Definition b64decode (s : string) : option string := a2b_base64 s [] 0%nat.

Definition urlsafe_b64encode (s : string) : string := b64_enc true s.

(** [s.translate(_urlsafe_decode_translation)] *)
Fixpoint urlsafe_translate (s : string) : string :=
  match s with
  | EmptyString => ""
  | String c rest =>
    String (if Ascii.eqb c "-" then "+" else if Ascii.eqb c "_" then "/" else c)%char
           (urlsafe_translate rest)
  end.

Definition urlsafe_b64decode (s : string) : option string :=
  b64decode (urlsafe_translate s).

(** *** UTF-8 well-formedness (Unicode table 3-7) *)
Definition in_range (lo hi : N) (c : ascii) : bool :=
  let n := N_of_ascii c in ((lo <=? n) && (n <=? hi))%N.

Fixpoint utf8_valid (s : string) : bool :=
  match s with
  | EmptyString => true
  | String a rest =>
    if in_range 0 127 a then utf8_valid rest
    else if in_range 194 223 a then
      match rest with
      | String b rest' => in_range 128 191 b && utf8_valid rest'
      | _ => false
      end
    else if in_range 224 239 a then
      match rest with
      | String b (String c rest') =>
        (if in_range 224 224 a then in_range 160 191 b
         else if in_range 237 237 a then in_range 128 159 b
         else in_range 128 191 b)
        && in_range 128 191 c && utf8_valid rest'
      | _ => false
      end
    else if in_range 240 244 a then
      match rest with
      | String b (String c (String d rest')) =>
        (if in_range 240 240 a then in_range 144 191 b
         else if in_range 244 244 a then in_range 128 143 b
         else in_range 128 191 b)
        && in_range 128 191 c && in_range 128 191 d && utf8_valid rest'
      | _ => false
      end
    else false
  end.

(** *** JSON, on the fragment of [Value] *)
Definition dquote : ascii := "034"%char.
Definition backslash : ascii := "092"%char.

Fixpoint escape (s : string) : string :=
  match s with
  | EmptyString => ""
  | String c rest =>
    if Ascii.eqb c dquote then String backslash (String dquote (escape rest))
    else if Ascii.eqb c backslash then
      String backslash (String backslash (escape rest))
    else String c (escape rest)
  end.

Definition quote (s : string) : string :=
  String dquote (escape s +:+ String dquote "").

Fixpoint join (sep : string) (l : list string) : string :=
  match l with
  | [] => ""
  | [x] => x
  | x :: l' => x +:+ sep +:+ join sep l'
  end.

Fixpoint digits_of (fuel : nat) (n : N) (acc : string) : string :=
  match fuel with
  | O => acc
  | S fuel' =>
    let acc := String (byte_of (48 + n mod 10)) acc in
    if (n <? 10)%N then acc else digits_of fuel' (n / 10) acc
  end.

Definition decimal (z : Z) : string :=
  let n := Z.abs_N z in
  let d := digits_of (S (N.to_nat (N.log2 n))) n "" in
  if (z <? 0)%Z then String "-" d else d.

(** [json.dumps(v, ensure_ascii=False)] with the default separators. *)
Fixpoint json_dumps (v : Value) : string :=
  match v with
  | VNone => "null"
  | VBool true => "true"
  | VBool false => "false"
  | VInt z => decimal z
  | VStr s => quote s
  | VList l => "[" +:+ join ", " (map json_dumps l) +:+ "]"
  | VDict items =>
    "{" +:+ join ", " (map (fun kv => let '(k, x) := kv in
                                      quote k +:+ ": " +:+ json_dumps x) items)
        +:+ "}"
  | VEnum name _ => name      (* json.dumps raises here: see [dumps_raises] *)
  end.

Definition is_ws (c : ascii) : bool :=
  let n := N_of_ascii c in
  ((n =? 32) || (n =? 9) || (n =? 10) || (n =? 13))%N.

Definition is_digit (c : ascii) : bool := in_range 48 57 c.

Fixpoint skip_ws (s : string) : string :=
  match s with
  | String c rest => if is_ws c then skip_ws rest else s
  | EmptyString => s
  end.

Fixpoint drop (n : nat) (s : string) : string :=
  match n, s with
  | S n', String _ rest => drop n' rest
  | _, _ => s
  end.

(** The body of a string literal, after its opening quote. *)
Fixpoint parse_string (s : string) : option (string * string) :=
  match s with
  | EmptyString => None
  | String c rest =>
    if Ascii.eqb c dquote then Some ("", rest)
    else if Ascii.eqb c backslash then
      match rest with
      | String e rest' =>
        if Ascii.eqb e dquote || Ascii.eqb e backslash then
          option_map (fun tr => (String e (fst tr), snd tr)) (parse_string rest')
        else None
      | EmptyString => None
      end
    else if (N_of_ascii c <? 32)%N then None
    else option_map (fun tr => (String c (fst tr), snd tr)) (parse_string rest)
  end.

Fixpoint parse_digits (s : string) (acc : N) : N * string :=
  match s with
  | String c rest =>
    if is_digit c then parse_digits rest (10 * acc + (N_of_ascii c - 48))%N
    else (acc, s)
  | EmptyString => (acc, s)
  end.

(** Integers only: a fraction or an exponent is outside the fragment. *)
Definition parse_number (s : string) : option (Value * string) :=
  let '(neg, s1) :=
    match s with
    | String c rest => if Ascii.eqb c "-" then (true, rest) else (false, s)
    | EmptyString => (false, s)
    end in
  match s1 with
  | String c rest =>
    if is_digit c then
      let '(n, r) := if Ascii.eqb c "0" then (0%N, rest) else parse_digits s1 0 in
      let v := VInt (if neg then - Z.of_N n else Z.of_N n) in
      match r with
      | String d _ =>
        if Ascii.eqb d "." || Ascii.eqb d "e" || Ascii.eqb d "E" then None
        else Some (v, r)
      | EmptyString => Some (v, r)
      end
    else None
  | EmptyString => None
  end.

Fixpoint parse_value (fuel : nat) (s : string) : option (Value * string) :=
  match fuel with
  | O => None
  | S f =>
    let s := skip_ws s in
    match s with
    | EmptyString => None
    | String c rest =>
      if Ascii.eqb c dquote then
        option_map (fun tr => (VStr (fst tr), snd tr)) (parse_string rest)
      else if Ascii.eqb c "[" then
        match skip_ws rest with
        | String c' rest' =>
          if Ascii.eqb c' "]" then Some (VList [], rest')
          else option_map (fun lr => (VList (fst lr), snd lr)) (parse_elems f rest)
        | EmptyString => None
        end
      else if Ascii.eqb c "{" then
        match skip_ws rest with
        | String c' rest' =>
          if Ascii.eqb c' "}" then Some (VDict [], rest')
          else option_map (fun lr => (VDict (fst lr), snd lr)) (parse_members f rest)
        | EmptyString => None
        end
      else if is_prefix "null" s then Some (VNone, drop 4 s)
      else if is_prefix "true" s then Some (VBool true, drop 4 s)
      else if is_prefix "false" s then Some (VBool false, drop 5 s)
      else parse_number s
    end
  end
with parse_elems (fuel : nat) (s : string) : option (list Value * string) :=
  match fuel with
  | O => None
  | S f =>
    match parse_value f s with
    | None => None
    | Some (v, r) =>
      match skip_ws r with
      | String c r' =>
        if Ascii.eqb c "," then
          option_map (fun lr => (v :: fst lr, snd lr)) (parse_elems f r')
        else if Ascii.eqb c "]" then Some ([v], r')
        else None
      | EmptyString => None
      end
    end
  end
with parse_members (fuel : nat) (s : string)
  : option (list (string * Value) * string) :=
  match fuel with
  | O => None
  | S f =>
    match skip_ws s with
    | String q r0 =>
      if Ascii.eqb q dquote then
        match parse_string r0 with
        | None => None
        | Some (k, r1) =>
          match skip_ws r1 with
          | String c r2 =>
            if Ascii.eqb c ":" then
              match parse_value f r2 with
              | None => None
              | Some (v, r3) =>
                match skip_ws r3 with
                | String c' r4 =>
                  if Ascii.eqb c' "," then
                    option_map (fun lr => ((k, v) :: fst lr, snd lr))
                               (parse_members f r4)
                  else if Ascii.eqb c' "}" then Some ([(k, v)], r4)
                  else None
                | EmptyString => None
                end
              end
            else None
          | EmptyString => None
          end
        end
      else None
    | EmptyString => None
    end
  end.

(** One value, then nothing but white space. *)
Definition json_parse (s : string) : option Value :=
  match parse_value (2 * String.length s + 2) s with
  | Some (v, r) => if is_empty (skip_ws r) then Some v else None
  | None => None
  end.

(** The number of arrays that the text opens before anything else. *)
Fixpoint leading_opens (s : string) : nat :=
  match s with
  | String c rest =>
    if Ascii.eqb c "[" then S (leading_opens rest)
    else if is_ws c then leading_opens rest
    else O
  | EmptyString => O
  end.

(** The depth at which the parser runs out of stack. *)
Definition recursion_limit : nat := 1000.

Definition too_deep (s : string) : bool :=
  (recursion_limit <=? leading_opens s)%nat.

(** The digit limit of the conversion between [int] and [str]. *)
Definition int_max_str_digits : nat := 4300.

Definition int_str_raises (n : Z) : bool :=
  (int_max_str_digits <? String.length (decimal (Z.abs n)))%nat.

Fixpoint holds_long_int (v : Value) : bool :=
  match v with
  | VInt n => int_str_raises n
  | VList l => existsb holds_long_int l
  | VDict items => existsb (fun kv => holds_long_int (snd kv)) items
  | _ => false
  end.

(** [json.loads]: [RecursionError] on a text that opens more arrays than
    the stack allows, [ValueError] on an integer literal over the digit
    limit, [json.JSONDecodeError] on a text that is not JSON. *)
Definition json_loads (s : string) : option Value :=
  if too_deep s then None
  else match json_parse s with
       | Some v => if holds_long_int v then None else Some v
       | None => None
       end.

Definition json_decode_error (s : string) : bool :=
  negb (too_deep s)
  && match json_parse s with
     | Some _ => false
     | None => true
     end.

(** [str(v)]; for lists and dicts Python prints the [repr] of the items,
    given here for strings without quotes. *)
Fixpoint py_repr (v : Value) : string :=
  match v with
  | VNone => "None"
  | VBool true => "True"
  | VBool false => "False"
  | VInt z => decimal z
  | VStr s => "'" +:+ s +:+ "'"
  | VList l => "[" +:+ join ", " (map py_repr l) +:+ "]"
  | VDict items =>
    "{" +:+ join ", " (map (fun kv => let '(k, x) := kv in
                                      "'" +:+ k +:+ "': " +:+ py_repr x) items)
        +:+ "}"
  | VEnum name x => "<" +:+ name +:+ ": " +:+ py_repr x +:+ ">"
  end.

Definition py_str (v : Value) : string :=
  match v with
  | VStr s => s
  | VEnum name _ => name
  | _ => py_repr v
  end.

(** *** Stand-ins for the cipher and the compressors *)
Fixpoint xor_mask (s : string) : string :=
  match s with
  | EmptyString => ""
  | String c rest => String (byte_of (N.lxor (N_of_ascii c) 90)) (xor_mask rest)
  end.

(** A token: version byte 0x80, one byte of the nonce, the masked data. *)
Definition fernet_encrypt (nonce : N) (data : string) : string :=
  String (byte_of 128) (String (byte_of nonce) (xor_mask data)).

Definition fernet_decrypt (token : string) : option string :=
  match token with
  | String v (String _ body) =>
    if (N_of_ascii v =? 128)%N then Some (xor_mask body) else None
  | _ => None
  end.

Definition level_char (level : Z) : ascii := byte_of (48 + Z.to_N level).

(** Stored streams behind the magic numbers of the four formats. *)
Definition gzip_compress (mtime : N) (data : string) (level : Z) : string :=
  String (byte_of 31) (String (byte_of 139)
    (String (byte_of mtime) (String (level_char level) data))).

Definition gzip_decompress (s : string) : option string :=
  match s with
  | String a (String b (String _ (String _ data))) =>
    if ((N_of_ascii a =? 31) && (N_of_ascii b =? 139))%N then Some data else None
  | _ => None
  end.

Definition bz2_compress (data : string) (level : Z) : string :=
  "BZh" +:+ String (level_char level) data.

Definition bz2_decompress (s : string) : option string :=
  if is_prefix "BZh" s then
    match drop 3 s with
    | String _ data => Some data
    | EmptyString => None
    end
  else None.

Definition lzma_compress (data : string) (level : Z) : string :=
  String (byte_of 253) ("7zXZ" +:+ String (level_char level) data).

Definition lzma_decompress (s : string) : option string :=
  match s with
  | String a rest =>
    if (N_of_ascii a =? 253)%N && is_prefix "7zXZ" rest then
      match drop 4 rest with
      | String _ data => Some data
      | EmptyString => None
      end
    else None
  | EmptyString => None
  end.

Definition zlib_compress (data : string) (level : Z) : string :=
  String (byte_of 120) (String (level_char level) data).

Definition zlib_decompress (s : string) : option string :=
  match s with
  | String a (String _ data) =>
    if (N_of_ascii a =? 120)%N then Some data else None
  | _ => None
  end.

(** *** SHA-256 (FIPS 180-4), on 32-bit words held in [N] *)
Definition w32 (x : N) : N := N.land x 4294967295.

Definition rotr (n x : N) : N :=
  w32 (N.lor (N.shiftr x n) (N.shiftl x (32 - n))).

Definition sha_ch (x y z : N) : N :=
  N.lxor (N.land x y) (N.land (N.lxor x 4294967295) z).

Definition sha_maj (x y z : N) : N :=
  N.lxor (N.lxor (N.land x y) (N.land x z)) (N.land y z).

Definition big_sigma0 (x : N) : N :=
  N.lxor (N.lxor (rotr 2 x) (rotr 13 x)) (rotr 22 x).

Definition big_sigma1 (x : N) : N :=
  N.lxor (N.lxor (rotr 6 x) (rotr 11 x)) (rotr 25 x).

Definition small_sigma0 (x : N) : N :=
  N.lxor (N.lxor (rotr 7 x) (rotr 18 x)) (N.shiftr x 3).

Definition small_sigma1 (x : N) : N :=
  N.lxor (N.lxor (rotr 17 x) (rotr 19 x)) (N.shiftr x 10).

Definition sha_k : list N :=
  [
    1116352408; 1899447441; 3049323471; 3921009573; 961987163; 1508970993;
    2453635748; 2870763221; 3624381080; 310598401; 607225278; 1426881987;
    1925078388; 2162078206; 2614888103; 3248222580; 3835390401; 4022224774;
    264347078; 604807628; 770255983; 1249150122; 1555081692; 1996064986;
    2554220882; 2821834349; 2952996808; 3210313671; 3336571891; 3584528711;
    113926993; 338241895; 666307205; 773529912; 1294757372; 1396182291;
    1695183700; 1986661051; 2177026350; 2456956037; 2730485921; 2820302411;
    3259730800; 3345764771; 3516065817; 3600352804; 4094571909; 275423344;
    430227734; 506948616; 659060556; 883997877; 958139571; 1322822218;
    1537002063; 1747873779; 1955562222; 2024104815; 2227730452; 2361852424;
    2428436474; 2756734187; 3204031479; 3329325298
  ]%N.

Definition sha_h0 : list N :=
  [
    1779033703; 3144134277; 1013904242; 2773480762;
    1359893119; 2600822924; 528734635; 1541459225
  ]%N.

(** The message followed by 0x80, zeros and its bit length on 8 bytes. *)
Definition sha_pad (msg : string) : list N :=
  let bytes := map N_of_ascii (list_ascii_of_string msg) in
  let len := N.of_nat (length bytes) in
  let zeros := N.to_nat ((119 - len mod 64) mod 64)%N in
  let bits := (8 * len)%N in
  (bytes ++ [128%N] ++ repeat 0%N zeros
     ++ map (fun i => (N.shiftr bits (8 * i) mod 256)%N)
            [7; 6; 5; 4; 3; 2; 1; 0]%N)%list.

(** Big-endian words of a byte list. *)
Fixpoint sha_words (bytes : list N) : list N :=
  match bytes with
  | a :: b :: c :: d :: rest =>
    (N.shiftl a 24 + N.shiftl b 16 + N.shiftl c 8 + d)%N :: sha_words rest
  | _ => []
  end.

(** The message schedule, most recent word first. *)
Fixpoint sha_schedule (n : nat) (w : list N) : list N :=
  match n with
  | O => w
  | S n' =>
    let x :=
      w32 (small_sigma1 (nth 1 w 0) + nth 6 w 0
           + small_sigma0 (nth 14 w 0) + nth 15 w 0)%N in
    sha_schedule n' (x :: w)
  end.

Fixpoint sha_rounds (kw : list (N * N)) (st : list N) : list N :=
  match kw, st with
  | (k, w) :: kw', [a; b; c; d; e; f; g; h] =>
    let t1 := (h + big_sigma1 e + sha_ch e f g + k + w)%N in
    let t2 := (big_sigma0 a + sha_maj a b c)%N in
    sha_rounds kw' [w32 (t1 + t2); a; b; c; w32 (d + t1); e; f; g]
  | _, _ => st
  end.

Definition sha_block (st : list N) (block : list N) : list N :=
  let w := rev (sha_schedule 48 (rev block)) in
  let st' := sha_rounds (combine sha_k w) st in
  map (fun p => w32 (fst p + snd p)) (combine st st').

Fixpoint sha_blocks (fuel : nat) (st : list N) (words : list N) : list N :=
  match fuel, words with
  | S fuel', _ :: _ =>
    sha_blocks fuel' (sha_block st (firstn 16 words)) (skipn 16 words)
  | _, _ => st
  end.

Definition hex_digit (n : N) : ascii :=
  if (n <? 10)%N then byte_of (48 + n) else byte_of (87 + n).

Definition hex_word (x : N) : string :=
  string_of_list_ascii
    (map (fun i => hex_digit (N.shiftr x (4 * i) mod 16)%N)
         [7; 6; 5; 4; 3; 2; 1; 0]%N).

(** [hashlib.sha256(data).hexdigest()] *)
Definition sha256_hexdigest (msg : string) : string :=
  let words := sha_words (sha_pad msg) in
  let st := sha_blocks (S (length words)) sha_h0 words in
  String.concat "" (map hex_word st).

(** The message of sqlite3 for a cell that is not UTF-8 text. *)
Definition could_not_decode (column text : string) : string :=
  "Could not decode to UTF-8 column '" +:+ column +:+ "' with text '"
    +:+ text +:+ "'".

Definition lib : Lib :=
  mkLib json_dumps json_loads json_decode_error py_str int_str_raises
        utf8_valid
        b64encode b64decode urlsafe_b64encode urlsafe_b64decode
        fernet_encrypt fernet_decrypt
        gzip_compress gzip_decompress bz2_compress bz2_decompress
        lzma_compress lzma_decompress zlib_compress zlib_decompress
        sha256_hexdigest could_not_decode.

(** A manager with given toggles and compression type, level 6. *)
Definition manager (enc comp : bool) (t : CompressionType) : Manager :=
  {| enable_encryption := enc; enable_compression := comp;
     compression_level := 6; enable_checksums := true;
     compression_type := t |}.

Definition rnd0 : Rnd := {| mtime := 0; nonce := 0 |}.

End Ref.

(** ** The decoding search as the specification words it

    A candidate is accepted when every step succeeds, the parse included;
    when no candidate is accepted the stored text itself is parsed, and when
    that fails too the record cannot be decoded ([None]). *)
Section SpecDecode.
Context (L : Lib).

Definition spec_try_candidate (self : Manager) (secured_data : str)
           (a : bool * bool) : option Value :=
  json_data ← decode_steps L self (fst a) (snd a) secured_data;
  json_loads L json_data.

Fixpoint spec_first_accepted (self : Manager) (secured_data : str)
         (l : list (bool * bool)) : option Value :=
  match l with
  | [] => None
  | a :: l' =>
    match spec_try_candidate self secured_data a with
    | Some v => Some v
    | None => spec_first_accepted self secured_data l'
    end
  end.

Definition spec_decode (self : Manager) (secured_data : str) : option Value :=
  match spec_first_accepted self secured_data (attempts self) with
  | Some v => Some v
  | None => json_loads L secured_data
  end.

End SpecDecode.

(** ** Reading the trace of the connection manager *)
Fixpoint attempts_in (tr : list Event) : nat :=
  match tr with
  | [] => 0
  | EConnect _ :: tr' => S (attempts_in tr')
  | _ :: tr' => attempts_in tr'
  end.

Fixpoint sleeps_in (tr : list Event) : list Q :=
  match tr with
  | [] => []
  | ESleep d :: tr' => d :: sleeps_in tr'
  | _ :: tr' => sleeps_in tr'
  end.

(** The connection and sleep events of a trace, in order. *)
Fixpoint schedule_in (tr : list Event) : list Event :=
  match tr with
  | [] => []
  | EConnect n :: tr' => EConnect n :: schedule_in tr'
  | ESleep d :: tr' => ESleep d :: schedule_in tr'
  | _ :: tr' => schedule_in tr'
  end.

(** The exception is a lock-contention error. *)
Definition is_locked_error (e : exn) : bool :=
  match e with
  | OperationalError msg => is_substring "database is locked" msg
  | _ => false
  end.

(** The attempt meets a store that reports lock contention. *)
Definition raises_locked (o : ConnOutcome) : bool :=
  match o with
  | ConnRaises e _ => is_locked_error e
  | ConnOk => false
  end.

(** The schedule of [fuel] attempts that all meet a locked store, the first
    of them numbered [attempt]: a sleep of [delay * 2 ** attempt] follows
    every attempt but the last. *)
Fixpoint locked_schedule (delay : Q) (fuel attempt : nat) : list Event :=
  match fuel with
  | O => []
  | S fuel' =>
    match fuel' with
    | O => [EConnect attempt]
    | S _ =>
      EConnect attempt :: ESleep (delay * inject_Z (2 ^ Z.of_nat attempt))
               :: locked_schedule delay fuel' (S attempt)
    end
  end.

(** The ways in which [restore_database] can fail before it writes: the
    file is missing, its text does not decrypt, the decrypted text does not
    decode and decompress, the result is not JSON, or the manifest has no
    entry ["app_data"]. *)
Inductive restore_failure (L : Lib) (self : Manager) (backup_path : string)
          (w : World) : Prop :=
| missing_file :
    files w !! backup_path = None ->
    restore_failure L self backup_path w
| undecryptable (content : str) :
    files w !! backup_path = Some content ->
    restore_decrypt L content = None ->
    restore_failure L self backup_path w
| undecompressable (content text : str) :
    files w !! backup_path = Some content ->
    restore_decrypt L content = Some text ->
    restore_decompress L self text = None ->
    restore_failure L self backup_path w
| unparseable (content text json_content : str) :
    files w !! backup_path = Some content ->
    restore_decrypt L content = Some text ->
    restore_decompress L self text = Some json_content ->
    json_loads L json_content = None ->
    restore_failure L self backup_path w
| missing_app_data (content text json_content : str) (manifest : Value) :
    files w !! backup_path = Some content ->
    restore_decrypt L content = Some text ->
    restore_decompress L self text = Some json_content ->
    json_loads L json_content = Some manifest ->
    (forall items, manifest = VDict items -> dict_get "app_data" items = None) ->
    restore_failure L self backup_path w.

(** The text that [_secure_data] compresses and encrypts: [json_data]. *)
Definition json_text (L : Lib) (data : Value) : str :=
  if is_dict_or_list data then json_dumps L data else py_str L data.

(** The values whose text is read back as the value itself: a dict or a list
    that [json.loads] reads back from what [json.dumps] printed, and a string
    that [str] leaves as it is and on which [json.loads] raises
    [json.JSONDecodeError]. *)
Inductive reads_back (L : Lib) : Value -> Prop :=
| reads_back_structured (v : Value) :
    is_dict_or_list v = true ->
    json_loads L (json_dumps L v) = Some v ->
    reads_back L v
| reads_back_plain_text (s : string) :
    py_str L (VStr s) = s ->
    json_loads L s = None ->
    json_decode_error L s = true ->
    reads_back L (VStr s).

(** The library compressor that a compression type names, and its inverse;
    [none] names no library. *)
Definition library_compress (L : Lib) (t : CompressionType) (r : Rnd)
           (data : bytes) (level : Z) : bytes :=
  match t with
  | GZIP => gzip_compress L (mtime r) data level
  | BZIP2 => bz2_compress L data level
  | LZMA => lzma_compress L data level
  | ZLIB => zlib_compress L data level
  | NONE => data
  end.

Definition library_decompress (L : Lib) (t : CompressionType)
           (stream : bytes) : option bytes :=
  match t with
  | GZIP => gzip_decompress L stream
  | BZIP2 => bz2_decompress L stream
  | LZMA => lzma_decompress L stream
  | ZLIB => zlib_decompress L stream
  | NONE => Some stream
  end.

(** The library that [t] names compresses [data] at [level] to a non-empty
    stream, which its inverse maps back to [data]. *)
Definition library_inverts (L : Lib) (t : CompressionType) (r : Rnd)
           (data : bytes) (level : Z) : Prop :=
  is_empty (library_compress L t r data level) = false
  /\ library_decompress L t (library_compress L t r data level) = Some data.

(** What one run of the codec on the text [text] needs from the libraries,
    for the buffers that occur in that run: the text is non-empty UTF-8;
    when compression is on, the library that the compression type names
    returns, at the level clamped into [1,9], a non-empty stream that its
    inverse maps back, and base64 maps that stream to a non-empty text and
    back; when encryption is on, the token is mapped by URL-safe base64 to a
    non-empty text and back, and decrypts to what was encrypted. *)
Record codec_faithful (L : Lib) (self : Manager) (r : Rnd) (text : str)
  : Prop := mkFaithful {
  text_nonempty : is_empty text = false;
  text_utf8 : utf8_valid L text = true;
  compression_faithful :
    enable_compression self = true ->
    let c := library_compress L (compression_type self) r text
               (Z.max 1 (Z.min 9 (compression_level self))) in
    library_inverts L (compression_type self) r text
                    (Z.max 1 (Z.min 9 (compression_level self)))
    /\ b64decode L (b64encode L c) = Some c
    /\ is_empty (b64encode L c) = false
    /\ utf8_valid L (b64encode L c) = true;
  encryption_faithful :
    enable_encryption self = true ->
    let p := if enable_compression self then
               b64encode L (library_compress L (compression_type self) r text
                              (Z.max 1 (Z.min 9 (compression_level self))))
             else text in
    let token := fernet_encrypt L (nonce r) p in
    is_empty (urlsafe_b64encode L token) = false
    /\ urlsafe_b64decode L (urlsafe_b64encode L token) = Some token
    /\ fernet_decrypt L token = Some p
}.

(** ** The decoding search, step by step *)

(** The payload after decrypt-if-flagged, and the text after
    decompress-if-flagged (base64 first). *)
Definition decrypt_if (L : Lib) (flag : bool) (s p : str) : Prop :=
  if flag then EncryptionManager.decrypt_string L s = Some p else p = s.

Definition decompress_if (L : Lib) (self : Manager) (flag : bool)
           (p t : str) : Prop :=
  if flag then
    exists c, b64decode L p = Some c
              /\ CompressionManager.decompress_string L (compression_type self) c
                 = Some t
  else t = p.

(** How the candidate [(try_encryption, try_compression)] ends on the
    payload [s]: it is rejected ([None]) when the decryption raises, when
    the base64 decoding or the decompression raises, or when [json.loads]
    raises something that is not a [json.JSONDecodeError]; it is accepted
    with the parsed value, or, on a [json.JSONDecodeError], with the text
    itself. *)
Inductive candidate_ends (L : Lib) (self : Manager) (s : str)
          (a : bool * bool) : option Value -> Prop :=
| decrypt_raises :
    fst a = true ->
    EncryptionManager.decrypt_string L s = None ->
    candidate_ends L self s a None
| decompress_raises (p : str) :
    decrypt_if L (fst a) s p ->
    snd a = true ->
    (forall c, b64decode L p = Some c ->
               CompressionManager.decompress_string L (compression_type self) c
               = None) ->
    candidate_ends L self s a None
| parse_raises (p t : str) :
    decrypt_if L (fst a) s p ->
    decompress_if L self (snd a) p t ->
    json_loads L t = None ->
    json_decode_error L t = false ->
    candidate_ends L self s a None
| parse_returns (p t : str) (v : Value) :
    decrypt_if L (fst a) s p ->
    decompress_if L self (snd a) p t ->
    json_loads L t = Some v ->
    candidate_ends L self s a (Some v)
| parse_keeps_text (p t : str) :
    decrypt_if L (fst a) s p ->
    decompress_if L self (snd a) p t ->
    json_loads L t = None ->
    json_decode_error L t = true ->
    candidate_ends L self s a (Some (VStr t)).

(** ** Reaching the store *)

(** Of an acquisition that starts when [n] connections have been made, the
    attempt number [k] is the one that the store lets through: it is one of
    the five attempts, and every attempt before it met a locked store. *)
Definition reaches (co : nat -> ConnOutcome) (n k : nat) : Prop :=
  (k < default_max_retries)%nat
  /\ (forall j, (j < k)%nat -> raises_locked (co (n + j)%nat) = true)
  /\ co (n + k)%nat = ConnOk.

(** Every cell of the table is UTF-8 text, so that [fetchall] reads it. *)
Definition cells_utf8 (L : Lib) (t : gmap string string) : Prop :=
  forall k s, t !! k = Some s -> utf8_valid L k = true /\ utf8_valid L s = true.

(** Milliseconds as seconds. *)
Definition ms (n : Z) : Q := Qmake n 1000.

(** ** Scenarios on the reference instance *)
Module Scenario.
(** A store that every attempt can reach. *)
Definition reachable : nat -> ConnOutcome := fun _ => ConnOk.

(** A store that is locked at every attempt. *)
Definition always_locked : nat -> ConnOutcome :=
  fun _ => ConnRaises (OperationalError "database is locked") false.

(** A store that the first attempt reaches and that fails afterwards with
    an error other than lock contention. *)
Definition fails_after_first : nat -> ConnOutcome :=
  fun n => match n with
           | O => ConnOk
           | S _ => ConnRaises (OperationalError "disk I/O error") true
           end.

(** A store whose first attempt fails with an error other than lock
    contention. *)
Definition unable_to_open : nat -> ConnOutcome :=
  fun _ => ConnRaises (OperationalError "unable to open database file") false.

Definition world (t : option (gmap string string)) : World :=
  {| app_table := t; files := ∅; connects := 0; trace := [] |}.

(** One stored section whose payload is the plain text [hello]. *)
Definition legacy_world : World := world (Some {[ "k" := "hello" ]}).

(** One stored section holding the plain JSON text [[1]]. *)
Definition plain_world : World := world (Some {[ "handovers" := "[1]" ]}).

Definition empty_world : World := world None.

(** A table with a cell that is not UTF-8 text, as another writer can
    leave it. *)
Definition damaged_world : World :=
  world (Some {[ "handovers" := "[1]";
                 "notes" := String (Ref.byte_of 255) "" ]}).

(** A store that is locked for the first two attempts and reached by the
    third. *)
Definition locked_twice : nat -> ConnOutcome :=
  fun n => match n with
           | 0%nat | 1%nat =>
             ConnRaises (OperationalError "database is locked") false
           | _ => ConnOk
           end.

(** A store that is locked once and then fails with another error. *)
Definition locked_then_io_error : nat -> ConnOutcome :=
  fun n => match n with
           | 0%nat => ConnRaises (OperationalError "database is locked") false
           | _ => ConnRaises (OperationalError "disk I/O error") true
           end.

(** Two thousand opening brackets. *)
Definition brackets : string :=
  string_of_list_ascii (repeat "["%char 2000).

(** What the application stores under ["theme_mode"]. *)
Definition theme_light : Value := VEnum "ThemeMode.LIGHT" (VStr "light").

(** The payload ["aGVsbG8="], quotes included: a JSON string literal whose
    characters, the quotes skipped, are the base64 of [hello]. *)
Definition quoted_base64 : string :=
  String Ref.dquote ("aGVsbG8=" +:+ String Ref.dquote "").

(** The same with the base64 of a gzip stream of [hello]. *)
Definition quoted_base64_gzip : string :=
  String Ref.dquote
         (Ref.b64encode (Ref.gzip_compress 0 "hello" 6)
            +:+ String Ref.dquote "").

Definition requirements : Value :=
  VDict [("requirements",
          VList [VDict [("id", VInt 1); ("title", VStr "X")]])].

Definition no_rnd : string -> Rnd := fun _ => Ref.rnd0.

(** All strings that differ from [pre ++ s] in exactly one byte of [s]. *)
Fixpoint single_byte_changes (pre s : string) : list string :=
  match s with
  | EmptyString => []
  | String c rest =>
    (map (fun n => pre +:+ String (Ref.byte_of (N.of_nat n)) rest)
         (filter (fun n => negb (N.of_nat n =? N_of_ascii c)%N) (seq 0 256))
       ++ single_byte_changes (pre +:+ String c "") rest)%list
  end.

Definition all_types : list CompressionType := [GZIP; BZIP2; LZMA; ZLIB; NONE].

(** Every configuration: encryption, compression, compression type. *)
Definition all_configurations : list Manager :=
  t ← all_types;
  enc ← [true; false];
  comp ← [true; false];
  [Ref.manager enc comp t].
End Scenario.

(** * More of the code *)

(** ** Python string slicing *)

(** [s[:n]] and [s[n:]] for [0 <= n]. *)
Fixpoint str_take (n : nat) (s : string) : string :=
  match n, s with
  | S n', String c rest => String c (str_take n' rest)
  | _, _ => ""
  end.

Fixpoint str_drop (n : nat) (s : string) : string :=
  match n, s with
  | S n', String _ rest => str_drop n' rest
  | _, _ => s
  end.

(** [s.endswith(ext)] *)
Definition ends_with (ext s : string) : bool :=
  (String.length ext <=? String.length s)%nat
  && String.eqb (str_drop (String.length s - String.length ext) s) ext.

(** [s[:-len(ext)]], for a non-empty [ext]. *)
Definition strip_suffix (ext s : string) : string :=
  str_take (String.length s - String.length ext) s.

(** ** compression.py: dictionaries and files *)
Module CompressionFiles.
Section WithLib.
Context (L : Lib).
Context (compression_type : CompressionType).

(** [decompress_dict]: [None] stands for an exception of
    [decompress_string] or [json.loads]. *)
Definition decompress_dict (compressed_data : bytes) : option Value :=
  if is_empty compressed_data then Some (VDict [])
  else
    json_string ← CompressionManager.decompress_string L compression_type
                    compressed_data;
    json_loads L json_string.

Definition _get_compression_extension : string :=
  match compression_type with
  | GZIP => ".gz"
  | BZIP2 => ".bz2"
  | LZMA => ".xz"
  | ZLIB => ".zlib"
  | NONE => ""
  end.

(** The loop [for ext in extensions] of [_remove_compression_extension]. *)
Fixpoint remove_first_extension (extensions : list string)
         (file_path : string) : string :=
  match extensions with
  | [] => file_path
  | ext :: extensions' =>
    if ends_with ext file_path then strip_suffix ext file_path
    else remove_first_extension extensions' file_path
  end.

Definition _remove_compression_extension (file_path : string) : string :=
  remove_first_extension [".gz"; ".bz2"; ".xz"; ".zlib"] file_path.

(** [compress_file] on a file system given as a map from paths to contents:
    the new file system and the returned path, or [None] when opening the
    source raises.  [output_path] is [None] (or empty) for the default. *)
Definition compress_file (r : Rnd) (fs : gmap string string)
           (file_path : string) (output_path : option string)
           (compression_level : Z) : option (gmap string string * string) :=
  let output_path :=
    match output_path with
    | Some o => if is_empty o then file_path +:+ _get_compression_extension
                else o
    | None => file_path +:+ _get_compression_extension
    end in
  file_data ← fs !! file_path;
  let compressed_data :=
    CompressionManager.compress_bytes L compression_type r file_data
                                      compression_level in
  Some (<[output_path := compressed_data]> fs, output_path).

(** [decompress_file]: [None] when the source is missing or does not
    decompress; nothing is written then. *)
Definition decompress_file (fs : gmap string string)
           (compressed_file_path : string) (output_path : option string)
  : option (gmap string string * string) :=
  let output_path :=
    match output_path with
    | Some o => if is_empty o
                then _remove_compression_extension compressed_file_path
                else o
    | None => _remove_compression_extension compressed_file_path
    end in
  compressed_data ← fs !! compressed_file_path;
  decompressed_data ← CompressionManager.decompress_bytes L compression_type
                        compressed_data;
  Some (<[output_path := decompressed_data]> fs, output_path).
End WithLib.
End CompressionFiles.

(** ** encryption.py: dictionaries, files and checksums *)
Module EncryptionFiles.
Section WithLib.
Context (L : Lib).

(** [encrypt_dict]: the dict is given by its items. *)
Definition encrypt_dict (r : Rnd) (data : list (string * Value)) : str :=
  match data with
  | [] => ""
  | _ => EncryptionManager.encrypt_string L r (json_dumps L (VDict data))
  end.

(** [decrypt_dict]: [None] stands for
    [ValueError("Failed to decrypt dictionary: ...")]. *)
Definition decrypt_dict (encrypted_data : str) : option Value :=
  if is_empty encrypted_data then Some (VDict [])
  else
    json_string ← EncryptionManager.decrypt_string L encrypted_data;
    json_loads L json_string.

(** [verify_encryption] *)
Definition verify_encryption (r : Rnd) (plaintext : str) : bool :=
  let encrypted := EncryptionManager.encrypt_string L r plaintext in
  match EncryptionManager.decrypt_string L encrypted with
  | Some decrypted => String.eqb decrypted plaintext
  | None => false
  end.

(** [encrypt_file]: the token is written as it is, without base64. *)
Definition encrypt_file (r : Rnd) (fs : gmap string string)
           (file_path : string) (output_path : option string)
  : option (gmap string string * string) :=
  let output_path :=
    match output_path with
    | Some o => if is_empty o then file_path +:+ ".enc" else o
    | None => file_path +:+ ".enc"
    end in
  file_data ← fs !! file_path;
  Some (<[output_path := fernet_encrypt L (nonce r) file_data]> fs, output_path).

(** [decrypt_file]: [None] when the source is missing or is no valid token. *)
Definition decrypt_file (fs : gmap string string)
           (encrypted_file_path : string) (output_path : option string)
  : option (gmap string string * string) :=
  let default :=
    if ends_with ".enc" encrypted_file_path
    then str_take (String.length encrypted_file_path - 4) encrypted_file_path
    else encrypted_file_path +:+ ".dec" in
  let output_path :=
    match output_path with
    | Some o => if is_empty o then default else o
    | None => default
    end in
  encrypted_data ← fs !! encrypted_file_path;
  decrypted_data ← fernet_decrypt L encrypted_data;
  Some (<[output_path := decrypted_data]> fs, output_path).
End WithLib.
End EncryptionFiles.

(** ** secure_database.py: clearing and the integrity metadata *)

(** The dict [empty_data] of [clear_all_data]. *)
Definition empty_data : list (string * Value) :=
  [ ("handovers", VList []); ("requirements", VList []);
    ("issues", VList []); ("test_suites", VList []);
    ("recent_activities", VList []); ("theme_mode", VStr "light") ].

(** [clear_all_data] *)
Definition clear_all_data (L : Lib) (connect_outcome : nat -> ConnOutcome)
           (self : Manager) (rs : string -> Rnd) (w : World) : World * bool :=
  save_app_data L connect_outcome self rs (VDict empty_data) w.

(** A row of the table [security_metadata], without its key [table_name]. *)
Record MetaRow : Type := mkMetaRow {
  meta_encryption_enabled : bool;
  meta_compression_enabled : bool;
  meta_compression_type : string;
  meta_checksum : string;
  meta_created_at : string;
  meta_updated_at : string
}.

Section Metadata.
Context (L : Lib).
(** [json.dumps(data, sort_keys=True, ensure_ascii=False)] *)
Context (json_dumps_sorted : Value -> str).

(** [DataIntegrityManager.create_checksum] and [verify_checksum]. *)
Definition create_checksum (data : list (string * Value)) : str :=
  let sorted_data := json_dumps_sorted (VDict data) in
  DataIntegrityManager.calculate_hash L sorted_data.

Definition verify_checksum (data : list (string * Value))
           (expected_checksum : str) : bool :=
  let calculated_checksum := create_checksum data in
  String.eqb calculated_checksum expected_checksum.

(** [_update_security_metadata] on the table [security_metadata];
    [current_time] is [datetime.now().isoformat()]. *)
Definition _update_security_metadata (self : Manager) (current_time : string)
           (table_name : string) (data : list (string * Value))
           (meta : gmap string MetaRow) : gmap string MetaRow :=
  if negb (enable_checksums self) then meta
  else
    let checksum := match data with [] => "" | _ => create_checksum data end in
    <[table_name :=
        {| meta_encryption_enabled := enable_encryption self;
           meta_compression_enabled := enable_compression self;
           meta_compression_type := CompressionType_value (compression_type self);
           meta_checksum := checksum;
           meta_created_at := current_time;
           meta_updated_at := current_time |}]> meta.

(** [_verify_data_integrity] *)
Definition _verify_data_integrity (self : Manager) (table_name : string)
           (data : list (string * Value)) (meta : gmap string MetaRow) : bool :=
  if negb (enable_checksums self) || match data with [] => true | _ => false end
  then true
  else
    match meta !! table_name with
    | None => true       (* No checksum available, assume valid *)
    | Some row => verify_checksum data (meta_checksum row)
    end.

(** The loop of [save_app_data] that follows a successful save:
    [_update_security_metadata] for every dict or list among the values, a
    list [l] being recorded as [{"data": l}]. *)
Fixpoint save_metadata (self : Manager) (current_time : string)
         (items : list (string * Value)) (meta : gmap string MetaRow)
  : gmap string MetaRow :=
  match items with
  | [] => meta
  | (key, value) :: items' =>
    let meta :=
      match value with
      | VDict d =>
        _update_security_metadata self current_time ("app_data_" +:+ key) d meta
      | VList _ =>
        _update_security_metadata self current_time ("app_data_" +:+ key)
                                  [("data", value)] meta
      | _ => meta
      end in
    save_metadata self current_time items' meta
  end.
End Metadata.

(** ** secure_storage.py *)

(** The attributes of a [SecureStorageManager] that the codec reads:
    [compression_manager] is [None] or has a compression type;
    [encryption_manager] is [None] or not. *)
Record StorageManager : Type := mkStorageManager {
  st_enable_compression : bool;
  st_enable_encryption : bool;
  st_compression_manager : option CompressionType;
  st_encryption_manager : bool
}.

(** [SecureStorageManager.__init__] *)
Definition StorageManager_init (compression_type : CompressionType)
           (enable_compression enable_encryption : bool) : StorageManager :=
  {| st_enable_compression := enable_compression;
     st_enable_encryption := enable_encryption;
     st_compression_manager :=
       if enable_compression then Some compression_type else None;
     st_encryption_manager := enable_encryption |}.

(** Why [_decrypt_and_decompress_data] raised. *)
Inductive StorageError : Type :=
| IntegrityCheckFailed
| InvalidToken
| DecompressionFailed
| NotUtf8
| NotJson.

Section SecureStorage.
Context (L : Lib).

(** [_encrypt_and_compress_data]: (processed data, compression type,
    checksum). *)
Definition _encrypt_and_compress_data (self : StorageManager) (r : Rnd)
           (data : Value) : bytes * string * string :=
  let json_data := json_dumps L data in
  let '(compressed_data, compression_type) :=
    match st_enable_compression self, st_compression_manager self with
    | true, Some t =>
      (CompressionManager.compress_string L t r json_data 6,
       CompressionType_value t)
    | _, _ => (encode_utf8 json_data, "none")
    end in
  let encrypted_data :=
    if st_enable_encryption self && st_encryption_manager self
    then fernet_encrypt L (nonce r) compressed_data
    else compressed_data in
  let checksum := DataIntegrityManager.calculate_hash L encrypted_data in
  (encrypted_data, compression_type, checksum).

(** [_decrypt_and_decompress_data] *)
Definition _decrypt_and_decompress_data (self : StorageManager)
           (encrypted_data : bytes) (compression_type : string)
           (checksum : string) : StorageError + Value :=
  if negb (DataIntegrityManager.verify_hash L encrypted_data checksum)
  then inl IntegrityCheckFailed
  else
    match (if st_enable_encryption self && st_encryption_manager self
           then fernet_decrypt L encrypted_data
           else Some encrypted_data) with
    | None => inl InvalidToken
    | Some decrypted_data =>
      match (match negb (String.eqb compression_type "none"),
                   st_compression_manager self with
             | true, Some t =>
               CompressionManager.decompress_bytes L t decrypted_data
             | _, _ => Some decrypted_data
             end) with
      | None => inl DecompressionFailed
      | Some decompressed_data =>
        match decode_utf8 L decompressed_data with
        | None => inl NotUtf8
        | Some json_string =>
          match json_loads L json_string with
          | None => inl NotJson
          | Some v => inr v
          end
        end
      end
    end.
End SecureStorage.

Section Handovers.
Context (L : Lib).

(** [d[key] = value] on a dict given by its items: the value of an existing
    key is replaced in place, a new key goes to the end. *)
Fixpoint dict_set (key : string) (value : Value)
         (items : list (string * Value)) : list (string * Value) :=
  match items with
  | [] => [(key, value)]
  | (k, v) :: items' =>
    if String.eqb k key then (k, value) :: items'
    else (k, v) :: dict_set key value items'
  end.

(** [not status_filter or status_filter == "All"
     or handover_data.get('status') == status_filter] *)
Definition status_passes (status_filter : option string)
           (handover_data : list (string * Value)) : bool :=
  match status_filter with
  | None => true
  | Some f =>
    is_empty f || String.eqb f "All"
    || match dict_get "status" handover_data with
       | Some (VStr st) => String.eqb st f
       | _ => false
       end
  end.

(** One iteration of the loop of [get_handovers] over a row
    [(id, encrypted_data, compression_type, encryption_checksum)]: the dict
    to append, or [None] when the row is passed over, be it by the filter or
    by the handler of an exception (a record that does not decode, or that
    decodes to something that is no dict, so that [handover_data['id'] = ...]
    raises). *)
Definition handover_of_row (self : StorageManager)
           (status_filter : option string)
           (row : string * bytes * string * string) : option Value :=
  let '(id, encrypted_data, compression_type, checksum) := row in
  match _decrypt_and_decompress_data L self encrypted_data compression_type
                                     checksum with
  | inr (VDict handover_data) =>
    let handover_data := dict_set "id" (VStr id) handover_data in
    if status_passes status_filter handover_data
    then Some (VDict handover_data)
    else None
  | _ => None
  end.

(** [get_handovers] on the rows that [fetchall] returned. *)
Fixpoint get_handovers (self : StorageManager) (status_filter : option string)
         (rows : list (string * bytes * string * string)) : list Value :=
  match rows with
  | [] => []
  | row :: rows' =>
    match handover_of_row self status_filter row with
    | Some handover_data =>
      handover_data :: get_handovers self status_filter rows'
    | None => get_handovers self status_filter rows'
    end
  end.
End Handovers.

(** The settings under which [backup_database] encodes the manifest: the
    two constants of [SecurityConfig] instead of the manager's toggles. *)
Definition backup_codec (self : Manager) : Manager :=
  {| enable_encryption := SecurityConfig.BACKUP_ENCRYPTION;
     enable_compression := SecurityConfig.BACKUP_COMPRESSION;
     compression_level := compression_level self;
     enable_checksums := enable_checksums self;
     compression_type := compression_type self |}.

(** ** secure_storage.py: backups of the database file *)

(** [shutil.copy2(src, dst)] between two file paths: [None] when the source
    is missing or when both paths name the same file ([SameFileError]). *)
Definition copy2 (fs : gmap string string) (src dst : string)
  : option (gmap string string) :=
  if String.eqb src dst then None
  else data ← fs !! src; Some (<[dst := data]> fs).

Section StorageBackup.
Context (L : Lib).
(** [self.db_name] *)
Context (db_name : string).

(** [SecureStorageManager.create_backup]: the file system afterwards and the
    returned path, or [None] when a call raises. *)
Definition create_backup (self : StorageManager) (r : Rnd)
           (fs : gmap string string) (backup_path : string)
  : option (gmap string string * string) :=
  fs ← copy2 fs db_name backup_path;
  if st_enable_encryption self && st_encryption_manager self then
    '(fs, encrypted_backup) ←
       EncryptionFiles.encrypt_file L r fs backup_path None;
    (* os.remove(backup_path): Remove unencrypted backup *)
    Some (delete backup_path fs, encrypted_backup)
  else Some (fs, backup_path).
End StorageBackup.

(** ** Sample inputs on the reference instance *)
Module Sample.
Definition fs : gmap string string :=
  {[ "bms_database.db" := "SQLite format 3" ]}.

Definition record : Value :=
  VDict [("from_team", VStr "Coverage"); ("status", VStr "Completed")].

Definition items : list (string * Value) :=
  [ ("handovers", VList [VDict [("id", VInt 1)]]);
    ("settings", VDict [("k", VStr "v")]);
    ("note", VStr "plain text") ].

Definition storage : StorageManager := StorageManager_init GZIP true true.

(** A row as [add_handover] stores it, and a row with a wrong checksum. *)
Definition good_row : string * bytes * string * string :=
  let rec := _encrypt_and_compress_data Ref.lib storage Ref.rnd0 record in
  ("1", fst (fst rec), snd (fst rec), snd rec).

Definition bad_row : string * bytes * string * string :=
  ("2", "garbage", "gzip", "00").
End Sample.

(** * Properties *)

(** ** Compression codec *)

Lemma clamp_level_range (lvl : Z) :
  1 <= CompressionManager.clamp_level lvl <= 9.
Proof. unfold CompressionManager.clamp_level. lia. Qed.

Lemma clamp_level_idempotent (lvl : Z) :
  CompressionManager.clamp_level (CompressionManager.clamp_level lvl)
  = CompressionManager.clamp_level lvl.
Proof. unfold CompressionManager.clamp_level. lia. Qed.

(** C9. With compression type [none], [compress_bytes] and
    [decompress_bytes] are the identity on every byte sequence and level; for
    every compression type the level is clamped into [1,9] before the
    underlying algorithm is called, so that compressing at level [lvl] is
    compressing at level [max 1 (min 9 lvl)]. *)
Theorem compress_bytes_passthrough_and_clamp
        (L : Lib) (t : CompressionType) (r : Rnd) (d : bytes) (lvl : Z) :
  CompressionManager.compress_bytes L NONE r d lvl = d
  /\ CompressionManager.decompress_bytes L NONE d = Some d
  /\ CompressionManager.compress_bytes L t r d lvl
     = CompressionManager.compress_bytes L t r d (Z.max 1 (Z.min 9 lvl))
  /\ 1 <= Z.max 1 (Z.min 9 lvl) <= 9
  /\ (forall c d',
        CompressionManager.compress_bytes L GZIP r (String c d') lvl
        = gzip_compress L (mtime r) (String c d') (Z.max 1 (Z.min 9 lvl))
        /\ CompressionManager.compress_bytes L BZIP2 r (String c d') lvl
           = bz2_compress L (String c d') (Z.max 1 (Z.min 9 lvl))
        /\ CompressionManager.compress_bytes L LZMA r (String c d') lvl
           = lzma_compress L (String c d') (Z.max 1 (Z.min 9 lvl))
        /\ CompressionManager.compress_bytes L ZLIB r (String c d') lvl
           = zlib_compress L (String c d') (Z.max 1 (Z.min 9 lvl))).
Proof.
  repeat split; try lia; try reflexivity.
  - destruct d; reflexivity.
  - destruct d; reflexivity.
  - unfold CompressionManager.compress_bytes.
    destruct (is_empty d); [reflexivity|].
    fold (CompressionManager.clamp_level lvl).
    destruct t; rewrite ?clamp_level_idempotent; reflexivity.
Qed.

(** ** Integrity *)

(** A payload verifies against its own hash. *)
Lemma verify_hash_self (L : Lib) (data : bytes) :
  DataIntegrityManager.verify_hash L data
    (DataIntegrityManager.calculate_hash L data) = true.
Proof.
  unfold DataIntegrityManager.verify_hash. apply String.eqb_refl.
Qed.

(** A modified payload is rejected exactly when its digest differs from the
    digest of the original; whether two given payloads have different
    SHA-256 digests is a matter of the hash function. *)
Lemma verify_hash_rejects_iff (L : Lib) (data data' : bytes) :
  DataIntegrityManager.verify_hash L data'
    (DataIntegrityManager.calculate_hash L data) = false
  <-> sha256_hexdigest L data' <> sha256_hexdigest L data.
Proof.
  unfold DataIntegrityManager.verify_hash, DataIntegrityManager.calculate_hash,
    encode_utf8.
  destruct (String.eqb_spec (sha256_hexdigest L data') (sha256_hexdigest L data));
    split; intros H; congruence.
Qed.

(** ** Security settings *)

(** C10. [update_security_settings] keeps every toggle passed as [None],
    installs every toggle passed as a value, and never changes the
    compression type or level, whatever its arguments and whether or not the
    re-save goes through; the same is seen through
    [get_current_security_config]. *)
Theorem update_security_settings_frame
        (L : Lib) (co : nat -> ConnOutcome) (self : Manager)
        (rs : string -> Rnd) (e c k : option bool) (b : bool) (w : World) :
  let after e c k := fst (fst (update_security_settings L co self rs e c k w)) in
  let view m := get_current_security_config m in
  compression_type (after e c k) = compression_type self
  /\ compression_level (after e c k) = compression_level self
  /\ view_compression_type (view (after e c k))
     = view_compression_type (view self)
  /\ enable_encryption (after None c k) = enable_encryption self
  /\ enable_compression (after e None k) = enable_compression self
  /\ enable_checksums (after e c None) = enable_checksums self
  /\ encryption_enabled (view (after None c k)) = encryption_enabled (view self)
  /\ compression_enabled (view (after e None k)) = compression_enabled (view self)
  /\ checksums_enabled (view (after e c None)) = checksums_enabled (view self)
  /\ enable_encryption (after (Some b) c k) = b
  /\ enable_compression (after e (Some b) k) = b
  /\ enable_checksums (after e c (Some b)) = b.
Proof.
  assert (Hm : forall e c k,
             fst (fst (update_security_settings L co self rs e c k w))
             = apply_settings self e c k).
  { intros e' c' k'. unfold update_security_settings.
    destruct (load_app_data L co self w) as [w1 data].
    destruct data as [|x data]; [reflexivity|].
    destruct (save_app_data L co _ rs _ w1) as [w2 ok]. reflexivity. }
  cbv beta zeta. rewrite !Hm. repeat split.
Qed.

(** ** Connection manager *)

Lemma schedule_in_app (a b : list Event) :
  schedule_in (a ++ b)%list = (schedule_in a ++ schedule_in b)%list.
Proof.
  induction a as [|x a IH]; [reflexivity|].
  destruct x; cbn; rewrite ?IH; reflexivity.
Qed.

Lemma attempts_in_schedule (tr : list Event) :
  attempts_in (schedule_in tr) = attempts_in tr.
Proof.
  induction tr as [|x tr IH]; [reflexivity|].
  destruct x; cbn; rewrite ?IH; reflexivity.
Qed.

Lemma sleeps_in_schedule (tr : list Event) :
  sleeps_in (schedule_in tr) = sleeps_in tr.
Proof.
  induction tr as [|x tr IH]; [reflexivity|].
  destruct x; cbn; rewrite ?IH; reflexivity.
Qed.

Lemma close_if_trace (conn : bool) (w : World) :
  exists tr, trace (close_if conn w) = (trace w ++ tr)%list
             /\ schedule_in tr = []
             /\ app_table (close_if conn w) = app_table w
             /\ files (close_if conn w) = files w
             /\ connects (close_if conn w) = connects w.
Proof.
  destruct conn; cbn.
  - exists [EClose]. repeat split.
  - exists []. rewrite app_nil_r. repeat split.
Qed.

Lemma rollback_if_trace (conn : bool) (w : World) :
  exists tr, trace (rollback_if conn w) = (trace w ++ tr)%list
             /\ schedule_in tr = []
             /\ app_table (rollback_if conn w) = app_table w
             /\ files (rollback_if conn w) = files w
             /\ connects (rollback_if conn w) = connects w.
Proof.
  destruct conn; cbn.
  - exists [ERollback]. repeat split.
  - exists []. rewrite app_nil_r. repeat split.
Qed.

Lemma locked_schedule_step (delay : Q) (k attempt : nat) :
  locked_schedule delay (S (S k)) attempt
  = EConnect attempt :: ESleep (delay * inject_Z (2 ^ Z.of_nat attempt))
             :: locked_schedule delay (S k) (S attempt).
Proof. reflexivity. Qed.

Section RetryLoop.
Context (co : nat -> ConnOutcome) {A : Type}
        (body : World -> World * Result A)
        (max_retries : nat) (retry_delay : Q).

(** Attempts that meet a locked store while another attempt is left are
    passed over, each with its sleep; nothing else happens. *)
Lemma retry_loop_skip_locked (k : nat) :
  forall (fuel attempt : nat) (conn thrown : bool) (w : World),
    (forall j, (j < k)%nat -> raises_locked (co (connects w + j)%nat) = true) ->
    (attempt + k < max_retries)%nat ->
    exists w1 conn1 tr,
      retry_loop co body max_retries retry_delay (k + fuel) attempt conn thrown w
      = retry_loop co body max_retries retry_delay fuel (attempt + k) conn1
                   thrown w1
      /\ connects w1 = (connects w + k)%nat
      /\ trace w1 = (trace w ++ tr)%list
      /\ (schedule_in tr ++ [EConnect (attempt + k)])%list
         = locked_schedule retry_delay (S k) attempt
      /\ app_table w1 = app_table w /\ files w1 = files w.
Proof.
  induction k as [|k IH]; intros fuel attempt conn thrown w Hl Hlt.
  - exists w, conn, []. rewrite !Nat.add_0_r, app_nil_r. repeat split.
  - pose proof (Hl 0%nat ltac:(lia)) as H0. rewrite Nat.add_0_r in H0.
    cbn [Nat.add retry_loop].
    destruct (co (connects w)) as [|e asg] eqn:Hco; [discriminate H0|].
    destruct e as [msg|msg|msg]; try discriminate H0.
    cbn [raises_locked is_locked_error] in H0. rewrite H0. cbn [andb].
    replace (Z.of_nat attempt <? Z.of_nat max_retries - 1) with true
      by (symmetry; apply Z.ltb_lt; lia).
    set (w1 := emit [EConnect attempt] (count_connect w)).
    destruct (close_if_trace (conn || asg) w1) as (t1 & Ht1 & Hs1 & Ha1 & Hf1 & Hc1).
    set (w2 := emit [ESleep (retry_delay * inject_Z (2 ^ Z.of_nat attempt))]
                    (close_if (conn || asg) w1)).
    destruct (close_if_trace (conn || asg) w2) as (t2 & Ht2 & Hs2 & Ha2 & Hf2 & Hc2).
    assert (Hcn : connects (close_if (conn || asg) w2) = S (connects w)).
    { rewrite Hc2. subst w2. cbn [connects emit]. rewrite Hc1. reflexivity. }
    destruct (IH fuel (S attempt) (conn || asg) thrown (close_if (conn || asg) w2))
      as (w' & conn' & tr & Heq & Hcn' & Htr & Hsch & Hat & Hfi).
    { intros j Hj. rewrite Hcn.
      replace (S (connects w) + j)%nat with (connects w + S j)%nat by lia.
      apply Hl. lia. }
    { lia. }
    exists w', conn',
      ([EConnect attempt] ++ t1
         ++ [ESleep (retry_delay * inject_Z (2 ^ Z.of_nat attempt))]
         ++ t2 ++ tr)%list.
    split.
    { rewrite Heq. f_equal. lia. }
    split; [rewrite Hcn', Hcn; lia|].
    split.
    { rewrite Htr, Ht2. subst w2. cbn [trace emit]. rewrite Ht1.
      subst w1. cbn [trace emit count_connect].
      rewrite <- !app_assoc. reflexivity. }
    split.
    { rewrite locked_schedule_step, !schedule_in_app, Hs1, Hs2.
      cbn [schedule_in app].
      replace (attempt + S k)%nat with (S attempt + k)%nat by lia.
      rewrite Hsch. reflexivity. }
    split.
    { rewrite Hat, Ha2. subst w2. cbn [app_table emit]. rewrite Ha1.
      reflexivity. }
    { rewrite Hfi, Hf2. subst w2. cbn [files emit]. rewrite Hf1.
      reflexivity. }
Qed.

(** An attempt that meets an acquisition error which is not lock
    contention, or that is the last one, raises that error at once. *)
Lemma retry_loop_raises
      (fuel attempt : nat) (conn thrown : bool) (w : World) (e : exn)
      (asg : bool) :
  co (connects w) = ConnRaises e asg ->
  is_locked_error e = false \/ (max_retries <= attempt + 1)%nat ->
  exists w' tr,
    retry_loop co body max_retries retry_delay (S fuel) attempt conn thrown w
    = (w', Raised e)
    /\ trace w' = (trace w ++ tr)%list
    /\ schedule_in tr = [EConnect attempt]
    /\ app_table w' = app_table w /\ files w' = files w.
Proof.
  intros He Hl. cbn [retry_loop]. rewrite He.
  set (w1 := emit [EConnect attempt] (count_connect w)).
  assert (Hraise : exists w' tr,
             (close_if (conn || asg) (rollback_if (conn || asg) w1),
              @Raised A e)
             = (w', Raised e)
             /\ trace w' = (trace w ++ tr)%list
             /\ schedule_in tr = [EConnect attempt]
             /\ app_table w' = app_table w /\ files w' = files w).
  { destruct (rollback_if_trace (conn || asg) w1) as (t1 & Ht1 & Hs1 & Ha1 & Hf1 & _).
    destruct (close_if_trace (conn || asg) (rollback_if (conn || asg) w1))
      as (t2 & Ht2 & Hs2 & Ha2 & Hf2 & _).
    eexists; exists ([EConnect attempt] ++ t1 ++ t2)%list.
    split; [reflexivity|]. split.
    { rewrite Ht2, Ht1. subst w1. cbn [trace emit count_connect].
      rewrite <- !app_assoc. reflexivity. }
    split; [rewrite !schedule_in_app, Hs1, Hs2; reflexivity|].
    split; [rewrite Ha2, Ha1|rewrite Hf2, Hf1]; reflexivity. }
  destruct e as [msg|msg|msg]; try exact Hraise.
  replace (is_substring "database is locked" msg
           && (Z.of_nat attempt <? Z.of_nat max_retries - 1)) with false.
  2:{ symmetry. apply andb_false_iff. destruct Hl as [Hl|Hl].
      - left. exact Hl.
      - right. apply Z.ltb_ge. lia. }
  destruct (close_if_trace (conn || asg) w1) as (t1 & Ht1 & Hs1 & Ha1 & Hf1 & _).
  eexists; exists ([EConnect attempt] ++ t1)%list.
  split; [reflexivity|]. split.
  { rewrite Ht1. subst w1. cbn [trace emit count_connect].
    rewrite <- !app_assoc. reflexivity. }
  split; [rewrite schedule_in_app, Hs1; reflexivity|].
  split; [rewrite Ha1|rewrite Hf1]; reflexivity.
Qed.

(** Once the block has raised and the generator goes on, the loop touches
    neither the table nor the files, and the statement does not complete. *)
Lemma retry_loop_thrown (fuel : nat) :
  forall (attempt : nat) (conn : bool) (w : World),
    let r := retry_loop co body max_retries retry_delay fuel attempt conn true w in
    app_table (fst r) = app_table w /\ files (fst r) = files w
    /\ forall a, snd r <> Completed a.
Proof.
  induction fuel as [|fuel IH]; intros attempt conn w; cbn [retry_loop].
  - repeat split. discriminate.
  - destruct (co (connects w)) as [|x asg].
    + repeat split. discriminate.
    + destruct x as [msg|msg|msg].
      * destruct (is_substring _ msg && _).
        -- cbv zeta in IH.
           match goal with
           | |- context [retry_loop co body _ _ fuel ?a ?c true ?w0] =>
             destruct (IH a c w0) as (Ha & Hf & Hn)
           end.
           rewrite Ha, Hf. split; [|split; [|exact Hn]];
             destruct (conn || asg); reflexivity.
        -- cbn [fst snd]. split; [|split; [|discriminate]];
             destruct (conn || asg); reflexivity.
      * cbn [fst snd]. split; [|split; [|discriminate]];
          destruct (conn || asg); reflexivity.
      * cbn [fst snd]. split; [|split; [|discriminate]];
          destruct (conn || asg); reflexivity.
Qed.

(** How an acquisition ends: without the block having run, in an
    exception and with the table and the files as they were; or after one
    run of the block, on a world with the table and the files of the
    beginning, with what the block left.  A block that raises makes the
    statement raise the same exception, unless the exception is lock
    contention (then the statement still does not complete). *)
Lemma retry_loop_inv (fuel : nat) :
  forall (attempt : nat) (conn : bool) (w : World),
    let r := retry_loop co body max_retries retry_delay fuel attempt conn false w in
    (app_table (fst r) = app_table w /\ files (fst r) = files w
     /\ exists e, snd r = Raised e)
    \/ exists w0 w1 bres,
        app_table w0 = app_table w /\ files w0 = files w
        /\ body w0 = (w1, bres)
        /\ app_table (fst r) = app_table w1 /\ files (fst r) = files w1
        /\ match bres with
           | Ok a => snd r = Completed a
           | Raise e =>
             snd r = Raised e
             \/ (is_locked_error e = true /\ forall a, snd r <> Completed a)
           end.
Proof.
  induction fuel as [|fuel IH]; intros attempt conn w; cbn [retry_loop].
  - left. repeat split. eexists. reflexivity.
  - destruct (co (connects w)) as [|x asg].
    + right. exists (emit [EConnect attempt] (count_connect w)).
      destruct (body _) as [w1 [a|e]] eqn:Hb.
      * exists w1, (Ok a). repeat split.
      * exists w1, (Raise e). split; [reflexivity|]. split; [reflexivity|].
        split; [reflexivity|].
        destruct e as [msg|msg|msg]; try (repeat split; left; reflexivity).
        destruct (is_substring "database is locked" msg) eqn:Hm; cbn [andb];
          [|repeat split; left; reflexivity].
        destruct (Z.of_nat attempt <? Z.of_nat max_retries - 1);
          [|repeat split; left; reflexivity].
        match goal with
        | |- context [retry_loop co body _ _ fuel ?a ?c true ?w0] =>
          destruct (retry_loop_thrown fuel a c w0) as (Ha & Hf & Hn)
        end.
        split; [rewrite Ha; reflexivity|]. split; [rewrite Hf; reflexivity|].
        right. split; [exact Hm|exact Hn].
    + destruct x as [msg|msg|msg].
      * destruct (is_substring _ msg && _).
        -- cbv zeta in IH.
           match goal with
           | |- context [retry_loop co body _ _ fuel ?a ?c false ?w0] =>
             destruct (IH a c w0) as [(Ha & Hf & He)
                                     |(w0' & w1 & bres & Ha & Hf & Hb & Ha' & Hf' & Hr)]
           end.
           ++ left. rewrite Ha, Hf. split; [|split; [|exact He]];
                destruct (conn || asg); reflexivity.
           ++ right. exists w0', w1, bres. rewrite Ha, Hf.
              split; [destruct (conn || asg); reflexivity|].
              split; [destruct (conn || asg); reflexivity|].
              repeat split; assumption.
        -- left. cbn [fst snd]. split; [|split; [|eexists; reflexivity]];
             destruct (conn || asg); reflexivity.
      * left. cbn [fst snd]. split; [|split; [|eexists; reflexivity]];
          destruct (conn || asg); reflexivity.
      * left. cbn [fst snd]. split; [|split; [|eexists; reflexivity]];
          destruct (conn || asg); reflexivity.
Qed.

(** A statement that completes has reached the store. *)
Lemma retry_loop_completed_reaches (fuel : nat) :
  forall (attempt : nat) (conn : bool) (w w' : World) (a : A),
    retry_loop co body max_retries retry_delay fuel attempt conn false w
    = (w', Completed a) ->
    exists k, (k < fuel)%nat
              /\ (forall j, (j < k)%nat ->
                            raises_locked (co (connects w + j)%nat) = true)
              /\ co (connects w + k)%nat = ConnOk.
Proof.
  induction fuel as [|fuel IH]; intros attempt conn w w' a H;
    cbn [retry_loop] in H; [discriminate H|].
  destruct (co (connects w)) as [|x asg] eqn:Hco.
  - exists 0%nat. rewrite Nat.add_0_r. split; [lia|]. split; [intros j Hj; lia|].
    exact Hco.
  - destruct x as [msg|msg|msg]; try discriminate H.
    destruct (is_substring "database is locked" msg) eqn:Hm; cbn [andb] in H;
      [|discriminate H].
    destruct (Z.of_nat attempt <? Z.of_nat max_retries - 1); [|discriminate H].
    apply IH in H. destruct H as (k & Hk & Hl & Hok).
    assert (Hcn : forall c (w0 : World),
               connects (close_if c w0) = connects w0)
      by (intros c w0; destruct c; reflexivity).
    rewrite Hcn in Hl, Hok. cbn [connects emit] in Hl, Hok.
    rewrite Hcn in Hl, Hok. cbn [connects emit count_connect] in Hl, Hok.
    exists (S k). split; [lia|]. split.
    + intros j Hj. destruct j as [|j].
      * rewrite Nat.add_0_r, Hco. exact Hm.
      * replace (connects w + S j)%nat with (S (connects w) + j)%nat by lia.
        apply Hl. lia.
    + replace (connects w + S k)%nat with (S (connects w) + k)%nat by lia.
      exact Hok.
Qed.
End RetryLoop.

(** An acquisition with the default arguments that meets a locked store
    [k] times and then an error that ends it (an error that is not lock
    contention, or any error at the fifth attempt) raises that error after
    [k + 1] attempts. *)
Lemma acquisition_raises
      (co : nat -> ConnOutcome) (A : Type) (body : World -> World * Result A)
      (w : World) (k : nat) (e : exn) (asg : bool) :
  (k < 5)%nat ->
  (forall j, (j < k)%nat -> raises_locked (co (connects w + j)%nat) = true) ->
  co (connects w + k)%nat = ConnRaises e asg ->
  is_locked_error e = false \/ k = 4%nat ->
  exists w' tr,
    _get_connection_with_retry co default_max_retries default_retry_delay body w
    = (w', Raised e)
    /\ trace w' = (trace w ++ tr)%list
    /\ schedule_in tr = locked_schedule default_retry_delay (S k) 0
    /\ app_table w' = app_table w /\ files w' = files w.
Proof.
  intros Hk Hl He Hend.
  unfold _get_connection_with_retry, default_max_retries.
  destruct (retry_loop_skip_locked co body 5 default_retry_delay k (S (4 - k))
              0 false false w Hl ltac:(lia))
    as (w1 & conn1 & tr1 & Heq & Hcn & Htr & Hsch & Hat & Hfi).
  replace (k + S (4 - k))%nat with 5%nat in Heq by lia.
  rewrite Heq.
  destruct (retry_loop_raises co body 5 default_retry_delay (4 - k) (0 + k)
              conn1 false w1 e asg)
    as (w' & tr2 & Heq2 & Htr2 & Hsch2 & Hat2 & Hfi2).
  { rewrite Hcn. exact He. }
  { destruct Hend as [H|H]; [left; exact H|right; lia]. }
  exists w', (tr1 ++ tr2)%list. split; [exact Heq2|].
  split; [rewrite Htr2, Htr, app_assoc; reflexivity|].
  split; [rewrite schedule_in_app, Hsch2; exact Hsch|].
  split; congruence.
Qed.

(** C6. When the store reports "database is locked" at every attempt, an
    acquisition with the default arguments makes exactly 5 attempts, sleeps
    100, 200, 400 and 800 ms between consecutive attempts, and then raises
    the lock error of the fifth attempt to the caller, without running the
    block or touching the data.  An acquisition error of any other kind is
    raised by the attempt that meets it, be it the first or one that follows
    [k] attempts on a locked store: after [k + 1] attempts and the [k] sleeps
    between them, with no sleep and no attempt after it. *)
Theorem connection_retry_bound
        (co : nat -> ConnOutcome) (A : Type)
        (body : World -> World * Result A) (w : World) :
  ((forall n, raises_locked (co n) = true) ->
   exists w' tr e,
     _get_connection_with_retry co default_max_retries default_retry_delay body w
     = (w', Raised e)
     /\ is_locked_error e = true
     /\ (exists asg, co (connects w + 4)%nat = ConnRaises e asg)
     /\ trace w' = (trace w ++ tr)%list
     /\ attempts_in tr = 5%nat
     /\ schedule_in tr
        = [ EConnect 0; ESleep (default_retry_delay * inject_Z (2 ^ 0));
            EConnect 1; ESleep (default_retry_delay * inject_Z (2 ^ 1));
            EConnect 2; ESleep (default_retry_delay * inject_Z (2 ^ 2));
            EConnect 3; ESleep (default_retry_delay * inject_Z (2 ^ 3));
            EConnect 4 ]
     /\ Forall2 Qeq (sleeps_in tr) [ms 100; ms 200; ms 400; ms 800]
     /\ app_table w' = app_table w /\ files w' = files w)
  /\ (forall k e asg,
        (k < 5)%nat ->
        (forall j, (j < k)%nat ->
                   raises_locked (co (connects w + j)%nat) = true) ->
        co (connects w + k)%nat = ConnRaises e asg ->
        is_locked_error e = false ->
        exists w' tr,
          _get_connection_with_retry co default_max_retries default_retry_delay
                                     body w
          = (w', Raised e)
          /\ trace w' = (trace w ++ tr)%list
          /\ attempts_in tr = S k
          /\ schedule_in tr
             = firstn (2 * k + 1)
                 [ EConnect 0; ESleep (default_retry_delay * inject_Z (2 ^ 0));
                   EConnect 1; ESleep (default_retry_delay * inject_Z (2 ^ 1));
                   EConnect 2; ESleep (default_retry_delay * inject_Z (2 ^ 2));
                   EConnect 3; ESleep (default_retry_delay * inject_Z (2 ^ 3));
                   EConnect 4 ]
          /\ Forall2 Qeq (sleeps_in tr)
                     (firstn k [ms 100; ms 200; ms 400; ms 800])
          /\ app_table w' = app_table w /\ files w' = files w).
Proof.
  split.
  - intros H.
    pose proof (H (connects w + 4)%nat) as H4.
    destruct (co (connects w + 4)%nat) as [|e asg] eqn:He; [discriminate H4|].
    destruct (acquisition_raises co A body w 4 e asg)
      as (w' & tr & Heq & Htr & Hsch & Hat & Hfi);
      [lia|intros j _; apply H|exact He|right; reflexivity|].
    exists w', tr, e. split; [exact Heq|]. split; [exact H4|].
    split; [exists asg; reflexivity|]. split; [exact Htr|].
    split; [rewrite <- attempts_in_schedule, Hsch; reflexivity|].
    split; [rewrite Hsch; reflexivity|].
    split; [|split; assumption].
    rewrite <- sleeps_in_schedule, Hsch. cbn.
    repeat constructor.
  - intros k e asg Hk Hl He Hn.
    destruct (acquisition_raises co A body w k e asg Hk Hl He (or_introl Hn))
      as (w' & tr & Heq & Htr & Hsch & Hat & Hfi).
    exists w', tr. split; [exact Heq|]. split; [exact Htr|].
    assert (Hcases : (k = 0 \/ k = 1 \/ k = 2 \/ k = 3 \/ k = 4)%nat) by lia.
    rewrite <- attempts_in_schedule, <- sleeps_in_schedule, Hsch.
    destruct Hcases as [H0|[H0|[H0|[H0|H0]]]]; subst k;
      (split; [reflexivity|]); (split; [reflexivity|]);
      (split; [cbn; repeat constructor|split; assumption]).
Qed.

(** ** What the store holds after a load or a save *)

Lemma undecodable_cell_none (L : Lib) (rows : list (string * string)) :
  undecodable_cell L rows = None
  <-> forall k s, (k, s) ∈ rows ->
                  utf8_valid L k = true /\ utf8_valid L s = true.
Proof.
  induction rows as [|[k s] rows IH]; cbn [undecodable_cell].
  - split; [|reflexivity]. intros _ k s H. apply elem_of_nil in H. contradiction.
  - destruct (utf8_valid L k) eqn:Hk; cbn [negb].
    + destruct (utf8_valid L s) eqn:Hs; cbn [negb].
      * rewrite IH. split.
        -- intros H k' s' Hin. apply elem_of_cons in Hin as [Heq|Hin].
           ++ inversion Heq; subst. split; assumption.
           ++ apply H. exact Hin.
        -- intros H k' s' Hin. apply H. apply elem_of_cons. right. exact Hin.
      * split; [discriminate|]. intros H.
        destruct (H k s ltac:(apply elem_of_cons; left; reflexivity)) as [_ H2].
        congruence.
    + split; [discriminate|]. intros H.
      destruct (H k s ltac:(apply elem_of_cons; left; reflexivity)) as [H1 _].
      congruence.
Qed.

Lemma cells_utf8_decodable (L : Lib) (t : gmap string string) :
  cells_utf8 L t <-> undecodable_cell L (map_to_list t) = None.
Proof.
  rewrite undecodable_cell_none. unfold cells_utf8. split.
  - intros H k s Hin. apply H. apply elem_of_map_to_list. exact Hin.
  - intros H k s Hin. apply H. apply elem_of_map_to_list. exact Hin.
Qed.

Section StoreProps.
Context (L : Lib) (co : nat -> ConnOutcome) (self : Manager).

Lemma load_block_world (w : World) : fst (load_block L w) = w.
Proof.
  unfold load_block. destruct (app_table w) as [t|]; [|reflexivity].
  cbv zeta. destruct (undecodable_cell L (map_to_list t)) as [[c x]|];
    reflexivity.
Qed.

Lemma load_block_ok (w w1 : World) (rows : option (list (string * string))) :
  load_block L w = (w1, Ok rows) ->
  match rows with
  | None => app_table w = None
  | Some rows =>
    exists t, app_table w = Some t /\ cells_utf8 L t /\ rows = map_to_list t
  end.
Proof.
  unfold load_block. destruct (app_table w) as [t|].
  - cbv zeta. destruct (undecodable_cell L (map_to_list t)) as [[c x]|] eqn:Hu;
      intros E; inversion E; subst.
    exists t. split; [reflexivity|]. split; [|reflexivity].
    apply cells_utf8_decodable. exact Hu.
  - intros E; inversion E; subst. reflexivity.
Qed.

(** [load_app_data] leaves the table and the files as they are. *)
Lemma load_app_data_frame (w : World) :
  app_table (fst (load_app_data L co self w)) = app_table w
  /\ files (fst (load_app_data L co self w)) = files w.
Proof.
  unfold load_app_data, _get_connection_with_retry.
  pose proof (retry_loop_inv co (load_block L) default_max_retries
                default_retry_delay default_max_retries 0 false w) as H.
  cbv zeta in H.
  destruct (retry_loop co (load_block L) _ _ _ _ _ _ w) as [w' res].
  cbn [fst snd] in H.
  assert (Hw : app_table w' = app_table w /\ files w' = files w).
  { destruct H as [(Ha & Hf & _)|(w0 & w1 & bres & Ha & Hf & Hb & Ha' & Hf' & _)].
    - split; assumption.
    - pose proof (load_block_world w0) as Hw0. rewrite Hb in Hw0.
      cbn [fst] in Hw0. subst w1. split; congruence. }
  destruct res as [[rows|]|e|]; exact Hw.
Qed.

(** What [load_app_data] returns is the empty dict, unless the store is
    reached, the table exists and every cell is UTF-8 text: then it is the
    decoding of every row. *)
Lemma load_app_data_cases (w : World) :
  snd (load_app_data L co self w) = []
  \/ exists t, app_table w = Some t /\ cells_utf8 L t
               /\ (exists k, reaches co (connects w) k)
               /\ snd (load_app_data L co self w)
                  = load_rows L self (map_to_list t).
Proof.
  unfold load_app_data, _get_connection_with_retry.
  pose proof (retry_loop_inv co (load_block L) default_max_retries
                default_retry_delay default_max_retries 0 false w) as H.
  pose proof (retry_loop_completed_reaches co (load_block L) default_max_retries
                default_retry_delay default_max_retries 0 false w) as Hr.
  cbv zeta in H.
  destruct (retry_loop co (load_block L) _ _ _ _ _ _ w) as [w' res].
  cbn [fst snd] in H.
  destruct res as [[rows|]|e|]; cbn [snd]; try (left; reflexivity).
  right.
  destruct H as [(_ & _ & e & He)|(w0 & w1 & bres & Ha & Hf & Hb & _ & _ & Hres)];
    [discriminate He|].
  destruct bres as [a|e].
  - inversion Hres; subst a. apply load_block_ok in Hb.
    destruct Hb as (t & Ht & Hc & ->). exists t.
    split; [congruence|]. split; [exact Hc|]. split; [|reflexivity].
    destruct (Hr w' (Some (map_to_list t)) eq_refl) as (k & Hk & Hl & Hok).
    exists k. repeat split; assumption.
  - destruct Hres as [Hres|[_ Hres]]; [discriminate Hres|].
    exfalso. eapply Hres. reflexivity.
Qed.

(** When the store is reached at the attempt number [k], the table exists
    and every cell is UTF-8 text, the rows are read and decoded. *)
Lemma load_app_data_reached (w : World) (k : nat) (t : gmap string string) :
  reaches co (connects w) k ->
  app_table w = Some t ->
  cells_utf8 L t ->
  exists w',
    load_app_data L co self w = (w', load_rows L self (map_to_list t))
    /\ app_table w' = Some t /\ files w' = files w
    /\ connects w' = (connects w + S k)%nat.
Proof.
  intros (Hk & Hl & Hok) Ht Hc.
  unfold load_app_data, _get_connection_with_retry, default_max_retries in *.
  destruct (retry_loop_skip_locked co (load_block L) 5 default_retry_delay k
              (S (4 - k)) 0 false false w Hl ltac:(lia))
    as (w1 & conn1 & tr1 & Heq & Hcn & Htr & Hsch & Hat & Hfi).
  replace (k + S (4 - k))%nat with 5%nat in Heq by lia.
  rewrite Heq. cbn [retry_loop]. rewrite Hcn, Hok.
  unfold load_block. cbn [app_table emit count_connect]. rewrite Hat, Ht.
  cbv zeta. apply cells_utf8_decodable in Hc. rewrite Hc.
  eexists. split; [reflexivity|].
  cbn [app_table files connects emit count_connect].
  split; [congruence|]. split; [exact Hfi|]. lia.
Qed.

(** Without a table, with a cell that is not UTF-8 text, or when no attempt
    reaches the store, [load_app_data] returns the empty dict. *)
Lemma load_app_data_unreadable (w : World) :
  app_table w = None
  \/ (exists t, app_table w = Some t /\ ~ cells_utf8 L t)
  \/ (forall k, ~ reaches co (connects w) k) ->
  snd (load_app_data L co self w) = [].
Proof.
  intros H.
  destruct (load_app_data_cases w) as [He|(t & Ht & Hc & (k & Hk) & _)];
    [exact He|].
  exfalso. destruct H as [H|[(t' & Ht' & Hn)|H]].
  - congruence.
  - apply Hn. congruence.
  - exact (H k Hk).
Qed.

(** ** Saving *)

Lemma save_items_some (rs : string -> Rnd) (items : list (string * Value)) :
  forall t : gmap string string,
    Forall (fun kv => item_raises L (fst kv) (snd kv) = false) items ->
    exists t', save_items L self rs items t = Some t'.
Proof.
  induction items as [|[k v] items IH]; intros t H; cbn [save_items].
  - exists t. reflexivity.
  - inversion H as [|x l Hx Hl]; subst. cbn [fst snd] in Hx. rewrite Hx.
    apply IH. exact Hl.
Qed.

Lemma save_items_none (rs : string -> Rnd) (items : list (string * Value)) :
  forall t : gmap string string,
    Exists (fun kv => item_raises L (fst kv) (snd kv) = true) items ->
    save_items L self rs items t = None.
Proof.
  induction items as [|[k v] items IH]; intros t H; cbn [save_items].
  - inversion H.
  - destruct (item_raises L k v) eqn:E; [reflexivity|].
    inversion H as [x l Hx|x l Hl]; subst.
    + cbn [fst snd] in Hx. congruence.
    + apply IH. exact Hl.
Qed.

Lemma save_items_lookup_notin (rs : string -> Rnd)
      (items : list (string * Value)) :
  forall (t t' : gmap string string) (k : string),
    save_items L self rs items t = Some t' ->
    k ∉ items.*1 -> t' !! k = t !! k.
Proof.
  induction items as [|[k' v'] items IH]; intros t t' k Hs Hk;
    cbn [save_items] in Hs.
  - inversion Hs. reflexivity.
  - cbn in Hk. apply not_elem_of_cons in Hk as [Hne Hk].
    destruct (item_raises L k' v'); [discriminate Hs|].
    rewrite (IH _ _ _ Hs Hk). apply lookup_insert_ne. congruence.
Qed.

Lemma save_items_lookup_in (rs : string -> Rnd)
      (items : list (string * Value)) :
  forall (t t' : gmap string string) (k : string) (v : Value),
    save_items L self rs items t = Some t' ->
    NoDup (items.*1) -> (k, v) ∈ items ->
    t' !! k = Some (_secure_data L self (rs k) (value_to_secure L k v)).
Proof.
  induction items as [|[k' v'] items IH]; intros t t' k v Hs Hnd Hin.
  - apply elem_of_nil in Hin. contradiction.
  - cbn in Hnd. apply NoDup_cons in Hnd as [Hk' Hnd].
    cbn [save_items] in Hs.
    destruct (item_raises L k' v'); [discriminate Hs|].
    apply elem_of_cons in Hin as [Heq|Hin].
    + inversion Heq; subst k' v'.
      rewrite (save_items_lookup_notin _ _ _ _ _ Hs Hk').
      apply lookup_insert_eq.
    + eapply IH; eassumption.
Qed.

Lemma save_block_ok (rs : string -> Rnd) (d : Value) (w w1 : World) (a : unit) :
  save_block L self rs d w = (w1, Ok a) ->
  exists items t',
    d = VDict items
    /\ save_items L self rs items (create_table_if_not_exists w) = Some t'
    /\ app_table w1 = Some t' /\ files w1 = files w.
Proof.
  unfold save_block. cbv zeta. destruct d as [| | | | |items|];
    try discriminate.
  destruct (save_items L self rs items (create_table_if_not_exists w))
    as [t'|] eqn:Hs; intros E; inversion E; subst.
  exists items, t'. repeat split. exact Hs.
Qed.

Lemma save_block_raise (rs : string -> Rnd) (d : Value) (w w1 : World)
      (e : exn) :
  save_block L self rs d w = (w1, Raise e) ->
  app_table w1 = Some (create_table_if_not_exists w) /\ files w1 = files w
  /\ is_locked_error e = false.
Proof.
  unfold save_block. cbv zeta.
  destruct d as [| | | | |items|];
    try (intros E; inversion E; subst; repeat split; fail).
  destruct (save_items L self rs items (create_table_if_not_exists w)) as [t'|];
    intros E; inversion E; subst; repeat split.
Qed.

(** However the acquisition goes, [save_app_data] touches no file; when it
    returns [False] the rows are as before (the table is there, empty, if
    it was missing and the block got to run); when it returns [True] the
    block has run to its end on the table as it was. *)
Lemma save_app_data_inv (rs : string -> Rnd) (d : Value) (w : World) :
  let r := save_app_data L co self rs d w in
  files (fst r) = files w
  /\ if snd r then
       exists items t',
         d = VDict items
         /\ save_items L self rs items (create_table_if_not_exists w) = Some t'
         /\ app_table (fst r) = Some t'
     else app_table (fst r) = app_table w
          \/ app_table (fst r) = Some (create_table_if_not_exists w).
Proof.
  cbv zeta. unfold save_app_data, _get_connection_with_retry.
  pose proof (retry_loop_inv co (save_block L self rs d) default_max_retries
                default_retry_delay default_max_retries 0 false w) as H.
  cbv zeta in H.
  destruct (retry_loop co (save_block L self rs d) _ _ _ _ _ _ w) as [w' res].
  cbn [fst snd] in H.
  destruct H as [(Ha & Hf & e & ->)|(w0 & w1 & bres & Ha & Hf & Hb & Ha' & Hf' & Hres)].
  - cbn [fst snd]. split; [exact Hf|]. left. exact Ha.
  - destruct bres as [a|e].
    + subst res. cbn [fst snd].
      apply save_block_ok in Hb. destruct Hb as (items & t' & -> & Hs & Ht & Hfw).
      split; [congruence|]. exists items, t'.
      unfold create_table_if_not_exists in *. rewrite Ha in Hs.
      repeat split; [exact Hs|congruence].
    + apply save_block_raise in Hb. destruct Hb as (Ht & Hfw & Hl).
      destruct Hres as [->|[Hres _]]; [|congruence].
      cbn [fst snd]. split; [congruence|]. right.
      unfold create_table_if_not_exists in *. rewrite Ha in Ht. congruence.
Qed.

(** Saving a dict on a store that the first attempt reaches. *)
Lemma save_app_data_first_ok (rs : string -> Rnd)
      (items : list (string * Value)) (w : World) :
  co (connects w) = ConnOk ->
  exists w',
    save_app_data L co self rs (VDict items) w
    = (w', match save_items L self rs items (create_table_if_not_exists w) with
           | Some _ => true
           | None => false
           end)
    /\ app_table w'
       = Some (match save_items L self rs items (create_table_if_not_exists w) with
               | Some t' => t'
               | None => create_table_if_not_exists w
               end)
    /\ files w' = files w
    /\ connects w' = S (connects w).
Proof.
  intros H. unfold save_app_data, _get_connection_with_retry,
              default_max_retries.
  cbn [retry_loop]. rewrite H. unfold save_block. cbv zeta.
  change (create_table_if_not_exists
            (emit [EConnect 0] (count_connect w)))
    with (create_table_if_not_exists w).
  destruct (save_items L self rs items (create_table_if_not_exists w)) as [t'|];
    eexists; (split; [reflexivity|]); repeat split.
Qed.
End StoreProps.

(** ** Security settings when the re-save fails *)

Lemma update_security_settings_manager
      (L : Lib) (co : nat -> ConnOutcome) (self : Manager)
      (rs : string -> Rnd) (e c k : option bool) (w : World) :
  fst (fst (update_security_settings L co self rs e c k w))
  = apply_settings self e c k.
Proof.
  unfold update_security_settings.
  destruct (load_app_data L co self w) as [w1 data].
  destruct data as [|x data]; [reflexivity|].
  destruct (save_app_data L co _ rs _ w1) as [w2 ok]. reflexivity.
Qed.

(** C4 (amended). When the re-save of the loaded data fails,
    [update_security_settings] returns [False] and the stored table and the
    files are as before the call, but the manager holds the settings as they
    were assigned before the re-save: every toggle that was passed carries
    its new value, only a toggle passed as [None] keeps its old one; nothing
    restores the old settings.  And [False] is returned in no other case. *)
Theorem update_security_settings_failure_keeps_new_toggles
        (L : Lib) (co : nat -> ConnOutcome) (self : Manager)
        (rs : string -> Rnd) (e c k : option bool) (w : World) :
  let loaded := load_app_data L co self w in
  let self' := apply_settings self e c k in
  let resave := save_app_data L co self' rs (VDict (snd loaded)) (fst loaded) in
  let res := update_security_settings L co self rs e c k w in
  (snd loaded <> [] ->
   snd resave = false ->
   snd res = false
   /\ fst (fst res) = self'
   /\ enable_encryption (fst (fst res))
      = match e with Some b => b | None => enable_encryption self end
   /\ enable_compression (fst (fst res))
      = match c with Some b => b | None => enable_compression self end
   /\ enable_checksums (fst (fst res))
      = match k with Some b => b | None => enable_checksums self end
   /\ app_table (snd (fst res)) = app_table w
   /\ files (snd (fst res)) = files w)
  /\ (snd res = false -> snd loaded <> [] /\ snd resave = false).
Proof.
  cbv zeta.
  pose proof (load_app_data_frame L co self w) as [Hla Hlf].
  pose proof (load_app_data_cases L co self w) as Hcases.
  pose proof (update_security_settings_manager L co self rs e c k w) as Hm.
  unfold update_security_settings in *.
  destruct (load_app_data L co self w) as [w1 data]. cbn [fst snd] in *.
  destruct data as [|x data].
  - split; [intros H; contradiction|]. cbn. discriminate.
  - pose proof (save_app_data_inv L co (apply_settings self e c k) rs
                  (VDict (x :: data)) w1) as Hinv.
    cbv zeta in Hinv.
    destruct (save_app_data L co _ rs _ w1) as [w2 ok]. cbn [fst snd] in *.
    split.
    + intros _ ->. destruct Hinv as [Hf Ht].
      destruct Hcases as [Hc|(t & Ht0 & _)]; [discriminate Hc|].
      split; [reflexivity|]. split; [reflexivity|].
      repeat split; try congruence.
      destruct Ht as [Ht|Ht]; [congruence|].
      unfold create_table_if_not_exists in Ht. rewrite Hla, Ht0 in Ht.
      congruence.
    + intros ->. split; [discriminate|reflexivity].
Qed.

(** ** Restore *)

Lemma restore_steps_failure
      (L : Lib) (self : Manager) (backup_path : string) (w : World) :
  restore_failure L self backup_path w ->
  forall d, restore_steps L self backup_path w <> R_validated d.
Proof.
  intros H d. unfold restore_steps.
  destruct H as [Hf|c Hf Hd|c t Hf Hd Hz|c t j Hf Hd Hz Hj|c t j m Hf Hd Hz Hj Hm];
    rewrite Hf; try discriminate; rewrite Hd; try discriminate;
    rewrite Hz; try discriminate; rewrite Hj; try discriminate.
  unfold restore_validate. destruct m; try discriminate.
  rewrite (Hm _ eq_refl). discriminate.
Qed.

Lemma restore_steps_validated
      (L : Lib) (self : Manager) (backup_path : string) (w : World) (d : Value) :
  restore_steps L self backup_path w = R_validated d ->
  exists content text json_content items,
    files w !! backup_path = Some content
    /\ restore_decrypt L content = Some text
    /\ restore_decompress L self text = Some json_content
    /\ json_loads L json_content = Some (VDict items)
    /\ dict_get "app_data" items = Some d.
Proof.
  unfold restore_steps.
  destruct (files w !! backup_path) as [c|]; [|discriminate].
  destruct (restore_decrypt L c) as [t|] eqn:Hd; [|discriminate].
  destruct (restore_decompress L self t) as [j|] eqn:Hz; [|discriminate].
  destruct (json_loads L j) as [m|] eqn:Hj; [|discriminate].
  unfold restore_validate. destruct m as [| | | |l|items|]; try discriminate.
  destruct (dict_get "app_data" items) as [d'|] eqn:Hg; [|discriminate].
  intros E; inversion E; subst.
  exists c, t, j, items. repeat split; first [assumption|reflexivity].
Qed.

(** C5. [restore_database] decrypts, decompresses and parses the manifest
    and checks that it has an entry ["app_data"] before it writes: when the
    file is missing, or does not decrypt, or does not decompress, or does
    not parse, or has no ["app_data"], it returns [False] and leaves the
    world, the stored table included, exactly as it was; and whenever the
    stored table is different after a restore, all of these steps had
    succeeded and the only writer was [save_app_data] on the manifest's
    ["app_data"]. *)
Theorem restore_database_all_or_nothing
        (L : Lib) (co : nat -> ConnOutcome) (self : Manager)
        (rs : string -> Rnd) (backup_path : string) (w : World) :
  (restore_failure L self backup_path w ->
   restore_database L co self rs backup_path w = (w, false))
  /\ (forall w' ok,
         restore_database L co self rs backup_path w = (w', ok) ->
         app_table w' <> app_table w ->
         exists content text json_content items d,
           files w !! backup_path = Some content
           /\ restore_decrypt L content = Some text
           /\ restore_decompress L self text = Some json_content
           /\ json_loads L json_content = Some (VDict items)
           /\ dict_get "app_data" items = Some d
           /\ save_app_data L co self rs d w = (w', ok)).
Proof.
  split.
  - intros H. pose proof (restore_steps_failure L self backup_path w H) as Hn.
    unfold restore_database.
    destruct (restore_steps L self backup_path w); try reflexivity.
    exfalso. eapply Hn. reflexivity.
  - intros w' ok H Hne. unfold restore_database in H.
    destruct (restore_steps L self backup_path w) as [| | | | |d] eqn:Hs;
      try (inversion H; subst; contradiction).
    destruct (restore_steps_validated L self backup_path w d Hs)
      as (c & t & j & items & Hf & Hd & Hz & Hj & Hg).
    exists c, t, j, items, d. repeat split; assumption.
Qed.

(** ** The decoding search *)

Section DecodeSearch.
Context (L : Lib) (self : Manager) (s : str).

(** Every candidate ends in one of the ways of [candidate_ends]: in the
    way that the loop body takes. *)
Lemma try_attempt_ends (a : bool * bool) :
  candidate_ends L self s a (try_attempt L self s a).
Proof.
  unfold try_attempt, decode_steps, encode_utf8. destruct a as [e c].
  cbn [fst snd].
  assert (Hparse : forall p t,
             decrypt_if L e s p -> decompress_if L self c p t ->
             candidate_ends L self s (e, c)
               match json_loads L t with
               | Some v => Some v
               | None => if json_decode_error L t then Some (VStr t) else None
               end).
  { intros p t Hp Ht. destruct (json_loads L t) as [v|] eqn:Hj.
    - eapply parse_returns; eassumption.
    - destruct (json_decode_error L t) eqn:Hd.
      + eapply parse_keeps_text; eassumption.
      + eapply parse_raises; eassumption. }
  assert (Hdec : forall p,
             decrypt_if L e s p ->
             candidate_ends L self s (e, c)
               ((if c then
                   compressed_bytes ← b64decode L p;
                   CompressionManager.decompress_string L (compression_type self)
                     compressed_bytes
                 else Some p)
                ≫= (fun json_data =>
                      match json_loads L json_data with
                      | Some v => Some v
                      | None => if json_decode_error L json_data
                                then Some (VStr json_data) else None
                      end))).
  { intros p Hp. destruct c.
    - destruct (b64decode L p) as [cb|] eqn:Hb; cbn [mbind option_bind].
      + destruct (CompressionManager.decompress_string L _ cb) as [t|] eqn:Hz;
          cbn [mbind option_bind].
        * apply (Hparse p t Hp). exists cb. split; assumption.
        * apply (decompress_raises L self s (e, true) p Hp eq_refl).
          intros c' Hc'. congruence.
      + apply (decompress_raises L self s (e, true) p Hp eq_refl).
        intros c' Hc'. congruence.
    - cbn [mbind option_bind]. apply (Hparse p p Hp). reflexivity. }
  destruct e.
  - destruct (EncryptionManager.decrypt_string L s) as [p|] eqn:Hd;
      cbn [mbind option_bind].
    + apply Hdec. exact Hd.
    + apply decrypt_raises; [reflexivity|exact Hd].
  - cbn [mbind option_bind]. apply Hdec. reflexivity.
Qed.

Lemma decrypt_if_eq (e : bool) (p : str) :
  decrypt_if L e s p ->
  (if e then EncryptionManager.decrypt_string L s else Some s) = Some p.
Proof. unfold decrypt_if. destruct e; congruence. Qed.

Lemma decompress_if_eq (c : bool) (p t : str) :
  decompress_if L self c p t ->
  (if c then
     compressed_bytes ← b64decode L p;
     CompressionManager.decompress_string L (compression_type self)
       compressed_bytes
   else Some p) = Some t.
Proof.
  unfold decompress_if. destruct c; [|congruence].
  intros (cb & Hb & Hz). rewrite Hb. exact Hz.
Qed.

(** A candidate ends in one way only. *)
Lemma candidate_ends_unique (a : bool * bool) (o : option Value) :
  candidate_ends L self s a o -> try_attempt L self s a = o.
Proof.
  unfold try_attempt, decode_steps, encode_utf8.
  destruct a as [e c]. cbn [fst snd].
  intros H. inversion H as [He Hd|p Hp Hc Hz|p t Hp Ht Hj Hx|p t v Hp Ht Hj
                            |p t Hp Ht Hj Hx]; cbn [fst snd] in *.
  - rewrite He, Hd. reflexivity.
  - apply decrypt_if_eq in Hp. rewrite Hp, Hc. cbn [mbind option_bind].
    destruct (b64decode L p) as [cb|]; cbn [mbind option_bind]; [|reflexivity].
    rewrite (Hz cb eq_refl). reflexivity.
  - apply decrypt_if_eq in Hp. apply decompress_if_eq in Ht.
    rewrite Hp. cbn [mbind option_bind]. rewrite Ht. cbn [mbind option_bind].
    rewrite Hj, Hx. reflexivity.
  - apply decrypt_if_eq in Hp. apply decompress_if_eq in Ht.
    rewrite Hp. cbn [mbind option_bind]. rewrite Ht. cbn [mbind option_bind].
    rewrite Hj. reflexivity.
  - apply decrypt_if_eq in Hp. apply decompress_if_eq in Ht.
    rewrite Hp. cbn [mbind option_bind]. rewrite Ht. cbn [mbind option_bind].
    rewrite Hj, Hx. reflexivity.
Qed.

(** The loop returns what the first accepted candidate gives. *)
Lemma attempts_loop_first (pre post : list (bool * bool)) (a : bool * bool)
      (v : Value) :
  Forall (fun b => candidate_ends L self s b None) pre ->
  candidate_ends L self s a (Some v) ->
  attempts_loop L self s (pre ++ a :: post) = Some v.
Proof.
  intros Hpre Ha. induction pre as [|b pre IH]; cbn [app attempts_loop].
  - rewrite (candidate_ends_unique a _ Ha). reflexivity.
  - inversion Hpre as [|x l Hb Hl]; subst.
    rewrite (candidate_ends_unique b _ Hb). apply IH. exact Hl.
Qed.

(** It falls through when every candidate is rejected. *)
Lemma attempts_loop_none (l : list (bool * bool)) :
  Forall (fun b => candidate_ends L self s b None) l ->
  attempts_loop L self s l = None.
Proof.
  intros H. induction l as [|b l IH]; cbn [attempts_loop]; [reflexivity|].
  inversion H as [|x l' Hb Hl]; subst.
  rewrite (candidate_ends_unique b _ Hb). apply IH. exact Hl.
Qed.

(** The candidate without decryption and decompression is rejected only by
    an exception of the parse that is not a [json.JSONDecodeError]. *)
Lemma plain_candidate_rejected :
  candidate_ends L self s (false, false) None ->
  json_loads L s = None /\ json_decode_error L s = false.
Proof.
  intros H. apply candidate_ends_unique in H.
  unfold try_attempt, decode_steps in H. cbn [fst snd mbind option_bind] in H.
  destruct (json_loads L s); [discriminate H|].
  destruct (json_decode_error L s); [discriminate H|]. split; reflexivity.
Qed.
End DecodeSearch.

(** C2 (amended). An empty payload decodes to [None] without any candidate
    being tried.  For every non-empty stored payload, decode goes through
    the four candidates (current configuration; encryption off; compression
    off; neither) in this order, applying decrypt-if-flagged, then
    decompress-if-flagged, then the parse, and returns what the first
    accepted candidate gives, whatever rejected the earlier ones.  A
    candidate is rejected when a step raises; for the parse this means an
    exception other than [json.JSONDecodeError].  On a
    [json.JSONDecodeError] the candidate is accepted all the same, with its
    text as a string.  Every candidate ends in one of these ways. *)
Theorem unsecure_data_first_decodable_candidate
        (L : Lib) (self : Manager) (s : str) :
  _unsecure_data L self "" = VNone
  /\ (forall a, exists o, candidate_ends L self s a o)
  /\ (is_empty s = false ->
      forall (pre post : list (bool * bool)) (a : bool * bool) (v : Value),
        [ (enable_encryption self, enable_compression self);
          (false, enable_compression self);
          (enable_encryption self, false);
          (false, false) ] = (pre ++ a :: post)%list ->
        Forall (fun b => candidate_ends L self s b None) pre ->
        candidate_ends L self s a (Some v) ->
        _unsecure_data L self s = v).
Proof.
  split; [reflexivity|].
  split; [intros a; eexists; apply try_attempt_ends|].
  intros Hne pre post a v Hl Hpre Ha.
  unfold _unsecure_data, attempts. rewrite Hne, Hl.
  rewrite (attempts_loop_first L self s pre post a v Hpre Ha). reflexivity.
Qed.

(** ** Loading *)

Lemma dict_get_load_rows
      (L : Lib) (self : Manager) (rows : list (string * string))
      (k : string) (s : string) :
  NoDup (rows.*1) -> (k, s) ∈ rows ->
  dict_get k (load_rows L self rows) = Some (_unsecure_data L self s).
Proof.
  induction rows as [|[k' s'] rows IH]; intros Hnd Hin.
  - apply elem_of_nil in Hin. contradiction.
  - cbn in Hnd. apply NoDup_cons in Hnd as [Hk' Hnd].
    apply elem_of_cons in Hin.
    cbn [load_rows map dict_get].
    destruct (String.eqb_spec k' k) as [->|Hne].
    + destruct Hin as [Heq|Hin]; [inversion Heq; reflexivity|].
      exfalso. apply Hk'. apply list_elem_of_fmap. exists (k, s). split; auto.
    + destruct Hin as [Heq|Hin]; [inversion Heq; congruence|].
      apply IH; assumption.
Qed.

Lemma dict_get_load_rows_none
      (L : Lib) (self : Manager) (rows : list (string * string)) (k : string) :
  k ∉ rows.*1 -> dict_get k (load_rows L self rows) = None.
Proof.
  induction rows as [|[k' s'] rows IH]; intros Hk; [reflexivity|].
  cbn in Hk. apply not_elem_of_cons in Hk as [Hne Hk].
  cbn [load_rows map dict_get].
  destruct (String.eqb_spec k' k) as [->|_]; [contradiction|].
  apply IH. exact Hk.
Qed.

(** C3 (amended). Decoding a stored payload never fails.  When every one of
    the four candidates is rejected (for the last of them, which neither
    decrypts nor decompresses, this takes an exception of the parse that is
    not a [json.JSONDecodeError]), the final attempt parses the raw text
    once more and, as that raises again, returns the raw text as a string.
    Hence [load_app_data] omits no key: when the store is reached within the
    five attempts, the table exists and every cell is UTF-8 text, the loaded
    dict has an entry for every stored key, with the decoded payload, and no
    other entry.  It returns the empty dict when the table is missing, when
    no attempt reaches the store, and when a cell is not UTF-8 text (then
    [fetchall] raises). *)
Theorem load_app_data_keeps_every_key
        (L : Lib) (co : nat -> ConnOutcome) (self : Manager) (w : World) :
  let loaded := snd (load_app_data L co self w) in
  (forall s,
      is_empty s = false ->
      Forall (fun a => candidate_ends L self s a None)
             [ (enable_encryption self, enable_compression self);
               (false, enable_compression self);
               (enable_encryption self, false);
               (false, false) ] ->
      _unsecure_data L self s = VStr s)
  /\ (forall t,
         app_table w = Some t ->
         cells_utf8 L t ->
         (exists k, reaches co (connects w) k) ->
         (forall key s, t !! key = Some s ->
                        dict_get key loaded = Some (_unsecure_data L self s))
         /\ (forall key, t !! key = None -> dict_get key loaded = None))
  /\ (app_table w = None -> loaded = [])
  /\ ((forall k, ~ reaches co (connects w) k) -> loaded = [])
  /\ (forall t, app_table w = Some t -> ~ cells_utf8 L t -> loaded = []).
Proof.
  cbv zeta. split.
  { intros s Hne Hall. unfold _unsecure_data, attempts. rewrite Hne.
    rewrite (attempts_loop_none L self s _ Hall).
    assert (Hlast : candidate_ends L self s (false, false) None).
    { inversion Hall as [|? ? _ H1]; subst.
      inversion H1 as [|? ? _ H2]; subst.
      inversion H2 as [|? ? _ H3]; subst.
      inversion H3 as [|? ? H4 _]; subst. exact H4. }
    destruct (plain_candidate_rejected L self s Hlast) as [Hj _].
    rewrite Hj. reflexivity. }
  split.
  { intros t Ht Hc [k Hk].
    destruct (load_app_data_reached L co self w k t Hk Ht Hc)
      as (w' & -> & _). cbn [snd]. split.
    - intros key s Hs. apply dict_get_load_rows.
      + apply NoDup_fst_map_to_list.
      + apply elem_of_map_to_list. exact Hs.
    - intros key Hs. apply dict_get_load_rows_none. intros Hin.
      apply list_elem_of_fmap in Hin as ([k' s'] & -> & Hin).
      apply elem_of_map_to_list in Hin. cbn in Hs. congruence. }
  split.
  { intros H. apply load_app_data_unreadable. left. exact H. }
  split.
  { intros H. apply load_app_data_unreadable. right. right. exact H. }
  intros t Ht Hn. apply load_app_data_unreadable. right. left.
  exists t. split; assumption.
Qed.

(** ** Round trip through the codec *)

(** On non-empty data [compress_bytes] is the library that the compression
    type names, at the clamped level, and [decompress_bytes] is its
    inverse. *)
Lemma compress_bytes_library
      (L : Lib) (t : CompressionType) (r : Rnd) (data : bytes) (lvl : Z) :
  is_empty data = false ->
  CompressionManager.compress_bytes L t r data lvl
  = library_compress L t r data (Z.max 1 (Z.min 9 lvl)).
Proof.
  intros H. unfold CompressionManager.compress_bytes. rewrite H.
  destruct t; reflexivity.
Qed.

Lemma decompress_bytes_library
      (L : Lib) (t : CompressionType) (stream : bytes) :
  is_empty stream = false ->
  CompressionManager.decompress_bytes L t stream
  = library_decompress L t stream.
Proof.
  intros H. unfold CompressionManager.decompress_bytes. rewrite H.
  destruct t; reflexivity.
Qed.

(** [decompress_string] undoes [compress_string] on a non-empty UTF-8 text
    that the library maps to a stream and back. *)
Lemma decompress_compress_string
      (L : Lib) (t : CompressionType) (r : Rnd) (text : str) (lvl : Z) :
  is_empty text = false ->
  utf8_valid L text = true ->
  library_inverts L t r text (Z.max 1 (Z.min 9 lvl)) ->
  CompressionManager.compress_string L t r text lvl
  = library_compress L t r text (Z.max 1 (Z.min 9 lvl))
  /\ CompressionManager.decompress_string L t
       (library_compress L t r text (Z.max 1 (Z.min 9 lvl))) = Some text.
Proof.
  intros Hne Hu [Hc Hd].
  unfold CompressionManager.compress_string,
    CompressionManager.decompress_string, encode_utf8, decode_utf8.
  rewrite Hne, compress_bytes_library by exact Hne.
  split; [reflexivity|].
  rewrite Hc, decompress_bytes_library by exact Hc.
  rewrite Hd, Hu. reflexivity.
Qed.

Section RoundTrip.
Context (L : Lib) (self : Manager) (r : Rnd).

(** The candidate of the current configuration undoes [_secure_data]. *)
Lemma decode_steps_secure_data (data : Value) :
  data <> VNone ->
  codec_faithful L self r (json_text L data) ->
  is_empty (_secure_data L self r data) = false
  /\ decode_steps L self (enable_encryption self) (enable_compression self)
                  (_secure_data L self r data)
     = Some (json_text L data).
Proof.
  intros Hn [Hne Hutf Hcomp Henc].
  assert (Hsec : _secure_data L self r data
                 = let processed_data :=
                       if enable_compression self then
                         b64encode L
                           (CompressionManager.compress_string L
                              (compression_type self) r (json_text L data)
                              (compression_level self))
                       else json_text L data in
                   if enable_encryption self then
                     EncryptionManager.encrypt_string L r processed_data
                   else processed_data).
  { unfold _secure_data, json_text in *.
    destruct data; try contradiction; reflexivity. }
  rewrite Hsec. clear Hsec. cbv zeta.
  unfold decode_steps, EncryptionManager.encrypt_string,
    EncryptionManager.decrypt_string, encode_utf8.
  destruct (enable_compression self) eqn:Ec;
    destruct (enable_encryption self) eqn:Ee.
  - destruct (Hcomp eq_refl) as (Hinv & Hc3 & Hc4 & Hc5).
    destruct (Henc eq_refl) as (He1 & He2 & He3).
    destruct (decompress_compress_string L (compression_type self) r
                (json_text L data) (compression_level self) Hne Hutf Hinv)
      as [-> Hd].
    rewrite Hc4, He1. split; [reflexivity|].
    cbn [mbind option_bind]. rewrite He2. cbn [mbind option_bind].
    rewrite He3. cbn [mbind option_bind]. unfold decode_utf8 at 1.
    rewrite Hc5. cbn [mbind option_bind]. rewrite Hc3.
    cbn [mbind option_bind]. exact Hd.
  - destruct (Hcomp eq_refl) as (Hinv & Hc3 & Hc4 & Hc5).
    destruct (decompress_compress_string L (compression_type self) r
                (json_text L data) (compression_level self) Hne Hutf Hinv)
      as [-> Hd].
    split; [exact Hc4|].
    cbn [mbind option_bind]. rewrite Hc3. cbn [mbind option_bind]. exact Hd.
  - destruct (Henc eq_refl) as (He1 & He2 & He3).
    rewrite Hne, He1. split; [reflexivity|].
    cbn [mbind option_bind]. rewrite He2. cbn [mbind option_bind].
    rewrite He3. cbn [mbind option_bind]. unfold decode_utf8.
    rewrite Hutf. reflexivity.
  - split; [exact Hne|reflexivity].
Qed.

(** Decoding what was just encoded gives the JSON reading of the text that
    was encoded, or that text when [json.loads] raises
    [json.JSONDecodeError] on it. *)
Lemma unsecure_secure_data (data : Value) :
  data <> VNone ->
  codec_faithful L self r (json_text L data) ->
  (forall x, json_loads L (json_text L data) = Some x ->
             _unsecure_data L self (_secure_data L self r data) = x)
  /\ (json_loads L (json_text L data) = None ->
      json_decode_error L (json_text L data) = true ->
      _unsecure_data L self (_secure_data L self r data)
      = VStr (json_text L data)).
Proof.
  intros Hn Hf.
  destruct (decode_steps_secure_data data Hn Hf) as [Hne Hs].
  assert (Hfirst : _unsecure_data L self (_secure_data L self r data)
                   = match try_attempt L self (_secure_data L self r data)
                             (enable_encryption self, enable_compression self)
                     with
                     | Some v => v
                     | None => _unsecure_data L self (_secure_data L self r data)
                     end).
  { unfold _unsecure_data. rewrite Hne. unfold attempts.
    cbn [attempts_loop]. destruct (try_attempt L self _ _); reflexivity. }
  rewrite Hfirst. clear Hfirst. unfold try_attempt. cbn [fst snd].
  rewrite Hs. cbn [mbind option_bind]. split.
  - intros x E. rewrite E. reflexivity.
  - intros E1 E2. rewrite E1, E2. reflexivity.
Qed.
End RoundTrip.

(** A value that reads back comes back. *)
Lemma unsecure_secure_reads_back
      (L : Lib) (self : Manager) (r : Rnd) (v : Value) :
  codec_faithful L self r (json_text L v) ->
  reads_back L v ->
  _unsecure_data L self (_secure_data L self r v) = v.
Proof.
  intros Hf Hrb. destruct Hrb as [v' Hdl Hjson|s Hstr Hjson Hde].
  - assert (Hn : v' <> VNone) by (destruct v'; discriminate).
    destruct (unsecure_secure_data L self r v' Hn Hf) as [H1 _].
    apply H1. unfold json_text. rewrite Hdl. exact Hjson.
  - destruct (unsecure_secure_data L self r (VStr s) ltac:(discriminate) Hf)
      as [_ H2].
    unfold json_text in H2. cbn [is_dict_or_list] in H2.
    rewrite Hstr in H2. exact (H2 Hjson Hde).
Qed.

(** C1 (amended). For every configuration (encryption on or off,
    compression on or off, any of the five compression types, any level) and
    every value on which [_secure_data] does not raise, decoding the
    encoding under the unchanged configuration returns [None] for [None];
    returns [v] for a dict or a list [v], and for a non-empty string [v] on
    which [json.loads] raises [json.JSONDecodeError]; returns the value that
    the text denotes for a string that is JSON text; and returns [None] for
    the empty string.  The libraries are taken to be faithful on the buffers
    of that run: JSON reads back what it printed, the compressor that the
    compression type names is inverted by its own inverse at the clamped
    level, base64 and the cipher are inverted. *)
Theorem secure_data_round_trip
        (L : Lib) (self : Manager) (r : Rnd) :
  _unsecure_data L self (_secure_data L self r VNone) = VNone
  /\ (py_str L (VStr "") = "" ->
      b64encode L "" = "" ->
      _unsecure_data L self (_secure_data L self r (VStr "")) = VNone)
  /\ (forall v,
         secure_data_raises L self v = false ->
         codec_faithful L self r (json_text L v) ->
         (reads_back L v ->
          _unsecure_data L self (_secure_data L self r v) = v)
         /\ (forall s x,
                v = VStr s ->
                py_str L (VStr s) = s ->
                json_loads L s = Some x ->
                _unsecure_data L self (_secure_data L self r v) = x)).
Proof.
  split; [reflexivity|]. split.
  - intros Hs Hb. unfold _secure_data. cbn [is_dict_or_list]. rewrite Hs.
    unfold CompressionManager.compress_string, EncryptionManager.encrypt_string.
    cbn [is_empty]. rewrite Hb.
    destruct (enable_compression self), (enable_encryption self); reflexivity.
  - intros v _ Hf. split.
    + apply unsecure_secure_reads_back. exact Hf.
    + intros s x -> Hstr Hjson.
      destruct (unsecure_secure_data L self r (VStr s) ltac:(discriminate) Hf)
        as [H1 _].
      apply H1. unfold json_text. cbn [is_dict_or_list]. rewrite Hstr.
      exact Hjson.
Qed.

(** ** Backup *)


(** * The reference instance at work *)

(** The round trip of the specification's test list, run on every
    configuration: an empty map, a nested structure, a string that is not
    JSON, a list of a hundred items. *)
Example round_trip_on_all_configurations :
  Forall (fun self =>
            Forall (fun v =>
                      _unsecure_data Ref.lib self
                        (_secure_data Ref.lib self Ref.rnd0 v) = v)
                   [ VDict []; Scenario.requirements; VStr "héllo wörld";
                     VList (repeat (VInt 7) 100); VNone ])
         Scenario.all_configurations.
Proof.
  let l := eval vm_compute in Scenario.all_configurations in
  change Scenario.all_configurations with l.
  repeat match goal with
         | |- Forall _ [] => constructor
         | |- Forall _ (_ :: _) => constructor; cbv beta
         end;
    vm_compute; reflexivity.
Qed.

(** A payload written in plain form is read under any later configuration:
    the last candidate parses it. *)
Example plain_payload_read_under_every_configuration :
  Forall (fun self =>
            _unsecure_data Ref.lib self
              (_secure_data Ref.lib (Ref.manager false false GZIP) Ref.rnd0
                            Scenario.requirements)
            = Scenario.requirements)
         Scenario.all_configurations.
Proof.
  let l := eval vm_compute in Scenario.all_configurations in
  change Scenario.all_configurations with l.
  repeat match goal with
         | |- Forall _ [] => constructor
         | |- Forall _ (_ :: _) => constructor; cbv beta
         end;
    vm_compute; reflexivity.
Qed.

(** Once compression is switched off, no candidate decompresses: a payload
    written with compression on comes back as its stored text. *)
Example compressed_payload_after_switching_off :
  _unsecure_data Ref.lib (Ref.manager false false GZIP)
    (_secure_data Ref.lib (Ref.manager false true GZIP) Ref.rnd0
                  Scenario.requirements)
  = VStr (_secure_data Ref.lib (Ref.manager false true GZIP) Ref.rnd0
                       Scenario.requirements).
Proof. vm_compute. reflexivity. Qed.

(** SHA-256 on the test vector of FIPS 180-4. *)
Example sha256_abc :
  Ref.sha256_hexdigest "abc"
  = "ba7816bf8f01cfea414140de5dae2223b00361a396177a9cb410ff61f20015ad".
Proof. vm_compute. reflexivity. Qed.

(** Checksum sensitivity on a sample: each of the 1275 one-byte changes of
    [hello] is rejected against the hash of [hello]. *)
Example single_byte_changes_of_hello_rejected :
  length (Scenario.single_byte_changes "" "hello") = 1275%nat
  /\ forallb (fun d' =>
                negb (DataIntegrityManager.verify_hash Ref.lib d'
                        (DataIntegrityManager.calculate_hash Ref.lib "hello")))
             (Scenario.single_byte_changes "" "hello")
     = true.
Proof. vm_compute. split; reflexivity. Qed.

(** A string on which the parse raises something else than
    [json.JSONDecodeError] is outside the round trip: with compression on,
    the candidates that decompress are rejected by the parse, and the text
    comes back as its stored base64 text. *)
Example deeply_nested_text_comes_back_as_payload :
  json_loads Ref.lib Scenario.brackets = None
  /\ json_decode_error Ref.lib Scenario.brackets = false
  /\ _unsecure_data Ref.lib (Ref.manager false true GZIP)
       (_secure_data Ref.lib (Ref.manager false true GZIP) Ref.rnd0
                     (VStr Scenario.brackets))
     = VStr (_secure_data Ref.lib (Ref.manager false true GZIP) Ref.rnd0
                          (VStr Scenario.brackets)).
Proof.
  split; [vm_compute; reflexivity|]. split; vm_compute; reflexivity.
Qed.

(** A cell that is not UTF-8 text empties the loaded dict, and
    [update_security_settings] then reports success without re-encoding
    anything. *)
Example undecodable_cell_empties_the_load :
  snd (load_app_data Ref.lib Scenario.reachable Manager_init
                     Scenario.damaged_world) = []
  /\ snd (update_security_settings Ref.lib Scenario.reachable Manager_init
            Scenario.no_rnd (Some false) (Some false) None
            Scenario.damaged_world) = true
  /\ app_table
       (snd (fst (update_security_settings Ref.lib Scenario.reachable
                    Manager_init Scenario.no_rnd (Some false) (Some false) None
                    Scenario.damaged_world)))
     = app_table Scenario.damaged_world.
Proof. vm_compute. repeat split. Qed.

(** A failed save on a store without a table leaves the table behind,
    empty: here the dict holds an enum member inside a list, on which
    [json.dumps] raises. *)
Example failed_save_leaves_the_table :
  save_app_data Ref.lib Scenario.reachable Manager_init Scenario.no_rnd
    (VDict [("handovers", VList [Scenario.theme_light])]) Scenario.empty_world
  = ({| app_table := Some ∅; files := ∅; connects := 1;
        trace := [EConnect 0; ERollback; EClose] |}, false).
Proof. vm_compute. reflexivity. Qed.

(** Under ["theme_mode"] the member [ThemeMode.LIGHT] is stored as its
    value ["light"], under any other key as its name. *)
Example theme_mode_is_stored_by_value :
  value_to_secure Ref.lib "theme_mode" Scenario.theme_light = VStr "light"
  /\ value_to_secure Ref.lib "theme_mode" (VStr "dark") = VStr "dark"
  /\ _secure_data Ref.lib (Ref.manager false false NONE) Ref.rnd0
                  (value_to_secure Ref.lib "theme_mode" Scenario.theme_light)
     = "light"
  /\ _secure_data Ref.lib (Ref.manager false false NONE) Ref.rnd0
                  (value_to_secure Ref.lib "mode" Scenario.theme_light)
     = "ThemeMode.LIGHT".
Proof. vm_compute. repeat split. Qed.

(** ** Where the statements of the specification fail *)

(** C1, as stated, fails: a string that is itself JSON text comes back as
    the value it denotes, and the empty string comes back as [None]. *)
Lemma round_trip_fails_on_json_text :
  _unsecure_data Ref.lib (Ref.manager false false NONE)
    (_secure_data Ref.lib (Ref.manager false false NONE) Ref.rnd0 (VStr "123"))
  <> VStr "123"
  /\ _unsecure_data Ref.lib (Ref.manager true true GZIP)
       (_secure_data Ref.lib (Ref.manager true true GZIP) Ref.rnd0 (VStr "123"))
     <> VStr "123"
  /\ _unsecure_data Ref.lib (Ref.manager true true GZIP)
       (_secure_data Ref.lib (Ref.manager true true GZIP) Ref.rnd0 (VStr ""))
     <> VStr "".
Proof. vm_compute. repeat split; discriminate. Qed.

(** C2, as stated, fails: with compression on (type [none], or [gzip]),
    the first candidate decodes the quoted payload to [hello], which is not
    JSON, and decode returns that text; the first candidate of which every
    step succeeds, the parse included, is the third, whose result is the
    string between the quotes. *)
Lemma first_fully_successful_candidate_is_not_returned :
  (spec_first_accepted Ref.lib (Ref.manager false true NONE)
     Scenario.quoted_base64 (attempts (Ref.manager false true NONE))
   = Some (VStr "aGVsbG8=")
   /\ _unsecure_data Ref.lib (Ref.manager false true NONE) Scenario.quoted_base64
      <> VStr "aGVsbG8=")
  /\ (spec_first_accepted Ref.lib (Ref.manager false true GZIP)
        Scenario.quoted_base64_gzip (attempts (Ref.manager false true GZIP))
      = Some (VStr (Ref.b64encode (Ref.gzip_compress 0 "hello" 6)))
      /\ _unsecure_data Ref.lib (Ref.manager false true GZIP)
                        Scenario.quoted_base64_gzip
         <> VStr (Ref.b64encode (Ref.gzip_compress 0 "hello" 6))).
Proof. vm_compute. repeat split; discriminate. Qed.

(** C3, as stated, fails: no candidate parses the payload [hello] and the
    raw text does not parse either, yet the key is in the loaded map. *)
Lemma undecodable_record_is_not_omitted :
  spec_decode Ref.lib (Ref.manager false false GZIP) "hello" = None
  /\ dict_get "k"
       (snd (load_app_data Ref.lib Scenario.reachable
                           (Ref.manager false false GZIP) Scenario.legacy_world))
     <> None.
Proof. vm_compute. split; [reflexivity|discriminate]. Qed.

(** C4, as stated, fails: the re-save fails, the call returns [False], and
    encryption is off although it was on before the call. *)
Lemma failed_update_changes_toggles :
  snd (update_security_settings Ref.lib Scenario.fails_after_first Manager_init
         Scenario.no_rnd (Some false) None None Scenario.plain_world) = false
  /\ enable_encryption
       (fst (fst (update_security_settings Ref.lib Scenario.fails_after_first
                    Manager_init Scenario.no_rnd (Some false) None None
                    Scenario.plain_world)))
     <> enable_encryption Manager_init.
Proof. vm_compute. split; [reflexivity|discriminate]. Qed.


(** ** The theorems at concrete inputs *)

Lemma secure_data_round_trip_witness :
  (secure_data_raises Ref.lib (Ref.manager true true LZMA)
                      Scenario.requirements = false
   /\ codec_faithful Ref.lib (Ref.manager true true LZMA) Ref.rnd0
                     (json_text Ref.lib Scenario.requirements)
   /\ reads_back Ref.lib Scenario.requirements)
  /\ _unsecure_data Ref.lib (Ref.manager true true LZMA)
       (_secure_data Ref.lib (Ref.manager true true LZMA) Ref.rnd0
                     Scenario.requirements)
     = Scenario.requirements
  /\ _unsecure_data Ref.lib (Ref.manager true true LZMA)
       (_secure_data Ref.lib (Ref.manager true true LZMA) Ref.rnd0
                     (VStr "123"))
     = VInt 123
  /\ _unsecure_data Ref.lib (Ref.manager true true LZMA)
       (_secure_data Ref.lib (Ref.manager true true LZMA) Ref.rnd0 (VStr ""))
     = VNone.
Proof.
  assert (H0 : secure_data_raises Ref.lib (Ref.manager true true LZMA)
                                  Scenario.requirements = false)
    by (vm_compute; reflexivity).
  assert (H1 : reads_back Ref.lib Scenario.requirements)
    by (apply reads_back_structured; vm_compute; reflexivity).
  assert (H2 : codec_faithful Ref.lib (Ref.manager true true LZMA) Ref.rnd0
                              (json_text Ref.lib Scenario.requirements))
    by (constructor; intros; vm_compute; repeat split).
  assert (H3 : secure_data_raises Ref.lib (Ref.manager true true LZMA)
                                  (VStr "123") = false)
    by (vm_compute; reflexivity).
  assert (H4 : codec_faithful Ref.lib (Ref.manager true true LZMA) Ref.rnd0
                              (json_text Ref.lib (VStr "123")))
    by (constructor; intros; vm_compute; repeat split).
  pose proof (secure_data_round_trip Ref.lib (Ref.manager true true LZMA)
                                     Ref.rnd0) as (_ & Hempty & Hrt).
  exact (conj (conj H0 (conj H2 H1))
           (conj (proj1 (Hrt Scenario.requirements H0 H2) H1)
              (conj (proj2 (Hrt (VStr "123") H3 H4) "123" (VInt 123)
                           eq_refl eq_refl eq_refl)
                    (Hempty eq_refl eq_refl)))).
Defined.

Lemma unsecure_data_first_decodable_candidate_witness :
  is_empty "[1]" = false
  /\ candidate_ends Ref.lib (Ref.manager true false GZIP) "[1]" (true, false)
                    None
  /\ candidate_ends Ref.lib (Ref.manager true false GZIP) "[1]" (false, false)
                    (Some (VList [VInt 1]))
  /\ _unsecure_data Ref.lib (Ref.manager true false GZIP) "[1]"
     = VList [VInt 1].
Proof.
  assert (H1 : is_empty "[1]" = false) by reflexivity.
  assert (H2 : candidate_ends Ref.lib (Ref.manager true false GZIP) "[1]"
                              (true, false) None)
    by (apply decrypt_raises; vm_compute; reflexivity).
  assert (H3 : candidate_ends Ref.lib (Ref.manager true false GZIP) "[1]"
                              (false, false) (Some (VList [VInt 1])))
    by (apply (parse_returns _ _ _ _ "[1]" "[1]"); vm_compute; reflexivity).
  exact (conj H1 (conj H2 (conj H3
           (proj2 (proj2 (unsecure_data_first_decodable_candidate
                            Ref.lib (Ref.manager true false GZIP) "[1]"))
                  H1 [(true, false)] [(true, false); (false, false)]
                  (false, false) (VList [VInt 1]) eq_refl
                  ltac:(constructor; [exact H2|constructor]) H3)))).
Defined.

Lemma load_app_data_keeps_every_key_witness :
  (app_table Scenario.legacy_world = Some {[ "k" := "hello" ]}
   /\ cells_utf8 Ref.lib {[ "k" := "hello" ]}
   /\ reaches Scenario.locked_twice (connects Scenario.legacy_world) 2)
  /\ dict_get "k"
       (snd (load_app_data Ref.lib Scenario.locked_twice
               (Ref.manager false false GZIP) Scenario.legacy_world))
     = Some (_unsecure_data Ref.lib (Ref.manager false false GZIP) "hello").
Proof.
  assert (H1 : app_table Scenario.legacy_world = Some {[ "k" := "hello" ]})
    by reflexivity.
  assert (H2 : cells_utf8 Ref.lib {[ "k" := "hello" ]})
    by (apply cells_utf8_decodable; vm_compute; reflexivity).
  assert (H3 : reaches Scenario.locked_twice (connects Scenario.legacy_world) 2).
  { split; [unfold default_max_retries; lia|]. split; [|reflexivity].
    intros j Hj. destruct j as [|[|j]]; [reflexivity|reflexivity|lia]. }
  refine (conj (conj H1 (conj H2 H3)) _).
  refine (proj1 (proj1 (proj2 (load_app_data_keeps_every_key
                                 Ref.lib Scenario.locked_twice
                                 (Ref.manager false false GZIP)
                                 Scenario.legacy_world))
                       {[ "k" := "hello" ]} H1 H2 (ex_intro _ 2%nat H3))
                "k" "hello" _).
  vm_compute. reflexivity.
Defined.

Lemma update_security_settings_failure_witness :
  (snd (load_app_data Ref.lib Scenario.fails_after_first Manager_init
                      Scenario.plain_world) <> []
   /\ snd (save_app_data Ref.lib Scenario.fails_after_first
             (apply_settings Manager_init (Some false) None None)
             Scenario.no_rnd
             (VDict (snd (load_app_data Ref.lib Scenario.fails_after_first
                            Manager_init Scenario.plain_world)))
             (fst (load_app_data Ref.lib Scenario.fails_after_first
                     Manager_init Scenario.plain_world))) = false)
  /\ snd (update_security_settings Ref.lib Scenario.fails_after_first
            Manager_init Scenario.no_rnd (Some false) None None
            Scenario.plain_world) = false
  /\ fst (fst (update_security_settings Ref.lib Scenario.fails_after_first
                 Manager_init Scenario.no_rnd (Some false) None None
                 Scenario.plain_world))
     = apply_settings Manager_init (Some false) None None.
Proof.
  assert (H1 : snd (load_app_data Ref.lib Scenario.fails_after_first
                      Manager_init Scenario.plain_world) <> [])
    by (vm_compute; discriminate).
  assert (H2 : snd (save_app_data Ref.lib Scenario.fails_after_first
                      (apply_settings Manager_init (Some false) None None)
                      Scenario.no_rnd
                      (VDict (snd (load_app_data Ref.lib
                                     Scenario.fails_after_first Manager_init
                                     Scenario.plain_world)))
                      (fst (load_app_data Ref.lib Scenario.fails_after_first
                              Manager_init Scenario.plain_world))) = false)
    by (vm_compute; reflexivity).
  pose proof (proj1 (update_security_settings_failure_keeps_new_toggles
                       Ref.lib Scenario.fails_after_first Manager_init
                       Scenario.no_rnd (Some false) None None
                       Scenario.plain_world) H1 H2) as (Hr & Hm & _).
  exact (conj (conj H1 H2) (conj Hr Hm)).
Defined.
Lemma restore_database_all_or_nothing_witness :
  restore_failure Ref.lib Manager_init "backups/missing.bms" Scenario.plain_world
  /\ restore_database Ref.lib Scenario.reachable Manager_init Scenario.no_rnd
                      "backups/missing.bms" Scenario.plain_world
     = (Scenario.plain_world, false).
Proof.
  assert (H1 : restore_failure Ref.lib Manager_init "backups/missing.bms"
                               Scenario.plain_world)
    by (apply missing_file; reflexivity).
  exact (conj H1
           (proj1 (restore_database_all_or_nothing
                     Ref.lib Scenario.reachable Manager_init Scenario.no_rnd
                     "backups/missing.bms" Scenario.plain_world) H1)).
Defined.

Lemma connection_retry_bound_witness :
  (forall n, raises_locked (Scenario.always_locked n) = true)
  /\ (exists w' tr e,
         _get_connection_with_retry Scenario.always_locked default_max_retries
           default_retry_delay (fun w => (w, Ok tt)) Scenario.plain_world
         = (w', Raised e)
         /\ is_locked_error e = true
         /\ (exists asg,
                Scenario.always_locked (connects Scenario.plain_world + 4)%nat
                = ConnRaises e asg)
         /\ trace w' = (trace Scenario.plain_world ++ tr)%list
         /\ attempts_in tr = 5%nat
         /\ schedule_in tr
            = [ EConnect 0; ESleep (default_retry_delay * inject_Z (2 ^ 0));
                EConnect 1; ESleep (default_retry_delay * inject_Z (2 ^ 1));
                EConnect 2; ESleep (default_retry_delay * inject_Z (2 ^ 2));
                EConnect 3; ESleep (default_retry_delay * inject_Z (2 ^ 3));
                EConnect 4 ]
         /\ Forall2 Qeq (sleeps_in tr) [ms 100; ms 200; ms 400; ms 800]
         /\ app_table w' = app_table Scenario.plain_world
         /\ files w' = files Scenario.plain_world)
  /\ ((forall j, (j < 1)%nat ->
                 raises_locked
                   (Scenario.locked_then_io_error
                      (connects Scenario.plain_world + j)%nat) = true)
      /\ Scenario.locked_then_io_error (connects Scenario.plain_world + 1)%nat
         = ConnRaises (OperationalError "disk I/O error") true
      /\ is_locked_error (OperationalError "disk I/O error") = false)
  /\ (exists w' tr,
         _get_connection_with_retry Scenario.locked_then_io_error
           default_max_retries default_retry_delay (fun w => (w, Ok tt))
           Scenario.plain_world
         = (w', Raised (OperationalError "disk I/O error"))
         /\ trace w' = (trace Scenario.plain_world ++ tr)%list
         /\ attempts_in tr = 2%nat
         /\ schedule_in tr
            = firstn (2 * 1 + 1)
                [ EConnect 0; ESleep (default_retry_delay * inject_Z (2 ^ 0));
                  EConnect 1; ESleep (default_retry_delay * inject_Z (2 ^ 1));
                  EConnect 2; ESleep (default_retry_delay * inject_Z (2 ^ 2));
                  EConnect 3; ESleep (default_retry_delay * inject_Z (2 ^ 3));
                  EConnect 4 ]
         /\ Forall2 Qeq (sleeps_in tr)
                    (firstn 1 [ms 100; ms 200; ms 400; ms 800])
         /\ app_table w' = app_table Scenario.plain_world
         /\ files w' = files Scenario.plain_world).
Proof.
  assert (H1 : forall n, raises_locked (Scenario.always_locked n) = true)
    by (intros n; reflexivity).
  assert (H2 : forall j, (j < 1)%nat ->
                 raises_locked
                   (Scenario.locked_then_io_error
                      (connects Scenario.plain_world + j)%nat) = true)
    by (intros j Hj; destruct j; [reflexivity|lia]).
  assert (H3 : Scenario.locked_then_io_error
                 (connects Scenario.plain_world + 1)%nat
               = ConnRaises (OperationalError "disk I/O error") true)
    by reflexivity.
  assert (H4 : is_locked_error (OperationalError "disk I/O error") = false)
    by reflexivity.
  exact (conj H1
          (conj (proj1 (connection_retry_bound Scenario.always_locked unit
                          (fun w => (w, Ok tt)) Scenario.plain_world) H1)
             (conj (conj H2 (conj H3 H4))
                (proj2 (connection_retry_bound Scenario.locked_then_io_error
                          unit (fun w => (w, Ok tt)) Scenario.plain_world)
                       1%nat _ _ ltac:(lia) H2 H3 H4)))).
Defined.


(** * Further properties *)

(** ** Slicing *)

Lemma string_length_app (a b : string) :
  String.length (a +:+ b) = (String.length a + String.length b)%nat.
Proof. induction a as [|c a IH]; simpl; [reflexivity|f_equal; exact IH]. Qed.

Lemma str_drop_app (a b : string) (k : nat) :
  str_drop (String.length a + k) (a +:+ b) = str_drop k b.
Proof. induction a as [|c a IH]; simpl; [reflexivity|exact IH]. Qed.

Lemma str_drop_app_le (a b : string) (n : nat) :
  (n <= String.length a)%nat -> str_drop n (a +:+ b) = str_drop n a +:+ b.
Proof.
  revert n. induction a as [|c a IH]; intros n Hn; simpl in *.
  - destruct n; [destruct b; reflexivity|lia].
  - destruct n as [|n]; [reflexivity|]. simpl. apply IH. lia.
Qed.

Lemma str_drop_length (a : string) (n : nat) :
  String.length (str_drop n a) = (String.length a - n)%nat.
Proof.
  revert n. induction a as [|c a IH]; intros n; destruct n; simpl; auto.
Qed.

Lemma str_take_app (a b : string) :
  str_take (String.length a) (a +:+ b) = a.
Proof.
  induction a as [|c a IH]; simpl; [destruct b; reflexivity|f_equal; exact IH].
Qed.

(** A suffix as long as the extension is the extension or is not. *)
Lemma ends_with_app_longer (ext a b : string) (k : nat) :
  String.length b = (k + String.length ext)%nat ->
  ends_with ext (a +:+ b) = String.eqb (str_drop k b) ext.
Proof.
  intros Hl. unfold ends_with. rewrite string_length_app, Hl.
  replace (String.length a + (k + String.length ext) - String.length ext)%nat
    with (String.length a + k)%nat by lia.
  rewrite str_drop_app.
  replace (String.length ext <=? String.length a + (k + String.length ext))%nat
    with true by (symmetry; apply Nat.leb_le; lia).
  reflexivity.
Qed.

(** When the path ends with the extension and the appended part is no longer
    than the extension, the appended part ends the extension. *)
Lemma ends_with_app_shorter (ext a b : string) :
  (String.length b <= String.length ext)%nat ->
  ends_with ext (a +:+ b) = true -> ends_with b ext = true.
Proof.
  intros Hl H. unfold ends_with in H. apply andb_prop in H as [Hle Heq].
  apply Nat.leb_le in Hle. apply String.eqb_eq in Heq.
  rewrite string_length_app in *.
  remember (String.length a + String.length b - String.length ext)%nat as n.
  assert (Hn : (n <= String.length a)%nat) by lia.
  clear Heqn Hle Hl.
  rewrite str_drop_app_le in Heq by exact Hn. subst ext.
  rewrite (ends_with_app_longer b _ b 0 eq_refl). apply String.eqb_refl.
Qed.

Lemma strip_suffix_app (a b : string) :
  strip_suffix b (a +:+ b) = a.
Proof.
  unfold strip_suffix. rewrite string_length_app.
  replace (String.length a + String.length b - String.length b)%nat
    with (String.length a) by lia.
  apply str_take_app.
Qed.

Lemma remove_compression_extension_of_added_aux
        (t : CompressionType) (file_path : string) :
  t <> NONE ->
  CompressionFiles._remove_compression_extension
    (file_path +:+ CompressionFiles._get_compression_extension t)
  = file_path.
Proof.
  intros Ht. unfold CompressionFiles._remove_compression_extension.
  destruct t; try contradiction;
    cbn [CompressionFiles._get_compression_extension
           CompressionFiles.remove_first_extension].
  - rewrite (ends_with_app_longer ".gz" file_path ".gz" 0 eq_refl). cbn.
    apply strip_suffix_app.
  - rewrite (ends_with_app_longer ".gz" file_path ".bz2" 1 eq_refl).
    rewrite (ends_with_app_longer ".bz2" file_path ".bz2" 0 eq_refl). cbn.
    apply strip_suffix_app.
  - rewrite (ends_with_app_longer ".gz" file_path ".xz" 0 eq_refl).
    destruct (ends_with ".bz2" (file_path +:+ ".xz")) eqn:E.
    + apply ends_with_app_shorter in E; [discriminate E|cbn; lia].
    + rewrite (ends_with_app_longer ".xz" file_path ".xz" 0 eq_refl). cbn.
      apply strip_suffix_app.
  - rewrite (ends_with_app_longer ".gz" file_path ".zlib" 2 eq_refl).
    rewrite (ends_with_app_longer ".bz2" file_path ".zlib" 1 eq_refl).
    rewrite (ends_with_app_longer ".xz" file_path ".zlib" 2 eq_refl).
    rewrite (ends_with_app_longer ".zlib" file_path ".zlib" 0 eq_refl). cbn.
    apply strip_suffix_app.
Qed.

(** X1. For every compression type but [none], removing the compression
    extension from a path to which [_get_compression_extension] was appended
    gives the path back, whatever the path (also one that itself ends in a
    compression extension). *)
Theorem remove_compression_extension_of_added
        (t : CompressionType) (file_path : string) :
  t <> NONE ->
  CompressionFiles._remove_compression_extension
    (file_path +:+ CompressionFiles._get_compression_extension t)
  = file_path.
Proof. exact (remove_compression_extension_of_added_aux t file_path). Qed.

(** ** compression.py: round trips *)

(** X2. [decompress_string] undoes [compress_string] for every compression
    type and level: on the empty string without any condition (both map it
    to the empty value), and on a non-empty UTF-8 string as soon as the
    library that the type names returns, at the clamped level, a non-empty
    stream that its own inverse maps back. *)
Theorem decompress_string_of_compress_string
        (L : Lib) (t : CompressionType) (r : Rnd) (text : str) (lvl : Z) :
  (is_empty text = false ->
   utf8_valid L text = true
   /\ library_inverts L t r text (Z.max 1 (Z.min 9 lvl))) ->
  CompressionManager.decompress_string L t
    (CompressionManager.compress_string L t r text lvl) = Some text.
Proof.
  intros H. destruct (is_empty text) eqn:He.
  - destruct text; [reflexivity|discriminate He].
  - destruct (H eq_refl) as (Hu & Hinv).
    destruct (decompress_compress_string L t r text lvl He Hu Hinv) as [-> Hd].
    exact Hd.
Qed.

(** X3. [decompress_dict] undoes [compress_dict]: the empty dict goes to
    the empty byte string and back without any condition, and a non-empty
    dict comes back when JSON reads back what it printed and the library
    that the type names is inverted by its own inverse on that text. *)
Theorem decompress_dict_of_compress_dict
        (L : Lib) (t : CompressionType) (r : Rnd)
        (data : list (string * Value)) (lvl : Z) :
  (data <> [] ->
   let j := json_dumps L (VDict data) in
   json_loads L j = Some (VDict data)
   /\ is_empty j = false
   /\ utf8_valid L j = true
   /\ library_inverts L t r j (Z.max 1 (Z.min 9 lvl))) ->
  CompressionManager.compress_dict L t r [] lvl = ""
  /\ CompressionFiles.decompress_dict L t "" = Some (VDict [])
  /\ CompressionFiles.decompress_dict L t
       (CompressionManager.compress_dict L t r data lvl) = Some (VDict data).
Proof.
  intros H. split; [reflexivity|]. split; [reflexivity|].
  destruct data as [|x data]; [reflexivity|].
  destruct (H ltac:(discriminate)) as (Hj & Hne & Hu & Hinv).
  unfold CompressionManager.compress_dict, CompressionFiles.decompress_dict.
  destruct (decompress_compress_string L t r _ lvl Hne Hu Hinv) as [-> Hd].
  destruct Hinv as [Hc _]. rewrite Hc, Hd. cbn [mbind option_bind]. exact Hj.
Qed.

(** X4. With the default output paths and a compression type other than
    [none], [compress_file] followed by [decompress_file] on its result
    brings the source file back with its content, keeps the compressed file,
    and touches no other path; for a file that is not empty it needs the
    library that the type names to be inverted by its own inverse on the
    content, at the clamped level. *)
Theorem decompress_file_of_compress_file
        (L : Lib) (t : CompressionType) (r : Rnd) (fs : gmap string string)
        (file_path : string) (data : bytes) (lvl : Z) :
  t <> NONE ->
  fs !! file_path = Some data ->
  (is_empty data = false ->
   library_inverts L t r data (Z.max 1 (Z.min 9 lvl))) ->
  let compressed_path :=
      file_path +:+ CompressionFiles._get_compression_extension t in
  exists fs1 fs2,
    CompressionFiles.compress_file L t r fs file_path None lvl
    = Some (fs1, compressed_path)
    /\ CompressionFiles.decompress_file L t fs1 compressed_path None
       = Some (fs2, file_path)
    /\ fs2 !! file_path = Some data
    /\ fs2 !! compressed_path
       = Some (if is_empty data then ""
               else library_compress L t r data (Z.max 1 (Z.min 9 lvl)))
    /\ (forall q, q <> file_path -> q <> compressed_path ->
                  fs2 !! q = fs !! q).
Proof.
  intros Ht Hf Hinv compressed_path.
  assert (Hneq : compressed_path <> file_path).
  { intros E. apply (f_equal String.length) in E. subst compressed_path.
    rewrite string_length_app in E. destruct t; try contradiction; cbn in E; lia. }
  assert (Hc : CompressionManager.compress_bytes L t r data lvl
               = (if is_empty data then ""
                  else library_compress L t r data (Z.max 1 (Z.min 9 lvl)))
               /\ CompressionManager.decompress_bytes L t
                    (CompressionManager.compress_bytes L t r data lvl)
                  = Some data).
  { destruct (is_empty data) eqn:He.
    - destruct data; [|discriminate He]. split; reflexivity.
    - destruct (Hinv eq_refl) as [Hc Hd].
      rewrite compress_bytes_library by exact He. split; [reflexivity|].
      rewrite decompress_bytes_library by exact Hc. exact Hd. }
  destruct Hc as [Hc Hd].
  unfold CompressionFiles.compress_file, CompressionFiles.decompress_file.
  rewrite Hf. cbn [mbind option_bind].
  fold compressed_path.
  eexists. eexists. split; [reflexivity|].
  rewrite lookup_insert_eq. cbn [mbind option_bind]. rewrite Hd.
  cbn [mbind option_bind].
  subst compressed_path.
  rewrite (remove_compression_extension_of_added_aux t file_path Ht).
  split; [reflexivity|].
  split; [apply lookup_insert_eq|].
  split.
  - rewrite lookup_insert_ne by (intros E; apply Hneq; symmetry; exact E).
    rewrite lookup_insert_eq, Hc. reflexivity.
  - intros q Hq1 Hq2.
    rewrite lookup_insert_ne by (intros E; apply Hq1; symmetry; exact E).
    rewrite lookup_insert_ne by (intros E; apply Hq2; symmetry; exact E).
    reflexivity.
Qed.

(** ** encryption.py: round trips *)

(** What [encrypt_string] needs from the libraries on a non-empty text: the
    text is UTF-8, and its token survives URL-safe base64 and decrypts. *)
Lemma decrypt_encrypt_string_aux (L : Lib) (r : Rnd) (plaintext : str) :
  (is_empty plaintext = false ->
   let token := fernet_encrypt L (nonce r) plaintext in
   utf8_valid L plaintext = true
   /\ is_empty (urlsafe_b64encode L token) = false
   /\ urlsafe_b64decode L (urlsafe_b64encode L token) = Some token
   /\ fernet_decrypt L token = Some plaintext) ->
  EncryptionManager.decrypt_string L
    (EncryptionManager.encrypt_string L r plaintext) = Some plaintext.
Proof.
  intros H. unfold EncryptionManager.encrypt_string,
              EncryptionManager.decrypt_string, encode_utf8, decode_utf8.
  destruct (is_empty plaintext) eqn:He.
  - destruct plaintext; [reflexivity|discriminate He].
  - destruct (H eq_refl) as (Hu & Hn & Hb & Hd).
    rewrite Hn, Hb. cbn [mbind option_bind]. rewrite Hd.
    cbn [mbind option_bind]. rewrite Hu. reflexivity.
Qed.

(** X5. [decrypt_string] undoes [encrypt_string], and [verify_encryption]
    answers [True]: on the empty string without any condition (it is not
    encrypted at all: both functions map it to the empty string), and on a
    non-empty UTF-8 text when the token survives URL-safe base64 and the
    cipher decrypts it. *)
Theorem decrypt_string_of_encrypt_string
        (L : Lib) (r : Rnd) (plaintext : str) :
  (is_empty plaintext = false ->
   let token := fernet_encrypt L (nonce r) plaintext in
   utf8_valid L plaintext = true
   /\ is_empty (urlsafe_b64encode L token) = false
   /\ urlsafe_b64decode L (urlsafe_b64encode L token) = Some token
   /\ fernet_decrypt L token = Some plaintext) ->
  EncryptionManager.encrypt_string L r "" = ""
  /\ EncryptionManager.decrypt_string L
       (EncryptionManager.encrypt_string L r plaintext) = Some plaintext
  /\ EncryptionFiles.verify_encryption L r plaintext = true.
Proof.
  intros H. split; [reflexivity|].
  pose proof (decrypt_encrypt_string_aux L r plaintext H) as Hd.
  split; [exact Hd|].
  unfold EncryptionFiles.verify_encryption. rewrite Hd.
  apply String.eqb_refl.
Qed.

(** X6. [decrypt_dict] undoes [encrypt_dict]: the empty dict goes to the
    empty string and back without any condition; a non-empty dict comes back
    when JSON reads back what it printed and the cipher and base64 are
    inverted on that text. *)
Theorem decrypt_dict_of_encrypt_dict
        (L : Lib) (r : Rnd) (data : list (string * Value)) :
  (data <> [] ->
   let j := json_dumps L (VDict data) in
   let token := fernet_encrypt L (nonce r) j in
   json_loads L j = Some (VDict data)
   /\ is_empty j = false
   /\ utf8_valid L j = true
   /\ is_empty (urlsafe_b64encode L token) = false
   /\ urlsafe_b64decode L (urlsafe_b64encode L token) = Some token
   /\ fernet_decrypt L token = Some j) ->
  EncryptionFiles.encrypt_dict L r [] = ""
  /\ EncryptionFiles.decrypt_dict L "" = Some (VDict [])
  /\ EncryptionFiles.decrypt_dict L (EncryptionFiles.encrypt_dict L r data)
     = Some (VDict data).
Proof.
  intros H. split; [reflexivity|]. split; [reflexivity|].
  destruct data as [|x data]; [reflexivity|].
  destruct (H ltac:(discriminate)) as (Hj & Hne & Hu & Hn & Hb & Hd).
  unfold EncryptionFiles.encrypt_dict, EncryptionFiles.decrypt_dict.
  rewrite (decrypt_encrypt_string_aux L r _ (fun _ => conj Hu (conj Hn (conj Hb Hd)))).
  unfold EncryptionManager.encrypt_string, encode_utf8. rewrite Hne, Hn.
  cbn [mbind option_bind]. exact Hj.
Qed.

(** X7. With the default output paths, [encrypt_file] writes
    [file_path + ".enc"] and [decrypt_file] on that path writes the source
    path back with the original content, keeping the encrypted file and
    touching no other path; it needs the cipher to decrypt its own token. *)
Theorem decrypt_file_of_encrypt_file
        (L : Lib) (r : Rnd) (fs : gmap string string)
        (file_path : string) (data : bytes) :
  fs !! file_path = Some data ->
  fernet_decrypt L (fernet_encrypt L (nonce r) data) = Some data ->
  exists fs1 fs2,
    EncryptionFiles.encrypt_file L r fs file_path None
    = Some (fs1, file_path +:+ ".enc")
    /\ EncryptionFiles.decrypt_file L fs1 (file_path +:+ ".enc") None
       = Some (fs2, file_path)
    /\ fs2 !! file_path = Some data
    /\ fs2 !! (file_path +:+ ".enc")
       = Some (fernet_encrypt L (nonce r) data)
    /\ (forall q, q <> file_path -> q <> file_path +:+ ".enc" ->
                  fs2 !! q = fs !! q).
Proof.
  intros Hf Hd.
  assert (Hneq : file_path +:+ ".enc" <> file_path).
  { intros E. apply (f_equal String.length) in E.
    rewrite string_length_app in E. cbn in E. lia. }
  unfold EncryptionFiles.encrypt_file, EncryptionFiles.decrypt_file.
  rewrite Hf. cbn [mbind option_bind].
  eexists. eexists. split; [reflexivity|].
  rewrite lookup_insert_eq. cbn [mbind option_bind]. rewrite Hd.
  cbn [mbind option_bind].
  rewrite (ends_with_app_longer ".enc" file_path ".enc" 0 eq_refl).
  cbn [str_drop String.eqb Ascii.eqb Bool.eqb].
  rewrite string_length_app.
  replace (String.length file_path + String.length ".enc" - 4)%nat
    with (String.length file_path) by (cbn; lia).
  rewrite str_take_app.
  split; [reflexivity|].
  split; [apply lookup_insert_eq|].
  split.
  - rewrite lookup_insert_ne by (intros E; apply Hneq; symmetry; exact E).
    apply lookup_insert_eq.
  - intros q Hq1 Hq2.
    rewrite lookup_insert_ne by (intros E; apply Hq1; symmetry; exact E).
    rewrite lookup_insert_ne by (intros E; apply Hq2; symmetry; exact E).
    reflexivity.
Qed.

(** ** secure_database.py: the integrity metadata *)

Section MetadataProps.
Context (L : Lib) (json_dumps_sorted : Value -> str).

Lemma verify_checksum_self (data : list (string * Value)) :
  verify_checksum L json_dumps_sorted data
                  (create_checksum L json_dumps_sorted data) = true.
Proof. unfold verify_checksum. apply String.eqb_refl. Qed.

(** Verification reads nothing but the row of the table name. *)
Lemma verify_data_integrity_row (self : Manager) (name : string)
      (data : list (string * Value)) (meta meta' : gmap string MetaRow) :
  meta !! name = meta' !! name ->
  _verify_data_integrity L json_dumps_sorted self name data meta
  = _verify_data_integrity L json_dumps_sorted self name data meta'.
Proof. intros H. unfold _verify_data_integrity. rewrite H. reflexivity. Qed.

Lemma verify_after_update (self : Manager) (now name : string)
      (data : list (string * Value)) (meta : gmap string MetaRow) :
  _verify_data_integrity L json_dumps_sorted self name data
    (_update_security_metadata L json_dumps_sorted self now name data meta)
  = true.
Proof.
  unfold _verify_data_integrity, _update_security_metadata.
  destruct (enable_checksums self); [|reflexivity]. cbn [negb orb].
  destruct data as [|x data]; [reflexivity|].
  rewrite lookup_insert_eq. cbn [meta_checksum]. apply verify_checksum_self.
Qed.

Lemma update_metadata_other (self : Manager) (now name other : string)
      (data : list (string * Value)) (meta : gmap string MetaRow) :
  other <> name ->
  _update_security_metadata L json_dumps_sorted self now name data meta !! other
  = meta !! other.
Proof.
  intros H. unfold _update_security_metadata.
  destruct (enable_checksums self); [|reflexivity]. cbn [negb].
  apply lookup_insert_ne. congruence.
Qed.
End MetadataProps.

(** X8. What [_update_security_metadata] records for a table is accepted by
    [_verify_data_integrity] for the same data, whatever the settings; the
    update touches no other table's row, and does nothing at all when
    checksums are disabled; with checksums enabled, other non-empty data is
    accepted exactly when its checksum is the recorded one. *)
Theorem verify_data_integrity_of_update
        (L : Lib) (json_dumps_sorted : Value -> str) (self : Manager)
        (now name : string) (data : list (string * Value))
        (meta : gmap string MetaRow) :
  let meta' :=
      _update_security_metadata L json_dumps_sorted self now name data meta in
  _verify_data_integrity L json_dumps_sorted self name data meta' = true
  /\ (forall other, other <> name -> meta' !! other = meta !! other)
  /\ (enable_checksums self = false -> meta' = meta)
  /\ (forall x data' y data0,
         enable_checksums self = true ->
         data = y :: data0 ->
         _verify_data_integrity L json_dumps_sorted self name (x :: data') meta'
         = String.eqb (create_checksum L json_dumps_sorted (x :: data'))
                      (create_checksum L json_dumps_sorted data)).
Proof.
  cbv zeta. split; [apply verify_after_update|].
  split; [intros other H; apply update_metadata_other; exact H|].
  split.
  - intros H. unfold _update_security_metadata. rewrite H. reflexivity.
  - intros x data' y data0 H ->.
    unfold _verify_data_integrity, _update_security_metadata. rewrite H.
    cbn [negb orb]. rewrite lookup_insert_eq. reflexivity.
Qed.

Lemma app_data_name_inj (k k' : string) :
  "app_data_" +:+ k = "app_data_" +:+ k' -> k = k'.
Proof. intros H. cbv [append] in H. congruence. Qed.

Lemma save_metadata_other
      (L : Lib) (jds : Value -> str) (self : Manager) (now : string)
      (items : list (string * Value)) :
  forall (meta : gmap string MetaRow) (k : string),
    k ∉ items.*1 ->
    save_metadata L jds self now items meta !! ("app_data_" +:+ k)
    = meta !! ("app_data_" +:+ k).
Proof.
  induction items as [|[k' v] items IH]; intros meta k Hk; [reflexivity|].
  cbn [save_metadata]. cbn in Hk. apply not_elem_of_cons in Hk as [Hne Hk].
  rewrite IH by exact Hk.
  assert (Hn : "app_data_" +:+ k <> "app_data_" +:+ k')
    by (intros E; apply Hne; apply app_data_name_inj; exact E).
  destruct v; try reflexivity; apply update_metadata_other; exact Hn.
Qed.

(** X9. After the metadata loop of [save_app_data] over a dict (distinct
    keys), every section whose value is a dict verifies against the row
    [app_data_<key>], and every section whose value is a list verifies as
    the dict [{"data": list}]; sections holding other values get no row. *)
Theorem save_metadata_verifies
        (L : Lib) (jds : Value -> str) (self : Manager) (now : string)
        (items : list (string * Value)) (meta : gmap string MetaRow)
        (k : string) (v : Value) :
  NoDup (items.*1) ->
  (k, v) ∈ items ->
  match v with
  | VDict d =>
    _verify_data_integrity L jds self ("app_data_" +:+ k) d
                           (save_metadata L jds self now items meta) = true
  | VList _ =>
    _verify_data_integrity L jds self ("app_data_" +:+ k) [("data", v)]
                           (save_metadata L jds self now items meta) = true
  | _ =>
    save_metadata L jds self now items meta !! ("app_data_" +:+ k)
    = meta !! ("app_data_" +:+ k)
  end.
Proof.
  revert meta. induction items as [|[k' v'] items IH]; intros meta Hnd Hin.
  - apply elem_of_nil in Hin. contradiction.
  - cbn in Hnd. apply NoDup_cons in Hnd as [Hk' Hnd].
    apply elem_of_cons in Hin as [Heq|Hin].
    + inversion Heq; subst k' v'. cbn [save_metadata].
      destruct v;
        try (rewrite save_metadata_other by exact Hk'; reflexivity);
        (erewrite verify_data_integrity_row;
         [apply verify_after_update|apply save_metadata_other; exact Hk']).
    + assert (Hne : k <> k').
      { intros ->. apply Hk'. apply list_elem_of_fmap. exists (k', v).
        split; [reflexivity|exact Hin]. }
      assert (Hn : "app_data_" +:+ k <> "app_data_" +:+ k')
        by (intros E; apply Hne; apply app_data_name_inj; exact E).
      cbn [save_metadata].
      match goal with
      | |- context [save_metadata L jds self now items ?m] =>
        specialize (IH m Hnd Hin);
          assert (Hm : m !! ("app_data_" +:+ k) = meta !! ("app_data_" +:+ k))
          by (destruct v'; try reflexivity;
              apply update_metadata_other; exact Hn)
      end.
      destruct v; try exact IH; rewrite IH; exact Hm.
Qed.

(** ** secure_database.py: saving and loading *)


(** X11. Saving a dict is all or nothing, whatever the store answers: no
    file is touched, and either the call returns [True] and every item has
    been written (the other keys holding what they held), or it returns
    [False] and no row has changed; in the latter case the table is as
    before, or it was missing and is there now, empty: the
    [CREATE TABLE] outlasts the rollback. *)
Theorem save_app_data_all_or_nothing
        (L : Lib) (co : nat -> ConnOutcome) (self : Manager)
        (rs : string -> Rnd) (items : list (string * Value)) (w : World) :
  NoDup (items.*1) ->
  let r := save_app_data L co self rs (VDict items) w in
  files (fst r) = files w
  /\ if snd r
     then exists t',
         app_table (fst r) = Some t'
         /\ (forall k v,
                (k, v) ∈ items ->
                item_raises L k v = false
                /\ t' !! k
                   = Some (_secure_data L self (rs k) (value_to_secure L k v)))
         /\ (forall k, k ∉ items.*1 ->
                       t' !! k = match app_table w with
                                 | Some t => t !! k
                                 | None => None
                                 end)
     else app_table (fst r) = app_table w
          \/ (app_table w = None /\ app_table (fst r) = Some ∅).
Proof.
  intros Hnd. cbv zeta.
  pose proof (save_app_data_inv L co self rs (VDict items) w) as [Hf Ht].
  split; [exact Hf|].
  destruct (snd (save_app_data L co self rs (VDict items) w)).
  - destruct Ht as (items' & t' & E & Hs & Ht). inversion E; subst items'.
    exists t'. split; [exact Ht|]. split.
    + intros k v Hin. split.
      * destruct (item_raises L k v) eqn:Hr; [|reflexivity].
        rewrite (save_items_none L self rs items) in Hs; [discriminate Hs|].
        apply Exists_exists. exists (k, v).
        split; [exact Hin|exact Hr].
      * exact (save_items_lookup_in L self rs items _ t' k v Hs Hnd Hin).
    + intros k Hk. rewrite (save_items_lookup_notin L self rs items _ t' k Hs Hk).
      unfold create_table_if_not_exists. destruct (app_table w); reflexivity.
  - destruct Ht as [Ht|Ht]; [left; exact Ht|].
    unfold create_table_if_not_exists in Ht.
    destruct (app_table w) as [t|]; [left; exact Ht|right; split; [reflexivity|exact Ht]].
Qed.


(** X13. [load_app_data] only reads: whatever the store answers, the table
    and the files are as before, and what it returns is either the empty
    dict or the decoding of every row of the table as it is; without a table
    it is the empty dict. *)
Theorem load_app_data_read_only
        (L : Lib) (co : nat -> ConnOutcome) (self : Manager) (w : World) :
  app_table (fst (load_app_data L co self w)) = app_table w
  /\ files (fst (load_app_data L co self w)) = files w
  /\ (snd (load_app_data L co self w) = []
      \/ exists t, app_table w = Some t
                   /\ snd (load_app_data L co self w)
                      = load_rows L self (map_to_list t))
  /\ (app_table w = None -> snd (load_app_data L co self w) = []).
Proof.
  destruct (load_app_data_frame L co self w) as [Ha Hf].
  split; [exact Ha|]. split; [exact Hf|]. split.
  - destruct (load_app_data_cases L co self w) as [H|(t & Ht & _ & _ & H)].
    + left. exact H.
    + right. exists t. split; assumption.
  - intros H. apply load_app_data_unreadable. left. exact H.
Qed.

(** No item of [empty_data] raises, whatever the libraries. *)
Lemma empty_data_stores (L : Lib) :
  Forall (fun kv => item_raises L (fst kv) (snd kv) = false) empty_data.
Proof.
  unfold empty_data.
  repeat (apply Forall_cons_2; [reflexivity|]). apply Forall_nil_2.
Qed.

(** X14. On a store that the first attempt reaches, [clear_all_data]
    returns [True] and overwrites the six sections with the encodings of
    their empty values; it is no table drop: every other key of the table
    keeps its payload. *)
Theorem clear_all_data_overwrites_six_sections
        (L : Lib) (co : nat -> ConnOutcome) (self : Manager)
        (rs : string -> Rnd) (w : World) :
  co (connects w) = ConnOk ->
  snd (clear_all_data L co self rs w) = true
  /\ exists t',
      app_table (fst (clear_all_data L co self rs w)) = Some t'
      /\ Forall (fun k => t' !! k = Some (_secure_data L self (rs k) (VList [])))
                ["handovers"; "requirements"; "issues"; "test_suites";
                 "recent_activities"]
      /\ t' !! "theme_mode"
         = Some (_secure_data L self (rs "theme_mode")
                              (VStr (py_str L (VStr "light"))))
      /\ (forall k, k ∉ ["handovers"; "requirements"; "issues"; "test_suites";
                         "recent_activities"; "theme_mode"] ->
                    t' !! k = match app_table w with
                              | Some t => t !! k
                              | None => None
                              end).
Proof.
  intros Hc. unfold clear_all_data.
  destruct (save_app_data_first_ok L co self rs empty_data w Hc)
    as (w' & -> & Ht & _ & _).
  destruct (save_items_some L self rs empty_data (create_table_if_not_exists w)
              (empty_data_stores L)) as [t' Hs].
  rewrite Hs in *. cbn [fst snd].
  split; [reflexivity|]. exists t'. split; [exact Ht|].
  assert (Hnd : NoDup (empty_data.*1)).
  { apply (bool_decide_unpack _). vm_compute. exact I. }
  assert (Hin : forall k v, (k, v) ∈ empty_data ->
            t' !! k
            = Some (_secure_data L self (rs k) (value_to_secure L k v)))
    by (intros k v H;
        exact (save_items_lookup_in L self rs empty_data _ t' k v Hs Hnd H)).
  assert (Hmem : forall kv, In kv empty_data -> kv ∈ empty_data)
    by (intros kv H; apply list_elem_of_In; exact H).
  split.
  - repeat (apply Forall_cons_2;
            [refine (Hin _ (VList []) (Hmem _ _)); cbn; tauto|]).
    apply Forall_nil_2.
  - split.
    + refine (Hin "theme_mode" (VStr "light") (Hmem _ _)). cbn. tauto.
    + intros k Hk.
      rewrite (save_items_lookup_notin L self rs empty_data _ t' k Hs Hk).
      unfold create_table_if_not_exists. destruct (app_table w); reflexivity.
Qed.

Lemma load_rows_keys (L : Lib) (self : Manager) (rows : list (string * string)) :
  (load_rows L self rows).*1 = rows.*1.
Proof.
  induction rows as [|[k s] rows IH]; [reflexivity|].
  cbn. f_equal. exact IH.
Qed.

Lemma load_rows_elem (L : Lib) (self : Manager) (rows : list (string * string))
      (k s : string) :
  (k, s) ∈ rows -> (k, _unsecure_data L self s) ∈ load_rows L self rows.
Proof.
  intros H. unfold load_rows.
  apply (list_elem_of_fmap_2
           (fun '(key, secured_value) =>
              (key, _unsecure_data L self secured_value)) rows (k, s) H).
Qed.

Lemma load_rows_elem_inv (L : Lib) (self : Manager)
      (rows : list (string * string)) (k : string) (v : Value) :
  (k, v) ∈ load_rows L self rows ->
  exists s, (k, s) ∈ rows /\ v = _unsecure_data L self s.
Proof.
  intros H. unfold load_rows in H.
  apply list_elem_of_fmap in H as ([k' s] & E & Hin).
  inversion E; subst. exists s. split; [exact Hin|reflexivity].
Qed.

(** X15. On a table that is not empty and a store that is reached for the
    load and for the re-save, [update_security_settings] installs the new
    settings and does one of three things.  When every cell is UTF-8 text
    and no loaded section raises on encoding, it returns [True] and
    re-encodes every stored section: each key then holds the encoding,
    under the new settings, of what its old payload decoded to under the old
    settings (for ["theme_mode"], of the [str] of it), and no key is added
    or removed.  When every cell is UTF-8 text and a loaded section raises
    (a payload that decodes to a string with a lone surrogate), it returns
    [False] and the table is as before.  When a cell is not UTF-8 text, the
    load returns the empty dict: it returns [True] and re-encodes
    nothing. *)
Theorem update_security_settings_reencodes
        (L : Lib) (co : nat -> ConnOutcome) (self : Manager)
        (rs : string -> Rnd) (e c k : option bool) (w : World)
        (t : gmap string string) :
  app_table w = Some t ->
  t <> ∅ ->
  co (connects w) = ConnOk ->
  co (S (connects w)) = ConnOk ->
  let res := update_security_settings L co self rs e c k w in
  let self' := apply_settings self e c k in
  fst (fst res) = self'
  /\ (cells_utf8 L t ->
      (forall key s, t !! key = Some s ->
                     item_raises L key (_unsecure_data L self s) = false) ->
      snd res = true
      /\ exists t',
          app_table (snd (fst res)) = Some t'
          /\ (forall key s,
                 t !! key = Some s ->
                 t' !! key
                 = Some (_secure_data L self' (rs key)
                           (value_to_secure L key (_unsecure_data L self s))))
          /\ (forall key, t !! key = None -> t' !! key = None))
  /\ (cells_utf8 L t ->
      (exists key s, t !! key = Some s
                     /\ item_raises L key (_unsecure_data L self s) = true) ->
      snd res = false /\ app_table (snd (fst res)) = Some t)
  /\ (~ cells_utf8 L t ->
      snd res = true /\ app_table (snd (fst res)) = Some t).
Proof.
  intros Ht Hne Hc1 Hc2. cbv zeta.
  split; [apply update_security_settings_manager|].
  assert (Hreach : reaches co (connects w) 0).
  { split; [unfold default_max_retries; lia|]. split; [intros j Hj; lia|].
    rewrite Nat.add_0_r. exact Hc1. }
  assert (Hrows : load_rows L self (map_to_list t) <> []).
  { intros E. apply Hne. apply map_to_list_empty_iff.
    destruct (map_to_list t); [reflexivity|discriminate E]. }
  split; [|split].
  - intros Hutf Hok. unfold update_security_settings.
    destruct (load_app_data_reached L co self w 0 t Hreach Ht Hutf)
      as (w1 & -> & Ht1 & _ & Hn1).
    destruct (load_rows L self (map_to_list t)) as [|x data] eqn:Erows;
      [contradiction|]. rewrite <- Erows.
    destruct (save_app_data_first_ok L co (apply_settings self e c k) rs
                (load_rows L self (map_to_list t)) w1)
      as (w2 & -> & Ht2 & _ & _).
    { rewrite Hn1. replace (connects w + 1)%nat with (S (connects w)) by lia.
      exact Hc2. }
    destruct (save_items_some L (apply_settings self e c k) rs
                (load_rows L self (map_to_list t))
                (create_table_if_not_exists w1)) as [t' Hs].
    { apply Forall_forall. intros [key v] Hin. cbn [fst snd].
      apply load_rows_elem_inv in Hin as (s & Hin & ->).
      apply (Hok key s). apply elem_of_map_to_list. exact Hin. }
    rewrite Hs in *. cbn [fst snd]. split; [reflexivity|].
    exists t'. split; [exact Ht2|].
    unfold create_table_if_not_exists in Hs. rewrite Ht1 in Hs. split.
    + intros key s Hk.
      refine (save_items_lookup_in L _ rs _ _ t' key _ Hs _ _).
      * rewrite load_rows_keys. apply NoDup_fst_map_to_list.
      * apply load_rows_elem. apply elem_of_map_to_list. exact Hk.
    + intros key Hk.
      rewrite (save_items_lookup_notin L _ rs _ _ t' key Hs); [exact Hk|].
      rewrite load_rows_keys. intros Hin.
      apply list_elem_of_fmap in Hin as ([k' s'] & -> & Hin).
      apply elem_of_map_to_list in Hin. cbn in Hk. congruence.
  - intros Hutf (key & s & Hk & Hr). unfold update_security_settings.
    destruct (load_app_data_reached L co self w 0 t Hreach Ht Hutf)
      as (w1 & -> & Ht1 & _ & Hn1).
    destruct (load_rows L self (map_to_list t)) as [|x data] eqn:Erows;
      [contradiction|]. rewrite <- Erows.
    destruct (save_app_data_first_ok L co (apply_settings self e c k) rs
                (load_rows L self (map_to_list t)) w1)
      as (w2 & -> & Ht2 & _ & _).
    { rewrite Hn1. replace (connects w + 1)%nat with (S (connects w)) by lia.
      exact Hc2. }
    assert (Hs : save_items L (apply_settings self e c k) rs
                   (load_rows L self (map_to_list t))
                   (create_table_if_not_exists w1) = None).
    { apply save_items_none. apply Exists_exists.
      exists (key, _unsecure_data L self s).
      split; [|exact Hr]. apply load_rows_elem.
      apply elem_of_map_to_list. exact Hk. }
    rewrite Hs in *. cbn [fst snd]. split; [reflexivity|].
    rewrite Ht2. unfold create_table_if_not_exists. rewrite Ht1. reflexivity.
  - intros Hn. unfold update_security_settings.
    pose proof (load_app_data_frame L co self w) as [Ha _].
    pose proof (load_app_data_unreadable L co self w
                  (or_intror (or_introl (ex_intro _ t (conj Ht Hn))))) as He.
    destruct (load_app_data L co self w) as [w1 data]. cbn [fst snd] in *.
    subst data. cbn [fst snd]. split; [reflexivity|congruence].
Qed.

(** The settings under which [backup_database] encodes the manifest. *)
Lemma backup_content_secure_data
      (L : Lib) (self : Manager) (r : Rnd) (x : string * Value)
      (manifest : list (string * Value)) :
  backup_content L self r (x :: manifest)
  = _secure_data L (backup_codec self) r (VDict (x :: manifest)).
Proof. reflexivity. Qed.

(** X16. A backup restores: on the file that [backup_database] has just
    written, the steps of [restore_database] go through up to the
    validation and deliver the dict of sections that the backup had loaded,
    so that the restore is [save_app_data] of exactly that dict; JSON reads
    back the manifest it printed, and the libraries (the compressor that the
    compression type names with its own inverse, base64, the cipher) are
    faithful on the buffers of the manifest. *)
Theorem restore_database_of_backup_database
        (L : Lib) (co : nat -> ConnOutcome) (self : Manager) (r : Rnd)
        (rs : string -> Rnd) (stamp now_iso : string) (stats : Value)
        (backup_path : option string) (w : World) :
  let loaded := snd (load_app_data L co self w) in
  let manifest := VDict (backup_data now_iso loaded stats) in
  let res := backup_database L co self r stamp now_iso stats backup_path w in
  json_loads L (json_dumps L manifest) = Some manifest ->
  codec_faithful L (backup_codec self) r (json_dumps L manifest) ->
  restore_steps L self (snd res) (fst res) = R_validated (VDict loaded)
  /\ restore_database L co self rs (snd res) (fst res)
     = save_app_data L co self rs (VDict loaded) (fst res).
Proof.
  intros loaded manifest res Hjson Hcf.
  assert (Hsteps : restore_steps L self (snd res) (fst res)
                   = R_validated (VDict loaded)).
  { subst res loaded manifest. unfold backup_database.
    destruct (load_app_data L co self w) as [w1 app_data]. cbn [fst snd] in *.
    unfold restore_steps, write_file. cbn [files].
    rewrite lookup_insert_eq.
    unfold backup_data at 1. rewrite backup_content_secure_data.
    fold (backup_data now_iso app_data stats).
    destruct (decode_steps_secure_data L (backup_codec self) r
                (VDict (backup_data now_iso app_data stats))
                ltac:(discriminate) Hcf) as [_ Hd].
    unfold decode_steps in Hd.
    cbn [backup_codec enable_encryption enable_compression compression_type
                      SecurityConfig.BACKUP_ENCRYPTION
                      SecurityConfig.BACKUP_COMPRESSION] in Hd.
    unfold restore_decrypt, restore_decompress.
    cbn [SecurityConfig.BACKUP_ENCRYPTION SecurityConfig.BACKUP_COMPRESSION].
    destruct (EncryptionManager.decrypt_string L _) as [text|];
      [|discriminate Hd].
    cbn [mbind option_bind] in Hd. rewrite Hd.
    change (json_text L (VDict (backup_data now_iso app_data stats)))
      with (json_dumps L (VDict (backup_data now_iso app_data stats))).
    rewrite Hjson. reflexivity. }
  split; [exact Hsteps|].
  unfold restore_database. rewrite Hsteps. reflexivity.
Qed.

(** ** secure_storage.py *)

(** X17. A record written by [_encrypt_and_compress_data] is read back by
    [_decrypt_and_decompress_data] of a manager with the same settings
    (any compression type, compression and encryption on or off), given that
    JSON reads back what it printed and that the library which the
    compression type names, with its own inverse, and the cipher, where they
    are used, are inverted on the buffers of that record; and stored bytes
    with another SHA-256 digest are refused with the integrity error,
    whatever the settings. *)
Theorem decrypt_and_decompress_of_encrypt_and_compress
        (L : Lib) (t : CompressionType) (ec ee : bool) (r : Rnd)
        (data : Value) :
  let self := StorageManager_init t ec ee in
  let j := json_dumps L data in
  let c := if ec then library_compress L t r j 6 else j in
  let record := _encrypt_and_compress_data L self r data in
  json_loads L j = Some data ->
  is_empty j = false ->
  utf8_valid L j = true ->
  (ec = true -> library_inverts L t r j 6) ->
  (ee = true -> fernet_decrypt L (fernet_encrypt L (nonce r) c) = Some c) ->
  _decrypt_and_decompress_data L self (fst (fst record)) (snd (fst record))
                               (snd record) = inr data
  /\ forall tampered,
      sha256_hexdigest L tampered <> sha256_hexdigest L (fst (fst record)) ->
      _decrypt_and_decompress_data L self tampered (snd (fst record))
                                   (snd record) = inl IntegrityCheckFailed.
Proof.
  intros self j c record Hjson Hne Hutf Hcomp Henc.
  subst record self. unfold _encrypt_and_compress_data, StorageManager_init.
  cbn [st_enable_compression st_enable_encryption st_compression_manager
         st_encryption_manager].
  fold j. unfold CompressionManager.compress_string, encode_utf8.
  rewrite Hne. rewrite andb_diag.
  split.
  - unfold _decrypt_and_decompress_data.
    cbn [st_enable_compression st_enable_encryption st_compression_manager
           st_encryption_manager].
    rewrite andb_diag.
    destruct ec; cbn [fst snd].
    + rewrite verify_hash_self. cbn [negb].
      destruct (Hcomp eq_refl) as [Hc Hd].
      rewrite compress_bytes_library by exact Hne.
      change (Z.max 1 (Z.min 9 6)) with 6.
      assert (Hdec : (if ee
                      then fernet_decrypt L
                             (if ee then fernet_encrypt L (nonce r) c else c)
                      else Some (if ee then fernet_encrypt L (nonce r) c else c))
                     = Some c)
        by (destruct ee; [apply Henc; reflexivity|reflexivity]).
      subst c. cbn beta iota in Hdec. rewrite Hdec.
      destruct t; cbn [CompressionType_value String.eqb Ascii.eqb Bool.eqb negb];
        try (rewrite decompress_bytes_library by exact Hc; rewrite Hd;
             unfold decode_utf8; rewrite Hutf, Hjson; reflexivity).
      cbn [library_compress]. unfold decode_utf8. rewrite Hutf, Hjson.
      reflexivity.
    + rewrite verify_hash_self. cbn [negb].
      assert (Hdec : (if ee
                      then fernet_decrypt L
                             (if ee then fernet_encrypt L (nonce r) c else c)
                      else Some (if ee then fernet_encrypt L (nonce r) c else c))
                     = Some c)
        by (destruct ee; [apply Henc; reflexivity|reflexivity]).
      subst c. cbn beta iota in Hdec. rewrite Hdec.
      cbn [String.eqb Ascii.eqb Bool.eqb negb].
      unfold decode_utf8. rewrite Hutf, Hjson. reflexivity.
  - intros tampered Hh. unfold _decrypt_and_decompress_data.
    destruct ec; cbn [fst snd];
      (replace (DataIntegrityManager.verify_hash L tampered _) with false;
       [reflexivity|symmetry; apply verify_hash_rejects_iff; exact Hh]).
Qed.

Lemma dict_get_set (key : string) (value : Value)
      (items : list (string * Value)) :
  dict_get key (dict_set key value items) = Some value.
Proof.
  induction items as [|[k v] items IH]; cbn [dict_set dict_get].
  - rewrite String.eqb_refl. reflexivity.
  - destruct (String.eqb k key) eqn:E; cbn [dict_get]; rewrite E;
      [reflexivity|exact IH].
Qed.

Lemma get_handovers_app (L : Lib) (self : StorageManager)
      (f : option string) (a b : list (string * bytes * string * string)) :
  get_handovers L self f (a ++ b)%list
  = (get_handovers L self f a ++ get_handovers L self f b)%list.
Proof.
  induction a as [|row a IH]; [reflexivity|].
  cbn [app get_handovers]. destruct (handover_of_row L self f row);
    rewrite IH; reflexivity.
Qed.

(** X18. Every dict that [get_handovers] returns comes from a row that
    passed the integrity check and decoded to a dict; its ['id'] is the id
    of that row, whatever the stored data said, and it passes the status
    filter. *)
Theorem get_handovers_sound
        (L : Lib) (self : StorageManager) (f : option string)
        (rows : list (string * bytes * string * string)) (v : Value) :
  v ∈ get_handovers L self f rows ->
  exists id enc ct ck stored,
    (id, enc, ct, ck) ∈ rows
    /\ DataIntegrityManager.verify_hash L enc ck = true
    /\ _decrypt_and_decompress_data L self enc ct ck = inr (VDict stored)
    /\ v = VDict (dict_set "id" (VStr id) stored)
    /\ dict_get "id" (dict_set "id" (VStr id) stored) = Some (VStr id)
    /\ status_passes f (dict_set "id" (VStr id) stored) = true.
Proof.
  induction rows as [|[[[id enc] ct] ck] rows IH]; intros Hin.
  - apply elem_of_nil in Hin. contradiction.
  - cbn [get_handovers] in Hin.
    assert (Htail : v ∈ get_handovers L self f rows ->
              exists i e c k s,
                (i, e, c, k) ∈ (id, enc, ct, ck) :: rows
                /\ DataIntegrityManager.verify_hash L e k = true
                /\ _decrypt_and_decompress_data L self e c k
                   = inr (VDict s)
                /\ v = VDict (dict_set "id" (VStr i) s)
                /\ dict_get "id" (dict_set "id" (VStr i) s)
                   = Some (VStr i)
                /\ status_passes f (dict_set "id" (VStr i) s) = true).
    { intros H. destruct (IH H) as (i & e & c & k & s & Hr & Hrest).
      exists i, e, c, k, s. split; [apply elem_of_cons; right; exact Hr|].
      exact Hrest. }
    destruct (handover_of_row L self f (id, enc, ct, ck)) as [h|] eqn:Hrow;
      [|exact (Htail Hin)].
    apply elem_of_cons in Hin as [->|Hin]; [|exact (Htail Hin)].
    unfold handover_of_row in Hrow.
    destruct (_decrypt_and_decompress_data L self enc ct ck) as [err|d] eqn:Hd;
      [discriminate Hrow|].
    destruct d as [| | | | |stored|]; try discriminate Hrow.
    destruct (status_passes f _) eqn:Hp; [|discriminate Hrow].
    inversion Hrow; subst h.
    exists id, enc, ct, ck, stored.
    split; [apply elem_of_cons; left; reflexivity|].
    split.
    { revert Hd. unfold _decrypt_and_decompress_data.
      destruct (DataIntegrityManager.verify_hash L enc ck);
        [reflexivity|discriminate]. }
    split; [exact Hd|]. split; [reflexivity|].
    split; [apply dict_get_set|exact Hp].
Qed.

(** X19. A row that fails the integrity check is passed over without
    effect on the others: the result is that of the remaining rows, in
    their order; and without a status filter every row that decodes to a
    dict is returned. *)
Theorem get_handovers_skips_corrupted
        (L : Lib) (self : StorageManager) (f : option string)
        (rows1 rows2 : list (string * bytes * string * string))
        (id : string) (enc : bytes) (ct ck : string) :
  DataIntegrityManager.verify_hash L enc ck = false ->
  get_handovers L self f (rows1 ++ (id, enc, ct, ck) :: rows2)%list
  = get_handovers L self f (rows1 ++ rows2)%list
  /\ forall id' enc' ct' ck' stored,
      (id', enc', ct', ck') ∈ (rows1 ++ rows2)%list ->
      _decrypt_and_decompress_data L self enc' ct' ck' = inr (VDict stored) ->
      VDict (dict_set "id" (VStr id') stored)
      ∈ get_handovers L self None
                      (rows1 ++ (id, enc, ct, ck) :: rows2)%list.
Proof.
  intros Hbad.
  assert (Hrow : forall g, handover_of_row L self g (id, enc, ct, ck) = None).
  { intros g. unfold handover_of_row, _decrypt_and_decompress_data.
    rewrite Hbad. reflexivity. }
  assert (Heq : forall g,
             get_handovers L self g (rows1 ++ (id, enc, ct, ck) :: rows2)%list
             = get_handovers L self g (rows1 ++ rows2)%list).
  { intros g. rewrite !get_handovers_app. cbn [get_handovers].
    rewrite Hrow. reflexivity. }
  split; [apply Heq|].
  intros id' enc' ct' ck' stored Hin Hd. rewrite Heq. clear Heq.
  revert Hin. generalize (rows1 ++ rows2)%list as rows.
  induction rows as [|row rows IH]; intros Hin.
  - apply elem_of_nil in Hin. contradiction.
  - apply elem_of_cons in Hin as [<-|Hin]; cbn [get_handovers].
    + unfold handover_of_row. rewrite Hd. cbn [status_passes].
      apply elem_of_cons. left. reflexivity.
    + destruct (handover_of_row L self None row);
        [apply elem_of_cons; right|]; apply IH; exact Hin.
Qed.

(** ** secure_storage.py: backups *)

(** X20. With encryption on, [create_backup] leaves the database file as it
    is, leaves no plain copy at the backup path, and writes at
    [backup_path + ".enc"] a token from which [decrypt_file] recovers the
    content of the database; the backup path and its [.enc] companion must
    not be the database file itself. *)
Theorem create_backup_encrypted
        (L : Lib) (db_name : string) (t : CompressionType) (ec : bool)
        (r : Rnd) (fs : gmap string string) (backup_path : string)
        (data : bytes) :
  fs !! db_name = Some data ->
  backup_path <> db_name ->
  backup_path +:+ ".enc" <> db_name ->
  fernet_decrypt L (fernet_encrypt L (nonce r) data) = Some data ->
  exists fs',
    create_backup L db_name (StorageManager_init t ec true) r fs backup_path
    = Some (fs', backup_path +:+ ".enc")
    /\ fs' !! db_name = Some data
    /\ fs' !! backup_path = None
    /\ fs' !! (backup_path +:+ ".enc")
       = Some (fernet_encrypt L (nonce r) data)
    /\ (forall q, q <> backup_path -> q <> backup_path +:+ ".enc" ->
                  fs' !! q = fs !! q)
    /\ EncryptionFiles.decrypt_file L fs' (backup_path +:+ ".enc") None
       = Some (<[backup_path := data]> fs', backup_path).
Proof.
  intros Hdb Hp Hpe Hd.
  assert (Hneq : backup_path +:+ ".enc" <> backup_path).
  { intros E. apply (f_equal String.length) in E.
    rewrite string_length_app in E. cbn in E. lia. }
  unfold create_backup, copy2.
  replace (String.eqb db_name backup_path) with false
    by (symmetry; apply String.eqb_neq; congruence).
  rewrite Hdb. cbn [mbind option_bind StorageManager_init st_enable_encryption
                          st_encryption_manager andb].
  unfold EncryptionFiles.encrypt_file. rewrite lookup_insert_eq.
  cbn [mbind option_bind].
  eexists. split; [reflexivity|].
  split.
  { rewrite lookup_delete_ne by congruence.
    rewrite lookup_insert_ne by congruence.
    rewrite lookup_insert_ne by congruence. exact Hdb. }
  split; [apply lookup_delete_eq|].
  split.
  { rewrite lookup_delete_ne by congruence. apply lookup_insert_eq. }
  split.
  { intros q Hq1 Hq2. rewrite lookup_delete_ne by congruence.
    rewrite lookup_insert_ne by congruence.
    rewrite lookup_insert_ne by congruence. reflexivity. }
  unfold EncryptionFiles.decrypt_file.
  rewrite lookup_delete_ne by congruence. rewrite lookup_insert_eq.
  cbn [mbind option_bind]. rewrite Hd. cbn [mbind option_bind].
  rewrite (ends_with_app_longer ".enc" backup_path ".enc" 0 eq_refl).
  cbn [str_drop String.eqb Ascii.eqb Bool.eqb].
  rewrite string_length_app.
  replace (String.length backup_path + String.length ".enc" - 4)%nat
    with (String.length backup_path) by (cbn; lia).
  rewrite str_take_app. reflexivity.
Qed.

(** ** The further theorems at concrete inputs *)

Lemma remove_compression_extension_of_added_witness :
  GZIP <> NONE
  /\ CompressionFiles._remove_compression_extension
       ("backup.db.gz" +:+ CompressionFiles._get_compression_extension GZIP)
     = "backup.db.gz".
Proof.
  assert (H : GZIP <> NONE) by discriminate.
  exact (conj H (remove_compression_extension_of_added GZIP "backup.db.gz" H)).
Defined.

Lemma decompress_string_of_compress_string_witness :
  (is_empty "hello" = false
   /\ utf8_valid Ref.lib "hello" = true
   /\ library_inverts Ref.lib LZMA Ref.rnd0 "hello" (Z.max 1 (Z.min 9 12)))
  /\ CompressionManager.decompress_string Ref.lib LZMA
       (CompressionManager.compress_string Ref.lib LZMA Ref.rnd0 "hello" 12)
     = Some "hello".
Proof.
  assert (H1 : is_empty "hello" = false) by reflexivity.
  assert (H2 : utf8_valid Ref.lib "hello" = true) by reflexivity.
  assert (H3 : library_inverts Ref.lib LZMA Ref.rnd0 "hello"
                               (Z.max 1 (Z.min 9 12)))
    by (split; vm_compute; reflexivity).
  exact (conj (conj H1 (conj H2 H3))
           (decompress_string_of_compress_string Ref.lib LZMA Ref.rnd0 "hello"
              12 (fun _ => conj H2 H3))).
Defined.

Lemma decompress_dict_of_compress_dict_witness :
  [("a", VInt 1)] <> []
  /\ CompressionFiles.decompress_dict Ref.lib BZIP2
       (CompressionManager.compress_dict Ref.lib BZIP2 Ref.rnd0
                                         [("a", VInt 1)] 9)
     = Some (VDict [("a", VInt 1)]).
Proof.
  split; [discriminate|].
  apply decompress_dict_of_compress_dict.
  intros _. cbv zeta. repeat split; vm_compute; reflexivity.
Defined.

Lemma decompress_file_of_compress_file_witness :
  ZLIB <> NONE
  /\ Sample.fs !! "bms_database.db" = Some "SQLite format 3"
  /\ library_inverts Ref.lib ZLIB Ref.rnd0 "SQLite format 3"
                     (Z.max 1 (Z.min 9 6))
  /\ exists fs1 fs2,
      CompressionFiles.compress_file Ref.lib ZLIB Ref.rnd0 Sample.fs
                                     "bms_database.db" None 6
      = Some (fs1, "bms_database.db.zlib")
      /\ CompressionFiles.decompress_file Ref.lib ZLIB fs1
                                          "bms_database.db.zlib" None
         = Some (fs2, "bms_database.db")
      /\ fs2 !! "bms_database.db" = Some "SQLite format 3".
Proof.
  assert (H1 : ZLIB <> NONE) by discriminate.
  assert (H2 : Sample.fs !! "bms_database.db" = Some "SQLite format 3")
    by (vm_compute; reflexivity).
  assert (H3 : library_inverts Ref.lib ZLIB Ref.rnd0 "SQLite format 3"
                               (Z.max 1 (Z.min 9 6)))
    by (split; vm_compute; reflexivity).
  refine (conj H1 (conj H2 (conj H3 _))).
  destruct (decompress_file_of_compress_file Ref.lib ZLIB Ref.rnd0 Sample.fs
              "bms_database.db" "SQLite format 3" 6 H1 H2 (fun _ => H3))
    as (fs1 & fs2 & Hc & Hd & Hf & _).
  exists fs1, fs2. exact (conj Hc (conj Hd Hf)).
Defined.

Lemma decrypt_string_of_encrypt_string_witness :
  is_empty "hello" = false
  /\ EncryptionManager.decrypt_string Ref.lib
       (EncryptionManager.encrypt_string Ref.lib Ref.rnd0 "hello")
     = Some "hello"
  /\ EncryptionFiles.verify_encryption Ref.lib Ref.rnd0 "hello" = true.
Proof.
  split; [reflexivity|].
  refine (proj2 (decrypt_string_of_encrypt_string Ref.lib Ref.rnd0 "hello" _)).
  intros _. vm_compute. repeat split.
Defined.

Lemma decrypt_dict_of_encrypt_dict_witness :
  [("a", VInt 1)] <> []
  /\ EncryptionFiles.decrypt_dict Ref.lib
       (EncryptionFiles.encrypt_dict Ref.lib Ref.rnd0 [("a", VInt 1)])
     = Some (VDict [("a", VInt 1)]).
Proof.
  split; [discriminate|].
  refine (proj2 (proj2 (decrypt_dict_of_encrypt_dict Ref.lib Ref.rnd0
                          [("a", VInt 1)] _))).
  intros _. vm_compute. repeat split.
Defined.

Lemma decrypt_file_of_encrypt_file_witness :
  Sample.fs !! "bms_database.db" = Some "SQLite format 3"
  /\ exists fs1 fs2,
      EncryptionFiles.encrypt_file Ref.lib Ref.rnd0 Sample.fs
                                   "bms_database.db" None
      = Some (fs1, "bms_database.db.enc")
      /\ EncryptionFiles.decrypt_file Ref.lib fs1 "bms_database.db.enc" None
         = Some (fs2, "bms_database.db")
      /\ fs2 !! "bms_database.db" = Some "SQLite format 3".
Proof.
  assert (H1 : Sample.fs !! "bms_database.db" = Some "SQLite format 3")
    by (vm_compute; reflexivity).
  refine (conj H1 _).
  destruct (decrypt_file_of_encrypt_file Ref.lib Ref.rnd0 Sample.fs
              "bms_database.db" "SQLite format 3" H1
              ltac:(vm_compute; reflexivity))
    as (fs1 & fs2 & Hc & Hd & Hf & _).
  exists fs1, fs2. exact (conj Hc (conj Hd Hf)).
Defined.

Lemma save_metadata_verifies_witness :
  NoDup (Sample.items.*1)
  /\ ("settings", VDict [("k", VStr "v")]) ∈ Sample.items
  /\ _verify_data_integrity Ref.lib Ref.json_dumps Manager_init
       "app_data_settings" [("k", VStr "v")]
       (save_metadata Ref.lib Ref.json_dumps Manager_init "2024-01-15T10:30:00"
                      Sample.items ∅)
     = true.
Proof.
  assert (H1 : NoDup (Sample.items.*1))
    by (apply (bool_decide_unpack _); vm_compute; exact I).
  assert (H2 : ("settings", VDict [("k", VStr "v")]) ∈ Sample.items)
    by (apply list_elem_of_In; cbn; tauto).
  exact (conj H1 (conj H2
           (save_metadata_verifies Ref.lib Ref.json_dumps Manager_init
              "2024-01-15T10:30:00" Sample.items ∅ "settings"
              (VDict [("k", VStr "v")]) H1 H2))).
Defined.



Lemma save_app_data_all_or_nothing_witness :
  NoDup (Sample.items.*1)
  /\ files (fst (save_app_data Ref.lib Scenario.always_locked Manager_init
                   Scenario.no_rnd (VDict Sample.items) Scenario.legacy_world))
     = files Scenario.legacy_world.
Proof.
  assert (H1 : NoDup (Sample.items.*1))
    by (apply (bool_decide_unpack _); vm_compute; exact I).
  exact (conj H1
           (proj1 (save_app_data_all_or_nothing Ref.lib Scenario.always_locked
                     Manager_init Scenario.no_rnd Sample.items
                     Scenario.legacy_world H1))).
Defined.


Lemma clear_all_data_witness :
  Scenario.reachable (connects Scenario.legacy_world) = ConnOk
  /\ snd (clear_all_data Ref.lib Scenario.reachable Manager_init
            Scenario.no_rnd Scenario.legacy_world) = true.
Proof.
  assert (H1 : Scenario.reachable (connects Scenario.legacy_world) = ConnOk)
    by reflexivity.
  exact (conj H1
           (proj1 (clear_all_data_overwrites_six_sections Ref.lib
                     Scenario.reachable Manager_init Scenario.no_rnd
                     Scenario.legacy_world H1))).
Defined.

Lemma update_security_settings_reencodes_witness :
  (app_table Scenario.plain_world = Some {[ "handovers" := "[1]" ]}
   /\ ({[ "handovers" := "[1]" ]} : gmap string string) <> ∅
   /\ cells_utf8 Ref.lib {[ "handovers" := "[1]" ]})
  /\ snd (update_security_settings Ref.lib Scenario.reachable Manager_init
            Scenario.no_rnd (Some false) (Some false) None
            Scenario.plain_world) = true.
Proof.
  assert (H1 : app_table Scenario.plain_world = Some {[ "handovers" := "[1]" ]})
    by reflexivity.
  assert (H2 : ({[ "handovers" := "[1]" ]} : gmap string string) <> ∅)
    by (apply insert_non_empty).
  assert (H3 : cells_utf8 Ref.lib {[ "handovers" := "[1]" ]})
    by (apply cells_utf8_decodable; vm_compute; reflexivity).
  assert (H4 : forall key s,
             ({[ "handovers" := "[1]" ]} : gmap string string) !! key = Some s ->
             item_raises Ref.lib key (_unsecure_data Ref.lib Manager_init s)
             = false).
  { intros key s H. apply lookup_singleton_Some in H as [<- <-].
    vm_compute. reflexivity. }
  exact (conj (conj H1 (conj H2 H3))
           (proj1 (proj1 (proj2 (update_security_settings_reencodes Ref.lib
                                   Scenario.reachable Manager_init
                                   Scenario.no_rnd (Some false) (Some false)
                                   None Scenario.plain_world _ H1 H2 eq_refl
                                   eq_refl))
                         H3 H4))).
Defined.

Lemma restore_database_of_backup_database_witness :
  restore_steps Ref.lib Manager_init
    (snd (backup_database Ref.lib Scenario.reachable Manager_init Ref.rnd0
            "20240115_103000" "2024-01-15T10:30:00" (VDict []) None
            Scenario.plain_world))
    (fst (backup_database Ref.lib Scenario.reachable Manager_init Ref.rnd0
            "20240115_103000" "2024-01-15T10:30:00" (VDict []) None
            Scenario.plain_world))
  = R_validated
      (VDict (snd (load_app_data Ref.lib Scenario.reachable Manager_init
                                 Scenario.plain_world))).
Proof.
  refine (proj1 (restore_database_of_backup_database Ref.lib Scenario.reachable
                   Manager_init Ref.rnd0 Scenario.no_rnd "20240115_103000"
                   "2024-01-15T10:30:00" (VDict []) None Scenario.plain_world
                   _ _)).
  - vm_compute. reflexivity.
  - constructor; intros; vm_compute; repeat split.
Defined.

Lemma decrypt_and_decompress_of_encrypt_and_compress_witness :
  (json_loads Ref.lib (json_dumps Ref.lib Sample.record) = Some Sample.record
   /\ library_inverts Ref.lib GZIP Ref.rnd0 (json_dumps Ref.lib Sample.record) 6)
  /\ _decrypt_and_decompress_data Ref.lib Sample.storage
       (fst (fst (_encrypt_and_compress_data Ref.lib Sample.storage Ref.rnd0
                    Sample.record)))
       (snd (fst (_encrypt_and_compress_data Ref.lib Sample.storage Ref.rnd0
                    Sample.record)))
       (snd (_encrypt_and_compress_data Ref.lib Sample.storage Ref.rnd0
               Sample.record))
     = inr Sample.record.
Proof.
  assert (H1 : json_loads Ref.lib (json_dumps Ref.lib Sample.record)
               = Some Sample.record) by (vm_compute; reflexivity).
  assert (H2 : library_inverts Ref.lib GZIP Ref.rnd0
                               (json_dumps Ref.lib Sample.record) 6)
    by (split; vm_compute; reflexivity).
  refine (conj (conj H1 H2) _).
  refine (proj1 (decrypt_and_decompress_of_encrypt_and_compress Ref.lib GZIP
                   true true Ref.rnd0 Sample.record H1 _ _ (fun _ => H2) _)).
  - vm_compute. reflexivity.
  - vm_compute. reflexivity.
  - intros _. vm_compute. reflexivity.
Defined.

Lemma get_handovers_sound_witness :
  VDict [("from_team", VStr "Coverage"); ("status", VStr "Completed");
         ("id", VStr "1")]
  ∈ get_handovers Ref.lib Sample.storage (Some "Completed")
                  [Sample.bad_row; Sample.good_row]
  /\ exists id enc ct ck stored,
      (id, enc, ct, ck) ∈ [Sample.bad_row; Sample.good_row]
      /\ DataIntegrityManager.verify_hash Ref.lib enc ck = true
      /\ _decrypt_and_decompress_data Ref.lib Sample.storage enc ct ck
         = inr (VDict stored)
      /\ VDict [("from_team", VStr "Coverage"); ("status", VStr "Completed");
                ("id", VStr "1")]
         = VDict (dict_set "id" (VStr id) stored)
      /\ dict_get "id" (dict_set "id" (VStr id) stored) = Some (VStr id)
      /\ status_passes (Some "Completed") (dict_set "id" (VStr id) stored)
         = true.
Proof.
  assert (H1 : VDict [("from_team", VStr "Coverage");
                      ("status", VStr "Completed"); ("id", VStr "1")]
               ∈ get_handovers Ref.lib Sample.storage (Some "Completed")
                               [Sample.bad_row; Sample.good_row]).
  { apply list_elem_of_In. vm_compute. left. reflexivity. }
  exact (conj H1 (get_handovers_sound Ref.lib Sample.storage (Some "Completed")
                    [Sample.bad_row; Sample.good_row] _ H1)).
Defined.

Lemma get_handovers_skips_corrupted_witness :
  DataIntegrityManager.verify_hash Ref.lib "garbage" "00" = false
  /\ get_handovers Ref.lib Sample.storage None
       ([Sample.good_row] ++ ("2", "garbage", "gzip", "00") :: [Sample.good_row])
     = get_handovers Ref.lib Sample.storage None
                     ([Sample.good_row] ++ [Sample.good_row]).
Proof.
  assert (H1 : DataIntegrityManager.verify_hash Ref.lib "garbage" "00" = false)
    by (vm_compute; reflexivity).
  exact (conj H1
           (proj1 (get_handovers_skips_corrupted Ref.lib Sample.storage None
                     [Sample.good_row] [Sample.good_row] "2" "garbage" "gzip"
                     "00" H1))).
Defined.

Lemma create_backup_encrypted_witness :
  Sample.fs !! "bms_database.db" = Some "SQLite format 3"
  /\ exists fs',
      create_backup Ref.lib "bms_database.db" (StorageManager_init GZIP true true)
                    Ref.rnd0 Sample.fs "backups/b1"
      = Some (fs', "backups/b1.enc")
      /\ fs' !! "bms_database.db" = Some "SQLite format 3"
      /\ fs' !! "backups/b1" = None.
Proof.
  assert (H1 : Sample.fs !! "bms_database.db" = Some "SQLite format 3")
    by (vm_compute; reflexivity).
  refine (conj H1 _).
  destruct (create_backup_encrypted Ref.lib "bms_database.db" GZIP true Ref.rnd0
              Sample.fs "backups/b1" "SQLite format 3" H1
              ltac:(discriminate) ltac:(discriminate)
              ltac:(vm_compute; reflexivity))
    as (fs' & Hc & Hdb & Hb & _).
  exists fs'. exact (conj Hc (conj Hdb Hb)).
Defined.
